(** * The USP recognition-engine adapter

    A shallow embedding of [CSpxUspRecoEngineAdapter]
    (source/core/sr/usp_reco_engine_adapter.cpp): the two-axis state
    machine, the chunking uploader, the RIFF/WAVE prelude writer, the
    [speech.context] builder and the handlers of the site and of the
    service session, followed by the properties established about them.

    The adapter's members become the fields of the record [Adapter]; every
    member function becomes a computation of type [Op A], a state monad over
    [Adapter] whose outcome is a value, a thrown [SPXHR], a loop that does
    not exit, or undefined behaviour (a null pointer followed).  The calls the adapter makes on its site and on the transport
    session are appended, in order, to the field [events].  A handler runs
    from its entry to its return without interleaving (the reader/writer
    lock is not modelled). *)

From Stdlib Require Import ZArith List String Ascii Bool Lia.
Import ListNotations.

Local Open Scope string_scope.
Local Open Scope list_scope.
Local Open Scope Z_scope.
Local Open Scope bool_scope.

(** ** Enumerations *)

Module AudioState.
Inductive t := Idle | Ready | Sending | Stopping.

Definition eqb (a b : t) : bool :=
  match a, b with
  | Idle, Idle | Ready, Ready | Sending, Sending | Stopping, Stopping => true
  | _, _ => false
  end.

End AudioState.

Module UspState.
Inductive t :=
| Idle | WaitingForTurnStart | WaitingForPhrase | WaitingForIntent
| WaitingForIntent2 | WaitingForTurnEnd | Error | Terminating | Zombie.

Definition eqb (a b : t) : bool :=
  match a, b with
  | Idle, Idle | WaitingForTurnStart, WaitingForTurnStart
  | WaitingForPhrase, WaitingForPhrase | WaitingForIntent, WaitingForIntent
  | WaitingForIntent2, WaitingForIntent2 | WaitingForTurnEnd, WaitingForTurnEnd
  | Error, Error | Terminating, Terminating | Zombie, Zombie => true
  | _, _ => false
  end.

(** Modelled from the spec: the declaration of [enum class UspState] is in
    usp_reco_engine_adapter.h, which is not among the sources.  The
    enumerators are numbered in the order in which the data model lists
    them; only that order is used ([IsStateBetweenIncluding]). *)
Definition rank (s : t) : Z :=
  match s with
  | Idle => 0 | WaitingForTurnStart => 1 | WaitingForPhrase => 2
  | WaitingForIntent => 3 | WaitingForIntent2 => 4 | WaitingForTurnEnd => 5
  | Error => 6 | Terminating => 7 | Zombie => 8
  end.
End UspState.

Inductive RecognitionMode := Interactive | Conversation | Dictation.

Inductive SPXHR :=
| SPX_NOERROR
| SPXERR_UNINITIALIZED
| SPXERR_ALREADY_INITIALIZED
| SPXERR_INVALID_ARG
| SPXERR_NOT_FOUND
| SPXERR_RUNTIME_ERROR
| SPXERR_UNEXPECTED_USP_SITE_FAILURE.

(** ** Bytes and fixed-width numbers *)

Definition uint8 := Z.

Definition wrap16 (n : Z) : Z := n mod 2 ^ 16.
Definition wrap32 (n : Z) : Z := n mod 2 ^ 32.
(** [size_t] is taken to be 64 bits wide. *)
Definition wrap_size_t (n : Z) : Z := n mod 2 ^ 64.

Definition bytes_of_string (s : string) : list uint8 :=
  map (fun c => Z.of_N (N_of_ascii c)) (list_ascii_of_string s).

(** The object representation of a number in memory, least significant byte
    first or last according to the host. *)
Inductive ByteOrder := LittleEndian | BigEndian.

Fixpoint le_bytes (width : nat) (n : Z) : list uint8 :=
  match width with
  | O => []
  | S w => n mod 256 :: le_bytes w (n / 256)
  end.

Definition object_bytes (host : ByteOrder) (width : nat) (n : Z) : list uint8 :=
  match host with
  | LittleEndian => le_bytes width n
  | BigEndian => rev (le_bytes width n)
  end.

(** ** The format descriptor *)

Record WAVEFORMATEX := {
  wFormatTag : Z;
  nChannels : Z;
  nSamplesPerSec : Z;
  nAvgBytesPerSec : Z;
  nBlockAlign : Z;
  wBitsPerSample : Z;
  cbSize : Z;
  (** the bytes that follow the structure in memory *)
  extra : list uint8
}.

(** Modelled from the spec: the declarations of WAVEFORMAT and WAVEFORMATEX
    are not among the sources.  The spec gives the size of the format chunk
    as [14 + extra_bytes], that is [sizeof(WAVEFORMAT) = 14] (the packed
    layout: two 16-bit fields, two 32-bit fields, one 16-bit field), and
    WAVEFORMATEX adds the two 16-bit fields wBitsPerSample and cbSize. *)
Definition sizeof_WAVEFORMAT : Z := 14.
Definition sizeof_WAVEFORMATEX : Z := 18.

(** The [cbSize] bytes that follow the structure: [extra], cut or padded with
    zeros to that length. *)
Definition extra_memory (f : WAVEFORMATEX) : list uint8 :=
  let n := Z.to_nat (wrap16 (cbSize f)) in
  firstn n (extra f ++ repeat 0 n).

(** The memory a [WAVEFORMATEX*] points to: [sizeof(WAVEFORMATEX) + cbSize]
    bytes, as [PrepareFirstAudioReadyState] copies them. *)
Definition format_memory (host : ByteOrder) (f : WAVEFORMATEX) : list uint8 :=
  object_bytes host 2 (wrap16 (wFormatTag f)) ++
  object_bytes host 2 (wrap16 (nChannels f)) ++
  object_bytes host 4 (wrap32 (nSamplesPerSec f)) ++
  object_bytes host 4 (wrap32 (nAvgBytesPerSec f)) ++
  object_bytes host 2 (wrap16 (nBlockAlign f)) ++
  object_bytes host 2 (wrap16 (wBitsPerSample f)) ++
  object_bytes host 2 (wrap16 (cbSize f)) ++
  extra_memory f.

(** ** Messages of the service and results handed to the site *)

(** Modelled from the spec: usp.h is not among the sources.  The adapter
    only compares the status of a phrase with [Success]; every other status
    is kept by its numeric code. *)
Inductive RecognitionStatus := Success | OtherStatus (code : Z).

Definition RecognitionStatus_is_Success (s : RecognitionStatus) : bool :=
  match s with Success => true | OtherStatus _ => false end.

Record SpeechPhraseMsg := {
  phrase_recognitionStatus : RecognitionStatus;
  phrase_displayText : string;
  phrase_offset : Z;
  phrase_duration : Z;
  phrase_json : string
}.

(** [USP::SpeechPhraseMsg()], the value the pending slot is reset to. *)
Definition SpeechPhraseMsg_default : SpeechPhraseMsg :=
  {| phrase_recognitionStatus := Success;
     phrase_displayText := "";
     phrase_offset := 0;
     phrase_duration := 0;
     phrase_json := "" |}.

(** Hypothesis and fragment messages carry the same fields. *)
Record SpeechTextMsg := {
  msg_text : string;
  msg_offset : Z;
  msg_duration : Z;
  msg_json : string
}.

Inductive TranslationStatus := TranslationSuccess | TranslationError | TranslationOther (code : Z).
Inductive SynthesisStatus := SynthesisSuccess | SynthesisError | SynthesisOther (code : Z).

Record TranslationResult := {
  translationStatus : TranslationStatus;
  translations : list (string * string);
  failureReason : string
}.

Record TranslationMsg := {
  tmsg_recognitionStatus : RecognitionStatus;
  tmsg_text : string;
  tmsg_offset : Z;
  tmsg_duration : Z;
  tmsg_json : string;
  tmsg_translation : TranslationResult
}.

Inductive ResultType := Speech | TranslationText | TranslationSynthesis.
Inductive TranslationTextStatus := TextSuccess | TextError.
Inductive TranslationSynthesisStatus := SynthSuccess | SynthEnd | SynthError.

Record RecoResult := {
  result_final : bool;
  result_text : string;
  result_type : ResultType;
  result_json : option string;
  result_luis_json : option string;
  result_translation : option (TranslationTextStatus * list (string * string) * string);
  result_synthesis : option (TranslationSynthesisStatus * list uint8 * Z * string)
}.

Definition CreateIntermediateResult (text : string) (ty : ResultType) : RecoResult :=
  {| result_final := false; result_text := text; result_type := ty;
     result_json := None; result_luis_json := None;
     result_translation := None; result_synthesis := None |}.

Definition CreateFinalResult (text : string) (ty : ResultType) : RecoResult :=
  {| result_final := true; result_text := text; result_type := ty;
     result_json := None; result_luis_json := None;
     result_translation := None; result_synthesis := None |}.

Definition with_json (j : string) (r : RecoResult) : RecoResult :=
  {| result_final := result_final r; result_text := result_text r;
     result_type := result_type r; result_json := Some j;
     result_luis_json := result_luis_json r;
     result_translation := result_translation r;
     result_synthesis := result_synthesis r |}.

Definition with_luis_json (j : string) (r : RecoResult) : RecoResult :=
  {| result_final := result_final r; result_text := result_text r;
     result_type := result_type r; result_json := result_json r;
     result_luis_json := Some j;
     result_translation := result_translation r;
     result_synthesis := result_synthesis r |}.

Definition with_translation (t : TranslationTextStatus * list (string * string) * string)
    (r : RecoResult) : RecoResult :=
  {| result_final := result_final r; result_text := result_text r;
     result_type := result_type r; result_json := result_json r;
     result_luis_json := result_luis_json r;
     result_translation := Some t;
     result_synthesis := result_synthesis r |}.

Definition with_synthesis (t : TranslationSynthesisStatus * list uint8 * Z * string)
    (r : RecoResult) : RecoResult :=
  {| result_final := result_final r; result_text := result_text r;
     result_type := result_type r; result_json := result_json r;
     result_luis_json := result_luis_json r;
     result_translation := result_translation r;
     result_synthesis := Some t |}.

(** ** The site *)

(** The named properties the adapter reads from its site, one field for each
    key ([g_SPEECH_Endpoint], ... and the three CARBON-INTERNAL-USP
    switches).  [GetStringValue] of a key that is not set is the empty
    string; [HasStringValue] is only asked of the recognition language. *)
Record NamedProperties := {
  SPEECH_Endpoint : string;
  SPEECH_ModelId : string;
  SPEECH_RecoMode : string;
  SPEECH_RecoLanguage : option string;
  SPEECH_SubscriptionKey : string;
  SPEECH_AuthToken : string;
  SPEECH_RpsToken : string;
  TRANSLATION_FromLanguage : string;
  TRANSLATION_ToLanguages : string;
  TRANSLATION_Voice : string;
  USP_NoDGI : bool;
  USP_NoIntentJson : bool;
  USP_ResetAfterError : bool
}.

Record IntentInfo := {
  intent_provider : string;
  intent_id : string;
  intent_key : string
}.

(** What the site answers when asked.  The adapter of the model always has
    its site, and the site its property service, as every caller that uses
    them without a check requires ([GetDgiJsonFromListenForList],
    [GetLanguageUnderstandingJsonFromIntentInfo] and every call on the
    site).  The three tests the source makes of them, in [Init],
    [UspInitialize] and [ShouldResetAfterError], which throw
    SPXERR_UNINITIALIZED and SPXERR_UNEXPECTED_USP_SITE_FAILURE, therefore
    have no counterpart here: what is established of a computation that
    reaches the site or its properties is established for a site that is
    there and has them. *)
Record Site := {
  GetListenForList : list string;
  GetIntentInfo : IntentInfo;
  properties : NamedProperties
}.

Inductive SiteCall :=
| AdapterStartingTurn
| AdapterStartedTurn (tag : string)
| AdapterDetectedSpeechStart (offset : Z)
| AdapterDetectedSpeechEnd (offset : Z)
| FireAdapterResult_Intermediate (offset : Z) (result : RecoResult)
| FireAdapterResult_FinalResult (offset : Z) (result : RecoResult)
| FireAdapterResult_TranslationSynthesis (result : RecoResult)
| AdapterStoppedTurn
| AdapterRequestingAudioIdle
| AdapterCompletedSetFormatStop
| SiteError (message : string).

(** ** The transport *)

Inductive EndpointType := BingSpeech | CDSDK | Translation | Cris.
Inductive AuthenticationType := SubscriptionKey | AuthorizationToken | SearchDelegationRPSToken.

(** The builder [USP::Client]: what the adapter has set on it. *)
Record Client := {
  client_endpointType : EndpointType;
  client_endpointUrl : option string;
  client_language : option string;
  client_modelId : option string;
  client_translation : option (string * string * string);
  client_recoMode : RecognitionMode;
  client_authentication : option (AuthenticationType * string)
}.

Inductive UspCall :=
| Connect (client : Client)
| SendMessage (path : string) (payload : string)
| WriteAudio (bytes : list uint8)
| FlushAudio
| DropSession.

Inductive Event :=
| ToSite (c : SiteCall)
| ToUsp (c : UspCall).

(** ** The adapter *)

Record Adapter := {
  m_audioState : AudioState.t;
  m_uspState : UspState.t;
  m_singleShot : bool;
  m_recoMode : RecognitionMode;
  m_customEndpoint : bool;
  (** the session, identified by the configuration it was connected with *)
  m_handle : option Client;
  m_format : option WAVEFORMATEX;
  m_expectIntentResponse : bool;
  m_finalResultMessageToFireLater : SpeechPhraseMsg;
  m_fUseBufferedImplementation : bool;
  m_servicePreferedMilliseconds : Z;
  m_servicePreferedBufferSizeSendingNow : Z;
  (** the frame buffer: its contents, or [None] for a null pointer *)
  m_buffer : option (list uint8);
  m_bytesInBuffer : Z;
  (** the write pointer, as an offset into [m_buffer] *)
  m_ptrIntoBuffer : option Z;
  m_bytesLeftInBuffer : Z;
  (** the byte order of the machine the adapter runs on *)
  host_order : ByteOrder;
  site : Site;
  (** the calls made on the site and on the session so far, oldest first *)
  events : list Event
}.

Definition set_m_audioState (v : AudioState.t) (a : Adapter) : Adapter :=
  {| m_audioState := v; m_uspState := m_uspState a; m_singleShot := m_singleShot a;
     m_recoMode := m_recoMode a; m_customEndpoint := m_customEndpoint a;
     m_handle := m_handle a; m_format := m_format a;
     m_expectIntentResponse := m_expectIntentResponse a;
     m_finalResultMessageToFireLater := m_finalResultMessageToFireLater a;
     m_fUseBufferedImplementation := m_fUseBufferedImplementation a;
     m_servicePreferedMilliseconds := m_servicePreferedMilliseconds a;
     m_servicePreferedBufferSizeSendingNow := m_servicePreferedBufferSizeSendingNow a;
     m_buffer := m_buffer a; m_bytesInBuffer := m_bytesInBuffer a;
     m_ptrIntoBuffer := m_ptrIntoBuffer a;
     m_bytesLeftInBuffer := m_bytesLeftInBuffer a; host_order := host_order a;
     site := site a; events := events a |}.

Definition set_m_uspState (v : UspState.t) (a : Adapter) : Adapter :=
  {| m_audioState := m_audioState a; m_uspState := v; m_singleShot := m_singleShot a;
     m_recoMode := m_recoMode a; m_customEndpoint := m_customEndpoint a;
     m_handle := m_handle a; m_format := m_format a;
     m_expectIntentResponse := m_expectIntentResponse a;
     m_finalResultMessageToFireLater := m_finalResultMessageToFireLater a;
     m_fUseBufferedImplementation := m_fUseBufferedImplementation a;
     m_servicePreferedMilliseconds := m_servicePreferedMilliseconds a;
     m_servicePreferedBufferSizeSendingNow := m_servicePreferedBufferSizeSendingNow a;
     m_buffer := m_buffer a; m_bytesInBuffer := m_bytesInBuffer a;
     m_ptrIntoBuffer := m_ptrIntoBuffer a;
     m_bytesLeftInBuffer := m_bytesLeftInBuffer a; host_order := host_order a;
     site := site a; events := events a |}.

Definition set_m_singleShot (v : bool) (a : Adapter) : Adapter :=
  {| m_audioState := m_audioState a; m_uspState := m_uspState a; m_singleShot := v;
     m_recoMode := m_recoMode a; m_customEndpoint := m_customEndpoint a;
     m_handle := m_handle a; m_format := m_format a;
     m_expectIntentResponse := m_expectIntentResponse a;
     m_finalResultMessageToFireLater := m_finalResultMessageToFireLater a;
     m_fUseBufferedImplementation := m_fUseBufferedImplementation a;
     m_servicePreferedMilliseconds := m_servicePreferedMilliseconds a;
     m_servicePreferedBufferSizeSendingNow := m_servicePreferedBufferSizeSendingNow a;
     m_buffer := m_buffer a; m_bytesInBuffer := m_bytesInBuffer a;
     m_ptrIntoBuffer := m_ptrIntoBuffer a;
     m_bytesLeftInBuffer := m_bytesLeftInBuffer a; host_order := host_order a;
     site := site a; events := events a |}.

Definition set_m_recoMode (v : RecognitionMode) (a : Adapter) : Adapter :=
  {| m_audioState := m_audioState a; m_uspState := m_uspState a;
     m_singleShot := m_singleShot a; m_recoMode := v;
     m_customEndpoint := m_customEndpoint a; m_handle := m_handle a;
     m_format := m_format a; m_expectIntentResponse := m_expectIntentResponse a;
     m_finalResultMessageToFireLater := m_finalResultMessageToFireLater a;
     m_fUseBufferedImplementation := m_fUseBufferedImplementation a;
     m_servicePreferedMilliseconds := m_servicePreferedMilliseconds a;
     m_servicePreferedBufferSizeSendingNow := m_servicePreferedBufferSizeSendingNow a;
     m_buffer := m_buffer a; m_bytesInBuffer := m_bytesInBuffer a;
     m_ptrIntoBuffer := m_ptrIntoBuffer a;
     m_bytesLeftInBuffer := m_bytesLeftInBuffer a; host_order := host_order a;
     site := site a; events := events a |}.

Definition set_m_customEndpoint (v : bool) (a : Adapter) : Adapter :=
  {| m_audioState := m_audioState a; m_uspState := m_uspState a;
     m_singleShot := m_singleShot a; m_recoMode := m_recoMode a; m_customEndpoint := v;
     m_handle := m_handle a; m_format := m_format a;
     m_expectIntentResponse := m_expectIntentResponse a;
     m_finalResultMessageToFireLater := m_finalResultMessageToFireLater a;
     m_fUseBufferedImplementation := m_fUseBufferedImplementation a;
     m_servicePreferedMilliseconds := m_servicePreferedMilliseconds a;
     m_servicePreferedBufferSizeSendingNow := m_servicePreferedBufferSizeSendingNow a;
     m_buffer := m_buffer a; m_bytesInBuffer := m_bytesInBuffer a;
     m_ptrIntoBuffer := m_ptrIntoBuffer a;
     m_bytesLeftInBuffer := m_bytesLeftInBuffer a; host_order := host_order a;
     site := site a; events := events a |}.

Definition set_m_handle (v : option Client) (a : Adapter) : Adapter :=
  {| m_audioState := m_audioState a; m_uspState := m_uspState a;
     m_singleShot := m_singleShot a; m_recoMode := m_recoMode a;
     m_customEndpoint := m_customEndpoint a; m_handle := v; m_format := m_format a;
     m_expectIntentResponse := m_expectIntentResponse a;
     m_finalResultMessageToFireLater := m_finalResultMessageToFireLater a;
     m_fUseBufferedImplementation := m_fUseBufferedImplementation a;
     m_servicePreferedMilliseconds := m_servicePreferedMilliseconds a;
     m_servicePreferedBufferSizeSendingNow := m_servicePreferedBufferSizeSendingNow a;
     m_buffer := m_buffer a; m_bytesInBuffer := m_bytesInBuffer a;
     m_ptrIntoBuffer := m_ptrIntoBuffer a;
     m_bytesLeftInBuffer := m_bytesLeftInBuffer a; host_order := host_order a;
     site := site a; events := events a |}.

Definition set_m_format (v : option WAVEFORMATEX) (a : Adapter) : Adapter :=
  {| m_audioState := m_audioState a; m_uspState := m_uspState a;
     m_singleShot := m_singleShot a; m_recoMode := m_recoMode a;
     m_customEndpoint := m_customEndpoint a; m_handle := m_handle a; m_format := v;
     m_expectIntentResponse := m_expectIntentResponse a;
     m_finalResultMessageToFireLater := m_finalResultMessageToFireLater a;
     m_fUseBufferedImplementation := m_fUseBufferedImplementation a;
     m_servicePreferedMilliseconds := m_servicePreferedMilliseconds a;
     m_servicePreferedBufferSizeSendingNow := m_servicePreferedBufferSizeSendingNow a;
     m_buffer := m_buffer a; m_bytesInBuffer := m_bytesInBuffer a;
     m_ptrIntoBuffer := m_ptrIntoBuffer a;
     m_bytesLeftInBuffer := m_bytesLeftInBuffer a; host_order := host_order a;
     site := site a; events := events a |}.

Definition set_m_expectIntentResponse (v : bool) (a : Adapter) : Adapter :=
  {| m_audioState := m_audioState a; m_uspState := m_uspState a;
     m_singleShot := m_singleShot a; m_recoMode := m_recoMode a;
     m_customEndpoint := m_customEndpoint a; m_handle := m_handle a;
     m_format := m_format a; m_expectIntentResponse := v;
     m_finalResultMessageToFireLater := m_finalResultMessageToFireLater a;
     m_fUseBufferedImplementation := m_fUseBufferedImplementation a;
     m_servicePreferedMilliseconds := m_servicePreferedMilliseconds a;
     m_servicePreferedBufferSizeSendingNow := m_servicePreferedBufferSizeSendingNow a;
     m_buffer := m_buffer a; m_bytesInBuffer := m_bytesInBuffer a;
     m_ptrIntoBuffer := m_ptrIntoBuffer a;
     m_bytesLeftInBuffer := m_bytesLeftInBuffer a; host_order := host_order a;
     site := site a; events := events a |}.

Definition set_m_finalResultMessageToFireLater (v : SpeechPhraseMsg) (a : Adapter) : Adapter :=
  {| m_audioState := m_audioState a; m_uspState := m_uspState a;
     m_singleShot := m_singleShot a; m_recoMode := m_recoMode a;
     m_customEndpoint := m_customEndpoint a; m_handle := m_handle a;
     m_format := m_format a; m_expectIntentResponse := m_expectIntentResponse a;
     m_finalResultMessageToFireLater := v;
     m_fUseBufferedImplementation := m_fUseBufferedImplementation a;
     m_servicePreferedMilliseconds := m_servicePreferedMilliseconds a;
     m_servicePreferedBufferSizeSendingNow := m_servicePreferedBufferSizeSendingNow a;
     m_buffer := m_buffer a; m_bytesInBuffer := m_bytesInBuffer a;
     m_ptrIntoBuffer := m_ptrIntoBuffer a;
     m_bytesLeftInBuffer := m_bytesLeftInBuffer a; host_order := host_order a;
     site := site a; events := events a |}.

Definition set_m_servicePreferedBufferSizeSendingNow (v : Z) (a : Adapter) : Adapter :=
  {| m_audioState := m_audioState a; m_uspState := m_uspState a;
     m_singleShot := m_singleShot a; m_recoMode := m_recoMode a;
     m_customEndpoint := m_customEndpoint a; m_handle := m_handle a;
     m_format := m_format a; m_expectIntentResponse := m_expectIntentResponse a;
     m_finalResultMessageToFireLater := m_finalResultMessageToFireLater a;
     m_fUseBufferedImplementation := m_fUseBufferedImplementation a;
     m_servicePreferedMilliseconds := m_servicePreferedMilliseconds a;
     m_servicePreferedBufferSizeSendingNow := v; m_buffer := m_buffer a;
     m_bytesInBuffer := m_bytesInBuffer a; m_ptrIntoBuffer := m_ptrIntoBuffer a;
     m_bytesLeftInBuffer := m_bytesLeftInBuffer a; host_order := host_order a;
     site := site a; events := events a |}.

Definition set_m_buffer (v : option (list uint8)) (a : Adapter) : Adapter :=
  {| m_audioState := m_audioState a; m_uspState := m_uspState a;
     m_singleShot := m_singleShot a; m_recoMode := m_recoMode a;
     m_customEndpoint := m_customEndpoint a; m_handle := m_handle a;
     m_format := m_format a; m_expectIntentResponse := m_expectIntentResponse a;
     m_finalResultMessageToFireLater := m_finalResultMessageToFireLater a;
     m_fUseBufferedImplementation := m_fUseBufferedImplementation a;
     m_servicePreferedMilliseconds := m_servicePreferedMilliseconds a;
     m_servicePreferedBufferSizeSendingNow := m_servicePreferedBufferSizeSendingNow a;
     m_buffer := v; m_bytesInBuffer := m_bytesInBuffer a;
     m_ptrIntoBuffer := m_ptrIntoBuffer a;
     m_bytesLeftInBuffer := m_bytesLeftInBuffer a; host_order := host_order a;
     site := site a; events := events a |}.

Definition set_m_bytesInBuffer (v : Z) (a : Adapter) : Adapter :=
  {| m_audioState := m_audioState a; m_uspState := m_uspState a;
     m_singleShot := m_singleShot a; m_recoMode := m_recoMode a;
     m_customEndpoint := m_customEndpoint a; m_handle := m_handle a;
     m_format := m_format a; m_expectIntentResponse := m_expectIntentResponse a;
     m_finalResultMessageToFireLater := m_finalResultMessageToFireLater a;
     m_fUseBufferedImplementation := m_fUseBufferedImplementation a;
     m_servicePreferedMilliseconds := m_servicePreferedMilliseconds a;
     m_servicePreferedBufferSizeSendingNow := m_servicePreferedBufferSizeSendingNow a;
     m_buffer := m_buffer a; m_bytesInBuffer := v;
     m_ptrIntoBuffer := m_ptrIntoBuffer a;
     m_bytesLeftInBuffer := m_bytesLeftInBuffer a; host_order := host_order a;
     site := site a; events := events a |}.

Definition set_m_ptrIntoBuffer (v : option Z) (a : Adapter) : Adapter :=
  {| m_audioState := m_audioState a; m_uspState := m_uspState a;
     m_singleShot := m_singleShot a; m_recoMode := m_recoMode a;
     m_customEndpoint := m_customEndpoint a; m_handle := m_handle a;
     m_format := m_format a; m_expectIntentResponse := m_expectIntentResponse a;
     m_finalResultMessageToFireLater := m_finalResultMessageToFireLater a;
     m_fUseBufferedImplementation := m_fUseBufferedImplementation a;
     m_servicePreferedMilliseconds := m_servicePreferedMilliseconds a;
     m_servicePreferedBufferSizeSendingNow := m_servicePreferedBufferSizeSendingNow a;
     m_buffer := m_buffer a; m_bytesInBuffer := m_bytesInBuffer a;
     m_ptrIntoBuffer := v; m_bytesLeftInBuffer := m_bytesLeftInBuffer a;
     host_order := host_order a; site := site a; events := events a |}.

Definition set_m_bytesLeftInBuffer (v : Z) (a : Adapter) : Adapter :=
  {| m_audioState := m_audioState a; m_uspState := m_uspState a;
     m_singleShot := m_singleShot a; m_recoMode := m_recoMode a;
     m_customEndpoint := m_customEndpoint a; m_handle := m_handle a;
     m_format := m_format a; m_expectIntentResponse := m_expectIntentResponse a;
     m_finalResultMessageToFireLater := m_finalResultMessageToFireLater a;
     m_fUseBufferedImplementation := m_fUseBufferedImplementation a;
     m_servicePreferedMilliseconds := m_servicePreferedMilliseconds a;
     m_servicePreferedBufferSizeSendingNow := m_servicePreferedBufferSizeSendingNow a;
     m_buffer := m_buffer a; m_bytesInBuffer := m_bytesInBuffer a;
     m_ptrIntoBuffer := m_ptrIntoBuffer a; m_bytesLeftInBuffer := v;
     host_order := host_order a; site := site a; events := events a |}.

Definition set_events (v : list Event) (a : Adapter) : Adapter :=
  {| m_audioState := m_audioState a; m_uspState := m_uspState a;
     m_singleShot := m_singleShot a; m_recoMode := m_recoMode a;
     m_customEndpoint := m_customEndpoint a; m_handle := m_handle a;
     m_format := m_format a; m_expectIntentResponse := m_expectIntentResponse a;
     m_finalResultMessageToFireLater := m_finalResultMessageToFireLater a;
     m_fUseBufferedImplementation := m_fUseBufferedImplementation a;
     m_servicePreferedMilliseconds := m_servicePreferedMilliseconds a;
     m_servicePreferedBufferSizeSendingNow := m_servicePreferedBufferSizeSendingNow a;
     m_buffer := m_buffer a; m_bytesInBuffer := m_bytesInBuffer a;
     m_ptrIntoBuffer := m_ptrIntoBuffer a;
     m_bytesLeftInBuffer := m_bytesLeftInBuffer a; host_order := host_order a;
     site := site a; events := v |}.
(** The constructor; the two constants of the header, the host and the site
    are the adapter's surroundings.  The members that the initialiser list
    does not mention are set before they are read ([m_singleShot] by
    [SetAdapterMode], [m_recoMode] and [m_customEndpoint] when the session is
    opened, [m_expectIntentResponse] when the context is sent); they start
    here as false and Interactive, and the pending slot as the default
    message. *)
Definition new_adapter (useBuffered : bool) (preferedMilliseconds : Z)
    (host : ByteOrder) (s : Site) : Adapter :=
  {| m_audioState := AudioState.Idle; m_uspState := UspState.Idle;
     m_singleShot := false; m_recoMode := Interactive; m_customEndpoint := false;
     m_handle := None; m_format := None; m_expectIntentResponse := false;
     m_finalResultMessageToFireLater := SpeechPhraseMsg_default;
     m_fUseBufferedImplementation := useBuffered;
     m_servicePreferedMilliseconds := preferedMilliseconds;
     m_servicePreferedBufferSizeSendingNow := 0;
     m_buffer := None; m_bytesInBuffer := 0; m_ptrIntoBuffer := None;
     m_bytesLeftInBuffer := 0;
     host_order := host; site := s; events := [] |}.

(** ** Computations over the adapter *)

Inductive outcome (A : Type) :=
| Done (a : A)
| Thrown (hr : SPXHR)
| Spins
| Undefined.

Arguments Done {A} a.
Arguments Thrown {A} hr.
Arguments Spins {A}.
Arguments Undefined {A}.

Definition Op (A : Type) : Type := Adapter -> outcome A * Adapter.

Definition ret {A} (x : A) : Op A := fun a => (Done x, a).

Definition bind {A B} (c : Op A) (k : A -> Op B) : Op B :=
  fun a =>
    match c a with
    | (Done x, a') => k x a'
    | (Thrown hr, a') => (Thrown hr, a')
    | (Spins, a') => (Spins, a')
    | (Undefined, a') => (Undefined, a')
    end.

Definition throw {A} (hr : SPXHR) : Op A := fun a => (Thrown hr, a).
Definition spin {A} : Op A := fun a => (Spins, a).
Definition undefined {A} : Op A := fun a => (Undefined, a).
Definition gets {A} (f : Adapter -> A) : Op A := fun a => (Done (f a), a).
Definition modify (f : Adapter -> Adapter) : Op unit := fun a => (Done tt, f a).

Declare Scope op_scope.
Delimit Scope op_scope with op.
Bind Scope op_scope with Op.

Notation "x <- c ;; k" := (bind c (fun x => k))
  (at level 61, c at next level, right associativity) : op_scope.
Notation "c ;; k" := (bind c (fun _ => k))
  (at level 61, right associativity) : op_scope.

Local Open Scope op_scope.

(** [c1 && c2] and [c1 || c2] of C++: the right operand runs only when the
    left one does not decide. *)
Definition and_then (c1 c2 : Op bool) : Op bool :=
  b <- c1 ;; if b then c2 else ret false.

Definition or_else (c1 c2 : Op bool) : Op bool :=
  b <- c1 ;; if b then ret true else c2.

Infix "&&&" := and_then (at level 40, left associativity) : op_scope.
Infix "|||" := or_else (at level 50, left associativity) : op_scope.

Definition when (b : bool) (c : Op unit) : Op unit := if b then c else ret tt.

(** The final state and the outcome of running a computation. *)
Definition exec {A} (c : Op A) (a : Adapter) : Adapter := snd (c a).
Definition result_of {A} (c : Op A) (a : Adapter) : outcome A := fst (c a).

Definition emit (e : Event) : Op unit :=
  modify (fun a => set_events (events a ++ [e]) a).

Definition call_site (c : SiteCall) : Op unit := emit (ToSite c).
Definition call_usp (c : UspCall) : Op unit := emit (ToUsp c).

(** ** The state machine *)

Definition ChangeState (fromAudioState : AudioState.t) (fromUspState : UspState.t)
    (toAudioState : AudioState.t) (toUspState : UspState.t) : Op bool :=
  fun a =>
    if AudioState.eqb fromAudioState (m_audioState a) &&
       UspState.eqb fromUspState (m_uspState a) &&
       ((negb (UspState.eqb fromUspState UspState.Error) &&
         negb (UspState.eqb fromUspState UspState.Zombie) &&
         negb (UspState.eqb fromUspState UspState.Terminating)) ||
        (UspState.eqb fromUspState toUspState ||
         (UspState.eqb fromUspState UspState.Error &&
          UspState.eqb toUspState UspState.Terminating) ||
         (UspState.eqb fromUspState UspState.Terminating &&
          UspState.eqb toUspState UspState.Zombie)))
    then (Done true, set_m_uspState toUspState (set_m_audioState toAudioState a))
    else (Done false, a).

(** Modelled from the spec: the overloads of [ChangeState] and [IsState],
    [IsBadState], [IsStateBetweenIncluding] and [IsInteractiveMode] are
    defined in usp_reco_engine_adapter.h, which is not among the sources.
    The short forms fill the arguments that are left out with the current
    state; the bad-state predicate is membership in Error, Terminating,
    Zombie; the mode is interactive when the recognition mode is. *)
Definition ChangeState_audio (fromAudioState toAudioState : AudioState.t) : Op bool :=
  fun a => ChangeState fromAudioState (m_uspState a) toAudioState (m_uspState a) a.

Definition ChangeState_usp (fromUspState toUspState : UspState.t) : Op bool :=
  fun a => ChangeState (m_audioState a) fromUspState (m_audioState a) toUspState a.

Definition ChangeState_to_audio (toAudioState : AudioState.t) : Op bool :=
  fun a => ChangeState (m_audioState a) (m_uspState a) toAudioState (m_uspState a) a.

Definition ChangeState_to_usp (toUspState : UspState.t) : Op bool :=
  fun a => ChangeState (m_audioState a) (m_uspState a) (m_audioState a) toUspState a.

Definition ChangeState_to (toAudioState : AudioState.t) (toUspState : UspState.t) : Op bool :=
  fun a => ChangeState (m_audioState a) (m_uspState a) toAudioState toUspState a.

Definition IsState_audio (s : AudioState.t) : Op bool :=
  gets (fun a => AudioState.eqb (m_audioState a) s).

Definition IsState_usp (s : UspState.t) : Op bool :=
  gets (fun a => UspState.eqb (m_uspState a) s).

Definition IsState (s : AudioState.t) (u : UspState.t) : Op bool :=
  IsState_audio s &&& IsState_usp u.

Definition IsBadState : Op bool :=
  IsState_usp UspState.Error ||| IsState_usp UspState.Terminating |||
  IsState_usp UspState.Zombie.

Definition IsStateBetweenIncluding (lo hi : UspState.t) : Op bool :=
  gets (fun a => (UspState.rank lo <=? UspState.rank (m_uspState a)) &&
                 (UspState.rank (m_uspState a) <=? UspState.rank hi)).

Definition IsInteractiveMode : Op bool :=
  gets (fun a => match m_recoMode a with Interactive => true | _ => false end).

(** The state pair the transition primitive guards. *)
Definition state_pair (a : Adapter) : AudioState.t * UspState.t :=
  (m_audioState a, m_uspState a).

(** ** The session facade *)

Definition non_null {A} (p : option A) : bool :=
  match p with Some _ => true | None => false end.

Definition UspSendMessage (messagePath : string) (buffer : string) : Op unit :=
  terminating <- IsState_usp UspState.Terminating ;;
  zombie <- IsState_usp UspState.Zombie ;;
  handle <- gets m_handle ;;
  when (negb terminating && negb zombie && non_null handle)
    (call_usp (SendMessage messagePath buffer)).

(** A [const uint8_t*] argument is the list of the bytes it points to; the
    byte count travels beside it, as in the source. *)
Definition UspWrite_Actual (buffer : list uint8) (byteToWrite : Z) : Op unit :=
  terminating <- IsState_usp UspState.Terminating ;;
  zombie <- IsState_usp UspState.Zombie ;;
  handle <- gets m_handle ;;
  when (negb terminating && negb zombie && non_null handle)
    (call_usp (WriteAudio (firstn (Z.to_nat byteToWrite) buffer))).

(** ** The chunking uploader *)

(** [SpxAllocSharedUint8Buffer]: fresh memory, read as zeros. *)
Definition SpxAllocSharedUint8Buffer (n : Z) : list uint8 := repeat 0 (Z.to_nat n).

(** [std::memcpy(dst + off, src, n)]. *)
Definition memcpy (dst : list uint8) (off : Z) (src : list uint8) (n : Z) : list uint8 :=
  firstn (Z.to_nat off) dst ++ firstn (Z.to_nat n) src ++ skipn (Z.to_nat (off + n)) dst.

Definition buffer_get (b : option (list uint8)) : list uint8 :=
  match b with Some bytes => bytes | None => [] end.

(** [m_ptrIntoBuffer = m_buffer.get()]. *)
Definition reset_ptrIntoBuffer : Op unit :=
  modify (fun a => set_m_ptrIntoBuffer (match m_buffer a with Some _ => Some 0 | None => None end) a).

(** The body of [for (;;)] in [UspWrite_Buffered].  An iteration that is
    entered with bytes still to write copies at least one of them or leaves
    the adapter as it found it, so [fuel] one above the number of bytes is
    used up only by a loop that does not exit. *)
Fixpoint UspWrite_Buffered_loop (fuel : nat) (flushBuffer : bool)
    (buffer : list uint8) (bytesToWrite : Z) : Op unit :=
  match fuel with
  | O => spin
  | S fuel' =>
    bytesInBuffer <- gets m_bytesInBuffer ;;
    bytesLeftInBuffer <- gets m_bytesLeftInBuffer ;;
    when (flushBuffer || ((bytesInBuffer >? 0) && (bytesLeftInBuffer =? 0)))
      (let bytesToFlush := wrap_size_t (bytesInBuffer - bytesLeftInBuffer) in
       buf <- gets m_buffer ;;
       UspWrite_Actual (buffer_get buf) bytesToFlush ;;
       modify (set_m_bytesLeftInBuffer bytesInBuffer) ;;
       reset_ptrIntoBuffer) ;;
    when flushBuffer
      (modify (set_m_buffer None) ;;
       modify (set_m_bytesInBuffer 0) ;;
       modify (set_m_ptrIntoBuffer None) ;;
       modify (set_m_bytesLeftInBuffer 0)) ;;
    if bytesToWrite =? 0 then ret tt
    else
      bytesLeftInBuffer <- gets m_bytesLeftInBuffer ;;
      let bytesThisLoop := Z.min bytesToWrite bytesLeftInBuffer in
      ptr <- gets m_ptrIntoBuffer ;;
      buf <- gets m_buffer ;;
      match ptr, buf with
      | Some off, Some bytes =>
          modify (set_m_buffer (Some (memcpy bytes off buffer bytesThisLoop))) ;;
          modify (set_m_ptrIntoBuffer (Some (off + bytesThisLoop))) ;;
          modify (set_m_bytesLeftInBuffer (bytesLeftInBuffer - bytesThisLoop)) ;;
          UspWrite_Buffered_loop fuel' flushBuffer buffer (bytesToWrite - bytesThisLoop)
      | _, _ => undefined
      end
  end.

Definition UspWrite_Buffered (buffer : list uint8) (bytesToWrite : Z) : Op unit :=
  let flushBuffer := bytesToWrite =? 0 in
  buf <- gets m_buffer ;;
  when (negb (non_null buf))
    (size <- gets m_servicePreferedBufferSizeSendingNow ;;
     modify (set_m_buffer (Some (SpxAllocSharedUint8Buffer size))) ;;
     modify (set_m_bytesInBuffer size) ;;
     reset_ptrIntoBuffer ;;
     modify (set_m_bytesLeftInBuffer size)) ;;
  UspWrite_Buffered_loop (S (Z.to_nat bytesToWrite)) flushBuffer buffer bytesToWrite.

Definition UspWrite (buffer : list uint8) (byteToWrite : Z) : Op unit :=
  useBuffered <- gets m_fUseBufferedImplementation ;;
  size <- gets m_servicePreferedBufferSizeSendingNow ;;
  if negb useBuffered || (size =? 0)
  then UspWrite_Actual buffer byteToWrite
  else UspWrite_Buffered buffer byteToWrite.

Definition UspWrite_Flush : Op unit :=
  terminating <- IsState_usp UspState.Terminating ;;
  zombie <- IsState_usp UspState.Zombie ;;
  handle <- gets m_handle ;;
  when (negb terminating && negb zombie && non_null handle)
    (UspWrite_Buffered [] 0 ;;
     call_usp FlushAudio).

(** ** The format-header writer *)

(** The three [FormatBufferWrite...] helpers copy at the write pointer and
    return the pointer advanced; the pointer is represented by the bytes
    written before it. *)
Definition FormatBufferWriteBytes (buffer : list uint8) (source : list uint8) (bytes : Z)
    : list uint8 :=
  buffer ++ firstn (Z.to_nat bytes) source.

Definition FormatBufferWriteNumber (host : ByteOrder) (buffer : list uint8) (number : Z)
    : list uint8 :=
  buffer ++ object_bytes host 4 number.

Definition FormatBufferWriteChars (buffer : list uint8) (psz : string) (cch : Z)
    : list uint8 :=
  buffer ++ firstn (Z.to_nat cch) (bytes_of_string psz).

Definition cbTag : Z := 4.
Definition cbChunkType : Z := 4.
Definition cbChunkSize : Z := 4.

Definition cbFormatChunk (pformat : WAVEFORMATEX) : Z :=
  wrap32 (sizeof_WAVEFORMAT + wrap16 (cbSize pformat)).

Definition cbHeader (pformat : WAVEFORMATEX) : Z :=
  wrap32 (cbTag + cbChunkSize +
          cbChunkType +
          cbChunkType + cbChunkSize +
          cbFormatChunk pformat +
          cbChunkType + cbChunkSize).

(** The bytes [UspWriteFormat] has put into its buffer when it calls
    [UspWrite]. *)
Definition format_header (host : ByteOrder) (pformat : WAVEFORMATEX) : list uint8 :=
  let cbRiffChunk := 0 in
  let cbDataChunk := 0 in
  let ptr := [] in
  let ptr := FormatBufferWriteChars ptr "RIFF" cbTag in
  let ptr := FormatBufferWriteNumber host ptr cbRiffChunk in
  let ptr := FormatBufferWriteChars ptr "WAVE" cbChunkType in
  let ptr := FormatBufferWriteChars ptr "fmt " cbChunkType in
  let ptr := FormatBufferWriteNumber host ptr (cbFormatChunk pformat) in
  let ptr := FormatBufferWriteBytes ptr (format_memory host pformat) (cbFormatChunk pformat) in
  let ptr := FormatBufferWriteChars ptr "data" cbChunkType in
  let ptr := FormatBufferWriteNumber host ptr cbDataChunk in
  ptr.

Definition UspWriteFormat (pformat : option WAVEFORMATEX) : Op unit :=
  match pformat with
  | None => undefined
  | Some f =>
      host <- gets host_order ;;
      UspWrite (format_header host f) (cbHeader f)
  end.

(** ** The context builder *)

Infix "+++" := String.append (right associativity, at level 60).

(** The double quote, which the raw string literals of the source contain. *)
Definition dq : string := String "034"%char EmptyString.

Definition string_empty (s : string) : bool :=
  match s with EmptyString => true | String _ _ => false end.

(** [s.find(c) != std::string::npos]. *)
Fixpoint contains_char (c : ascii) (s : string) : bool :=
  match s with
  | EmptyString => false
  | String x s' => Ascii.eqb x c || contains_char c s'
  end.

Definition char_at (n : nat) (s : string) (c : ascii) : bool :=
  match String.get n s with
  | Some x => Ascii.eqb x c
  | None => false
  end.

(** [ref.replace(ref.find(a), 1, b)] with a one-character [b]; the string
    is only called on when it holds [a]. *)
Fixpoint replace_first (a b : ascii) (s : string) : string :=
  match s with
  | EmptyString => EmptyString
  | String x s' => if Ascii.eqb x a then String b s' else String x (replace_first a b s')
  end.

Definition is_reference_grammar (listenFor : string) : bool :=
  (3 <? String.length listenFor)%nat &&
  char_at 0 listenFor "{" &&
  char_at (String.length listenFor - 1) listenFor "}" &&
  contains_char ":" listenFor.

Definition reference_of (listenFor : string) : string :=
  let ref := String.substring 1 (String.length listenFor - 2) listenFor in
  replace_first ":" "/" ref.

(** The first loop of [GetDgiJsonFromListenForList]: the pair
    (grammars, genericItems) after the whole list has been visited. *)
Definition sort_listen_for (listenForList : list string) : list string * list string :=
  fold_left
    (fun acc listenFor =>
       let '(grammars, genericItems) := acc in
       if is_reference_grammar listenFor
       then (grammars ++ [reference_of listenFor], genericItems)
       else (grammars, genericItems ++ [listenFor]))
    listenForList ([], []).

(** The two inner loops: [json] extended by each element in turn,
    [appendComma] being false for the first one only. *)
Definition append_each (wrap : string -> string) (json : string) (l : list string) : string :=
  fst (fold_left
         (fun acc item =>
            let '(json, appendComma) := acc in
            (json +++ (if appendComma : bool then "," else "") +++ wrap item, true))
         l (json, false)).

Definition text_item (item : string) : string :=
  "{" +++ dq +++ "Text" +++ dq +++ ":" +++ dq +++ item +++ dq +++ "}".

Definition quoted (grammar : string) : string := dq +++ grammar +++ dq.

Definition GetDgiJsonFromListenForList (props : NamedProperties) (listenForList : list string)
    : string :=
  let noDGI := USP_NoDGI props in
  let '(grammars, genericItems) := sort_listen_for listenForList in
  let dgiJson :=
    if (0 <? List.length grammars)%nat || (0 <? List.length genericItems)%nat then
      let dgiJson := "{" in
      let '(dgiJson, appendComma) :=
        if (0 <? List.length genericItems)%nat then
          let dgiJson := dgiJson +++ dq +++ "Groups" +++ dq +++ ": [" in
          let dgiJson := dgiJson +++ "{" +++ dq +++ "Type" +++ dq +++ ":" +++ dq +++
                         "Generic" +++ dq +++ "," +++ dq +++ "Items" +++ dq +++ ":[" in
          let dgiJson := append_each text_item dgiJson genericItems in
          let dgiJson := dgiJson +++ "]}" in
          let dgiJson := dgiJson +++ "]" in
          (dgiJson, true)
        else (dgiJson, false) in
      let dgiJson :=
        if (0 <? List.length grammars)%nat then
          let dgiJson := dgiJson +++ (if appendComma : bool then "," else "") in
          let dgiJson := dgiJson +++ dq +++ "ReferenceGrammars" +++ dq +++ ": [" in
          let dgiJson := append_each quoted dgiJson grammars in
          dgiJson +++ "]"
        else dgiJson in
      dgiJson +++ "}"
    else "" in
  if noDGI then "" else dgiJson.

Definition GetLanguageUnderstandingJsonFromIntentInfo (props : NamedProperties)
    (provider id key : string) : string :=
  let noIntentJson := USP_NoIntentJson props in
  let intentJson :=
    if negb (string_empty provider) && negb (string_empty id) && negb (string_empty key) then
      let intentJson := "{" in
      let intentJson := intentJson +++ dq +++ "provider" +++ dq +++ ":" +++ dq in
      let intentJson := intentJson +++ provider +++ dq +++ "," in
      let intentJson := intentJson +++ dq +++ "id" +++ dq +++ ":" +++ dq in
      let intentJson := intentJson +++ id +++ dq +++ "," in
      let intentJson := intentJson +++ dq +++ "key" +++ dq +++ ":" +++ dq in
      let intentJson := intentJson +++ key +++ dq in
      intentJson +++ "}"
    else "" in
  if noIntentJson then "" else intentJson.

Definition GetSpeechContextJson (dgiJson intentJson : string) : string :=
  if negb (string_empty dgiJson) || negb (string_empty intentJson) then
    let appendComma := false in
    let contextJson := "" +++ "{" in
    let '(contextJson, appendComma) :=
      if negb (string_empty dgiJson) then
        let contextJson := contextJson +++ (if appendComma : bool then "," else "") in
        let contextJson := contextJson +++ dq +++ "dgi" +++ dq +++ ":" in
        (contextJson +++ dgiJson, true)
      else (contextJson, appendComma) in
    let contextJson :=
      if negb (string_empty intentJson) then
        let contextJson := contextJson +++ (if appendComma : bool then "," else "") in
        let contextJson := contextJson +++ dq +++ "intent" +++ dq +++ ":" in
        contextJson +++ intentJson
      else contextJson in
    contextJson +++ "}"
  else "".

Definition UspSendSpeechContext : Op unit :=
  s <- gets site ;;
  let listenForList := GetListenForList s in
  let listenForJson := GetDgiJsonFromListenForList (properties s) listenForList in
  let info := GetIntentInfo s in
  let intentJson :=
    GetLanguageUnderstandingJsonFromIntentInfo (properties s)
      (intent_provider info) (intent_id info) (intent_key info) in
  modify (set_m_expectIntentResponse (negb (string_empty intentJson))) ;;
  let speechContext := GetSpeechContextJson listenForJson intentJson in
  when (negb (string_empty speechContext))
    (UspSendMessage "speech.context" speechContext).

Definition SendPreAudioMessages : Op unit :=
  UspSendSpeechContext ;;
  format <- gets m_format ;;
  UspWriteFormat format ;;
  match format with
  | None => undefined
  | Some f =>
      ms <- gets m_servicePreferedMilliseconds ;;
      modify (set_m_servicePreferedBufferSizeSendingNow
                (wrap_size_t (wrap_size_t (wrap32 (nSamplesPerSec f) * wrap16 (nBlockAlign f)) *
                              wrap_size_t ms) / 1000))
  end.

(** ** Opening the session: endpoint, recognition mode, authentication *)

Definition new_client (endpoint : EndpointType) : Client :=
  {| client_endpointType := endpoint; client_endpointUrl := None;
     client_language := None; client_modelId := None; client_translation := None;
     client_recoMode := Interactive; client_authentication := None |}.

Definition SetEndpointType (e : EndpointType) (c : Client) : Client :=
  {| client_endpointType := e; client_endpointUrl := client_endpointUrl c;
     client_language := client_language c; client_modelId := client_modelId c;
     client_translation := client_translation c; client_recoMode := client_recoMode c;
     client_authentication := client_authentication c |}.

Definition SetEndpointUrl (url : string) (c : Client) : Client :=
  {| client_endpointType := client_endpointType c; client_endpointUrl := Some url;
     client_language := client_language c; client_modelId := client_modelId c;
     client_translation := client_translation c; client_recoMode := client_recoMode c;
     client_authentication := client_authentication c |}.

Definition SetLanguage (language : string) (c : Client) : Client :=
  {| client_endpointType := client_endpointType c; client_endpointUrl := client_endpointUrl c;
     client_language := Some language; client_modelId := client_modelId c;
     client_translation := client_translation c; client_recoMode := client_recoMode c;
     client_authentication := client_authentication c |}.

Definition SetModelId (modelId : string) (c : Client) : Client :=
  {| client_endpointType := client_endpointType c; client_endpointUrl := client_endpointUrl c;
     client_language := client_language c; client_modelId := Some modelId;
     client_translation := client_translation c; client_recoMode := client_recoMode c;
     client_authentication := client_authentication c |}.

(** Source language, target languages and voice, set by three calls in a row. *)
Definition SetTranslation (from to voice : string) (c : Client) : Client :=
  {| client_endpointType := client_endpointType c; client_endpointUrl := client_endpointUrl c;
     client_language := client_language c; client_modelId := client_modelId c;
     client_translation := Some (from, to, voice); client_recoMode := client_recoMode c;
     client_authentication := client_authentication c |}.

Definition SetRecognitionMode (mode : RecognitionMode) (c : Client) : Client :=
  {| client_endpointType := client_endpointType c; client_endpointUrl := client_endpointUrl c;
     client_language := client_language c; client_modelId := client_modelId c;
     client_translation := client_translation c; client_recoMode := mode;
     client_authentication := client_authentication c |}.

Definition SetAuthentication (kind : AuthenticationType) (secret : string) (c : Client) : Client :=
  {| client_endpointType := client_endpointType c; client_endpointUrl := client_endpointUrl c;
     client_language := client_language c; client_modelId := client_modelId c;
     client_translation := client_translation c; client_recoMode := client_recoMode c;
     client_authentication := Some (kind, secret) |}.

Definition to_lower (c : ascii) : ascii :=
  let n := nat_of_ascii c in
  if (65 <=? n)%nat && (n <=? 90)%nat then ascii_of_nat (n + 32) else c.

(** [PAL::wcsicmp(a, b) == 0]. *)
Fixpoint wcsicmp_equal (a b : string) : bool :=
  match a, b with
  | EmptyString, EmptyString => true
  | String x a', String y b' => Ascii.eqb (to_lower x) (to_lower y) && wcsicmp_equal a' b'
  | _, _ => false
  end.

(** [s.find(needle) != std::string::npos]. *)
Definition contains (needle s : string) : bool :=
  match String.index 0 needle s with Some _ => true | None => false end.

(** Modelled from the spec: the values of [g_SPEECH_RecoMode_Interactive],
    [g_SPEECH_RecoMode_Conversation] and [g_SPEECH_RecoMode_Dictation] are
    declared outside the sources; the spec names the legal values
    Interactive, Conversation and Dictation, compared without regard to
    case. *)
Definition SPEECH_RecoMode_Interactive : string := "INTERACTIVE".
Definition SPEECH_RecoMode_Conversation : string := "CONVERSATION".
Definition SPEECH_RecoMode_Dictation : string := "DICTATION".

Definition SPX_FAILED (hr : SPXHR) : bool :=
  match hr with SPX_NOERROR => false | _ => true end.

Definition is_NOT_FOUND (hr : SPXHR) : bool :=
  match hr with SPXERR_NOT_FOUND => true | _ => false end.

Definition SetUspEndpoint (props : NamedProperties) (client : Client) : Op Client :=
  modify (set_m_customEndpoint false) ;;
  let endpoint := SPEECH_Endpoint props in
  if wcsicmp_equal endpoint "CORTANA" then ret (SetEndpointType CDSDK client)
  else if negb (string_empty endpoint) then
    modify (set_m_customEndpoint true) ;;
    ret (SetEndpointUrl endpoint client)
  else
    let fromLang := TRANSLATION_FromLanguage props in
    if negb (string_empty fromLang) then
      let toLangs := TRANSLATION_ToLanguages props in
      if string_empty toLangs then throw SPXERR_INVALID_ARG
      else
        let voice := TRANSLATION_Voice props in
        let customSpeechModelId := SPEECH_ModelId props in
        ret (SetModelId customSpeechModelId
               (SetTranslation fromLang toLangs voice (SetEndpointType Translation client)))
    else
      let customSpeechModelId := SPEECH_ModelId props in
      if negb (string_empty customSpeechModelId) then
        ret (SetModelId customSpeechModelId (SetEndpointType Cris client))
      else
        match SPEECH_RecoLanguage props with
        | Some value => ret (SetLanguage value (SetEndpointType BingSpeech client))
        | None => ret (SetEndpointType BingSpeech client)
        end.

(** The result code and the mode left in the out-parameter. *)
Definition GetRecoModeFromProperties (props : NamedProperties) (recoMode : RecognitionMode)
    : SPXHR * RecognitionMode :=
  let value := SPEECH_RecoMode props in
  if string_empty value then (SPXERR_NOT_FOUND, recoMode)
  else if wcsicmp_equal value SPEECH_RecoMode_Interactive then (SPX_NOERROR, Interactive)
  else if wcsicmp_equal value SPEECH_RecoMode_Conversation then (SPX_NOERROR, Conversation)
  else if wcsicmp_equal value SPEECH_RecoMode_Dictation then (SPX_NOERROR, Dictation)
  else (SPXERR_INVALID_ARG, recoMode).

Definition GetRecoModeFromEndpoint (endpoint : string) (recoMode : RecognitionMode)
    : SPXHR * RecognitionMode :=
  if contains "/interactive/" endpoint then (SPX_NOERROR, Interactive)
  else if contains "/conversation/" endpoint then (SPX_NOERROR, Conversation)
  else if contains "/dictation/" endpoint then (SPX_NOERROR, Dictation)
  else (SPXERR_NOT_FOUND, recoMode).

Definition SetUspRecoMode (props : NamedProperties) (client : Client) : Op Client :=
  let mode := Interactive in
  let '(checkHr, mode) := GetRecoModeFromProperties props mode in
  if SPX_FAILED checkHr && negb (is_NOT_FOUND checkHr) then throw checkHr
  else
    customEndpoint <- gets m_customEndpoint ;;
    mode <- (if is_NOT_FOUND checkHr && customEndpoint then
               let endpoint := SPEECH_Endpoint props in
               if string_empty endpoint then throw SPXERR_RUNTIME_ERROR
               else
                 let '(checkHr, mode) := GetRecoModeFromEndpoint endpoint mode in
                 if SPX_FAILED checkHr && negb (is_NOT_FOUND checkHr) then throw checkHr
                 else ret mode
             else ret mode) ;;
    modify (set_m_recoMode mode) ;;
    ret (SetRecognitionMode mode client).

Definition SetUspAuthentication (props : NamedProperties) (client : Client) : Op Client :=
  let uspSubscriptionKey := SPEECH_SubscriptionKey props in
  let uspAuthToken := SPEECH_AuthToken props in
  let uspRpsToken := SPEECH_RpsToken props in
  if negb (string_empty uspSubscriptionKey) then
    ret (SetAuthentication SubscriptionKey uspSubscriptionKey client)
  else if negb (string_empty uspAuthToken) then
    ret (SetAuthentication AuthorizationToken uspAuthToken client)
  else if negb (string_empty uspRpsToken) then
    ret (SetAuthentication SearchDelegationRPSToken uspRpsToken client)
  else throw SPXERR_INVALID_ARG.

(** The property service is there to be read (see [Site]), and
    [client.Connect()] is taken to return a session: a failure of the
    transport to connect is not modelled. *)
Definition UspInitialize : Op unit :=
  handle <- gets m_handle ;;
  if non_null handle then throw SPXERR_ALREADY_INITIALIZED
  else
    s <- gets site ;;
    let props := properties s in
    let client := new_client BingSpeech in
    client <- SetUspEndpoint props client ;;
    client <- SetUspRecoMode props client ;;
    client <- SetUspAuthentication props client ;;
    call_usp (Connect client) ;;
    modify (set_m_handle (Some client)).

Definition EnsureUspInit : Op unit :=
  handle <- gets m_handle ;;
  when (negb (non_null handle)) UspInitialize.

(** [m_handle.reset()]: the session, if there is one, is dropped. *)
Definition reset_handle : Op unit :=
  handle <- gets m_handle ;;
  when (non_null handle) (call_usp DropSession) ;;
  modify (set_m_handle None).

Definition PrepareAudioReadyState : Op unit :=
  modify (set_m_servicePreferedBufferSizeSendingNow 0) ;;
  EnsureUspInit.

Definition PrepareFirstAudioReadyState (format : WAVEFORMATEX) : Op unit :=
  modify (set_m_format (Some format)) ;;
  PrepareAudioReadyState.

(** The property service is there to be read (see [Site]). *)
Definition ShouldResetAfterError : Op bool :=
  s <- gets site ;;
  format <- gets m_format ;;
  ret (USP_ResetAfterError (properties s) && non_null format).

Definition ResetAfterError : Op unit :=
  reset_handle ;;
  PrepareAudioReadyState.

(** ** The result correlator *)

Definition FireFinalResultLater (message : SpeechPhraseMsg) : Op unit :=
  modify (set_m_finalResultMessageToFireLater message).

Definition FireFinalResultNow (message : SpeechPhraseMsg) (luisJson : string) : Op unit :=
  let result := CreateFinalResult (phrase_displayText message) Speech in
  let result := with_json (phrase_json message) result in
  let result := if negb (string_empty luisJson) then with_luis_json luisJson result else result in
  call_site (FireAdapterResult_FinalResult (phrase_offset message) result).

Definition FireFinalResultLater_WaitingForIntentComplete (luisJson : string) : Op unit :=
  message <- gets m_finalResultMessageToFireLater ;;
  FireFinalResultNow message luisJson ;;
  modify (set_m_finalResultMessageToFireLater SpeechPhraseMsg_default).

(** ** The turn controller: what the site calls *)

Definition not_ (c : Op bool) : Op bool := b <- c ;; ret (negb b).

(** The site is there (see [Site]); what is left of [Init] is the test of
    the session. *)
Definition Init : Op unit :=
  handle <- gets m_handle ;;
  if non_null handle then throw SPXERR_ALREADY_INITIALIZED else ret tt.

Definition Term : Op unit :=
  changed <- ChangeState_to_usp UspState.Terminating ;;
  if changed then
    reset_handle ;;
    ChangeState_to_usp UspState.Zombie ;;
    ret tt
  else ret tt.

Definition SetAdapterMode (singleShot : bool) : Op unit :=
  modify (set_m_singleShot singleShot).

Definition SetFormat (pformat : option WAVEFORMATEX) : Op unit :=
  ignoring <- IsBadState &&& not_ (IsState_usp UspState.Terminating) ;;
  if ignoring then ret tt
  else
    start <- ret (non_null pformat) &&& IsState_usp UspState.Idle &&&
             ChangeState_audio AudioState.Idle AudioState.Ready ;;
    if start then
      match pformat with
      | Some format => PrepareFirstAudioReadyState format
      | None => ret tt
      end
    else
      stop <- ret (negb (non_null pformat)) &&&
              (ChangeState_to_audio AudioState.Idle ||| IsState_usp UspState.Terminating) ;;
      if stop then
        call_site AdapterCompletedSetFormatStop ;;
        modify (set_m_format None)
      else ret tt.

Definition ProcessAudio (data : list uint8) (size : Z) : Op unit :=
  bad <- IsBadState ;;
  if bad then ret tt
  else
    first <- ret (size >? 0) &&&
             ChangeState AudioState.Ready UspState.Idle
                         AudioState.Sending UspState.WaitingForTurnStart ;;
    if first then
      SendPreAudioMessages ;;
      UspWrite data size ;;
      call_site AdapterStartingTurn
    else
      sending <- ret (size >? 0) &&& IsState_audio AudioState.Sending ;;
      if sending then UspWrite data size
      else
        flushing <- ret (size =? 0) &&& IsState_audio AudioState.Sending ;;
        if flushing then UspWrite_Flush
        else ret tt.

(** ** The turn controller: what the service session calls *)

Definition OnSpeechStartDetected (offset : Z) : Op unit :=
  bad <- IsBadState ;;
  if bad then ret tt
  else
    waiting <- IsState_usp UspState.WaitingForPhrase ;;
    if waiting then call_site (AdapterDetectedSpeechStart offset)
    else ret tt.

Definition OnSpeechEndDetected (offset : Z) : Op unit :=
  singleShot <- gets m_singleShot ;;
  requestIdle <- ret singleShot &&& ChangeState_audio AudioState.Sending AudioState.Stopping ;;
  bad <- IsBadState ;;
  (if bad then ret tt
   else
     expected <- IsStateBetweenIncluding UspState.WaitingForPhrase UspState.WaitingForTurnEnd &&&
                 (IsState_audio AudioState.Idle |||
                  IsState_audio AudioState.Sending |||
                  IsState_audio AudioState.Stopping) ;;
     if expected then call_site (AdapterDetectedSpeechEnd offset)
     else ret tt) ;;
  UspWrite_Flush ;;
  idle <- ret requestIdle &&& not_ IsBadState ;;
  when idle (call_site AdapterRequestingAudioIdle).

Definition FireIntermediate (message : SpeechTextMsg) : Op unit :=
  let result := CreateIntermediateResult (msg_text message) Speech in
  let result := with_json (msg_json message) result in
  call_site (FireAdapterResult_Intermediate (msg_offset message) result).

Definition OnSpeechHypothesis (message : SpeechTextMsg) : Op unit :=
  bad <- IsBadState ;;
  if bad then ret tt
  else
    waiting <- IsState_usp UspState.WaitingForPhrase ;;
    if waiting then FireIntermediate message
    else ret tt.

Definition OnSpeechFragment (message : SpeechTextMsg) : Op unit :=
  bad <- IsBadState ;;
  sendIntermediate <-
    (if bad then ret false
     else
       late <- ChangeState_usp UspState.WaitingForIntent UspState.WaitingForIntent2 ;;
       if late then
         FireFinalResultLater_WaitingForIntentComplete "" ;;
         ChangeState_usp UspState.WaitingForIntent2 UspState.WaitingForPhrase ;;
         ret true
       else IsState_usp UspState.WaitingForPhrase) ;;
  when sendIntermediate (FireIntermediate message).

Definition OnSpeechPhrase (message : SpeechPhraseMsg) : Op unit :=
  bad <- IsBadState ;;
  if bad then ret tt
  else
    later <- gets m_expectIntentResponse &&&
             ret (RecognitionStatus_is_Success (phrase_recognitionStatus message)) &&&
             ChangeState_usp UspState.WaitingForPhrase UspState.WaitingForIntent ;;
    if later then FireFinalResultLater message
    else
      now <- (IsInteractiveMode &&&
              ChangeState_usp UspState.WaitingForPhrase UspState.WaitingForTurnEnd) |||
             (not_ IsInteractiveMode &&&
              ChangeState_usp UspState.WaitingForPhrase UspState.WaitingForPhrase) ;;
      if now then FireFinalResultNow message ""
      else ret tt.

(** The [switch] on the translation status; its [default] case throws. *)
Definition translation_text_status (s : TranslationStatus) : Op TranslationTextStatus :=
  match s with
  | TranslationSuccess => ret TextSuccess
  | TranslationError => ret TextError
  | TranslationOther _ => throw SPXERR_RUNTIME_ERROR
  end.

Definition translation_result (final : bool) (message : TranslationMsg) : Op RecoResult :=
  let result := if final then CreateFinalResult (tmsg_text message) TranslationText
                else CreateIntermediateResult (tmsg_text message) TranslationText in
  let result := with_json (tmsg_json message) result in
  status <- translation_text_status (translationStatus (tmsg_translation message)) ;;
  ret (with_translation (status, translations (tmsg_translation message),
                         failureReason (tmsg_translation message)) result).

Definition OnTranslationHypothesis (message : TranslationMsg) : Op unit :=
  bad <- IsBadState ;;
  if bad then ret tt
  else
    waiting <- IsState_usp UspState.WaitingForPhrase ;;
    if waiting then
      result <- translation_result false message ;;
      call_site (FireAdapterResult_Intermediate (tmsg_offset message) result)
    else ret tt.

Definition OnTranslationPhrase (message : TranslationMsg) : Op unit :=
  bad <- IsBadState ;;
  if bad then ret tt
  else
    now <- (IsInteractiveMode &&&
            ChangeState_usp UspState.WaitingForPhrase UspState.WaitingForTurnEnd) |||
           (not_ IsInteractiveMode &&&
            ChangeState_usp UspState.WaitingForPhrase UspState.WaitingForPhrase) ;;
    if now then
      result <- translation_result true message ;;
      call_site (FireAdapterResult_FinalResult (tmsg_offset message) result)
    else ret tt.

Definition OnTranslationSynthesis (audioBuffer : list uint8) (audioLength : Z) : Op unit :=
  let result := CreateFinalResult "" TranslationSynthesis in
  let result := with_synthesis (SynthSuccess, audioBuffer, audioLength, "") result in
  call_site (FireAdapterResult_TranslationSynthesis result).

Definition OnTranslationSynthesisEnd (synthesisStatus : SynthesisStatus) (reason : string)
    : Op unit :=
  let result := CreateFinalResult "" TranslationSynthesis in
  status <- match synthesisStatus with
            | SynthesisSuccess => ret SynthEnd
            | SynthesisError => ret SynthError
            | SynthesisOther _ => throw SPXERR_RUNTIME_ERROR
            end ;;
  let result := with_synthesis (status, [], 0, reason) result in
  call_site (FireAdapterResult_TranslationSynthesis result).

Definition OnTurnStart (contextServiceTag : string) : Op unit :=
  bad <- IsBadState ;;
  if bad then ret tt
  else
    started <- ChangeState_usp UspState.WaitingForTurnStart UspState.WaitingForPhrase ;;
    if started then call_site (AdapterStartedTurn contextServiceTag)
    else ret tt.

Definition OnTurnEnd : Op unit :=
  singleShot <- gets m_singleShot ;;
  prepareReady <- ret (negb singleShot) &&&
                  ChangeState_audio AudioState.Sending AudioState.Ready ;;
  requestIdle <- ret singleShot &&&
                 ChangeState_audio AudioState.Sending AudioState.Stopping ;;
  bad <- IsBadState ;;
  adapterTurnStopped <-
    (if bad then ret false
     else
       ended <- (IsInteractiveMode &&&
                 ChangeState_usp UspState.WaitingForTurnEnd UspState.Idle) |||
                (not_ IsInteractiveMode &&&
                 ChangeState_usp UspState.WaitingForPhrase UspState.Idle) ;;
       if ended then ret true
       else
         late <- ChangeState_usp UspState.WaitingForIntent UspState.WaitingForIntent2 ;;
         if late then
           FireFinalResultLater_WaitingForIntentComplete "" ;;
           ChangeState_usp UspState.WaitingForIntent2 UspState.Idle ;;
           ret true
         else ret false) ;;
  ready <- ret prepareReady &&& not_ IsBadState ;;
  when ready PrepareAudioReadyState ;;
  when adapterTurnStopped (call_site AdapterStoppedTurn) ;;
  when requestIdle
    (UspWrite_Flush ;;
     call_site AdapterRequestingAudioIdle).

Definition OnError (error : string) : Op unit :=
  bad <- IsBadState ;;
  if bad then ret tt
  else
    reset <- ShouldResetAfterError &&& ChangeState_to AudioState.Ready UspState.Idle ;;
    if reset then
      call_site (SiteError error) ;;
      ResetAfterError
    else
      failed <- ChangeState_to_usp UspState.Error ;;
      if failed then call_site (SiteError error)
      else ret tt.

Definition OnUserMessage (path contentType : string) (buffer : string) (size : Z) : Op unit :=
  if String.eqb path "response" then
    waiting <- IsState_usp UspState.WaitingForIntent ;;
    if waiting then
      let luisJson := String.substring 0 (Z.to_nat size) buffer in
      FireFinalResultLater_WaitingForIntentComplete luisJson
    else ret tt
  else ret tt.

(** ** Stimuli *)

(** Everything that can reach the adapter: the five operations of the site
    and the events of the service session. *)
Inductive Stimulus :=
| init
| term
| set_mode (singleShot : bool)
| set_format (pformat : option WAVEFORMATEX)
| process_audio (data : list uint8) (size : Z)
| speech_start_detected (offset : Z)
| speech_end_detected (offset : Z)
| speech_hypothesis (message : SpeechTextMsg)
| speech_fragment (message : SpeechTextMsg)
| speech_phrase (message : SpeechPhraseMsg)
| translation_hypothesis (message : TranslationMsg)
| translation_phrase (message : TranslationMsg)
| translation_synthesis (audioBuffer : list uint8) (audioLength : Z)
| translation_synthesis_end (status : SynthesisStatus) (reason : string)
| turn_start (tag : string)
| turn_end
| error (message : string)
| user_message (path contentType buffer : string) (size : Z).

Definition handle (s : Stimulus) : Op unit :=
  match s with
  | init => Init
  | term => Term
  | set_mode singleShot => SetAdapterMode singleShot
  | set_format pformat => SetFormat pformat
  | process_audio data size => ProcessAudio data size
  | speech_start_detected offset => OnSpeechStartDetected offset
  | speech_end_detected offset => OnSpeechEndDetected offset
  | speech_hypothesis message => OnSpeechHypothesis message
  | speech_fragment message => OnSpeechFragment message
  | speech_phrase message => OnSpeechPhrase message
  | translation_hypothesis message => OnTranslationHypothesis message
  | translation_phrase message => OnTranslationPhrase message
  | translation_synthesis audioBuffer audioLength => OnTranslationSynthesis audioBuffer audioLength
  | translation_synthesis_end status reason => OnTranslationSynthesisEnd status reason
  | turn_start tag => OnTurnStart tag
  | turn_end => OnTurnEnd
  | error message => OnError message
  | user_message path contentType buffer size => OnUserMessage path contentType buffer size
  end.

(** A run: the stimuli handled one after the other.  An exception leaves
    the handler that raised it and the next stimulus finds the state it
    left; a handler that does not return ends the run. *)
Fixpoint run (l : list Stimulus) (a : Adapter) : Adapter :=
  match l with
  | [] => a
  | s :: l' =>
      match handle s a with
      | (Done _, a') | (Thrown _, a') => run l' a'
      | (_, a') => a'
      end
  end.

(** ** Example surroundings *)

Definition example_properties : NamedProperties :=
  {| SPEECH_Endpoint := ""; SPEECH_ModelId := ""; SPEECH_RecoMode := "";
     SPEECH_RecoLanguage := None; SPEECH_SubscriptionKey := "key";
     SPEECH_AuthToken := ""; SPEECH_RpsToken := "";
     TRANSLATION_FromLanguage := ""; TRANSLATION_ToLanguages := "";
     TRANSLATION_Voice := "";
     USP_NoDGI := false; USP_NoIntentJson := false; USP_ResetAfterError := false |}.

Definition example_intent : IntentInfo :=
  {| intent_provider := "p"; intent_id := "i"; intent_key := "k" |}.

Definition example_site : Site :=
  {| GetListenForList := ["hello"; "{a:b}"];
     GetIntentInfo := example_intent;
     properties := example_properties |}.

(** PCM, 16 kHz, 16 bits, one channel. *)
Definition pcm16k : WAVEFORMATEX :=
  {| wFormatTag := 1; nChannels := 1; nSamplesPerSec := 16000;
     nAvgBytesPerSec := 32000; nBlockAlign := 2; wBitsPerSample := 16;
     cbSize := 0; extra := [] |}.

Definition example_phrase : SpeechPhraseMsg :=
  {| phrase_recognitionStatus := Success; phrase_displayText := "play music";
     phrase_offset := 5; phrase_duration := 7; phrase_json := "{}" |}.

(** An adapter with buffering on and a preferred frame of one millisecond
    (32 bytes of [pcm16k]). *)
Definition example_adapter : Adapter := new_adapter true 1 LittleEndian example_site.

(** ** Vocabulary of the statements *)

(** The precondition of the transition primitive, as a proposition. *)
Definition transition_allowed (a : Adapter) (fromAudioState : AudioState.t)
    (fromUspState : UspState.t) (toUspState : UspState.t) : Prop :=
  state_pair a = (fromAudioState, fromUspState) /\
  ((fromUspState <> UspState.Error /\ fromUspState <> UspState.Zombie /\
    fromUspState <> UspState.Terminating) \/
   fromUspState = toUspState \/
   (fromUspState = UspState.Error /\ toUspState = UspState.Terminating) \/
   (fromUspState = UspState.Terminating /\ toUspState = UspState.Zombie)).

(** The adapter with the pair replaced and every other member as it was. *)
Definition committed (toAudioState : AudioState.t) (toUspState : UspState.t)
    (a : Adapter) : Adapter :=
  set_m_uspState toUspState (set_m_audioState toAudioState a).

(** The bad-state predicate as a function of the adapter. *)
Definition in_bad_state (a : Adapter) : bool :=
  match m_uspState a with
  | UspState.Error | UspState.Terminating | UspState.Zombie => true
  | _ => false
  end.

Definition site_calls (l : list Event) : list SiteCall :=
  flat_map (fun e => match e with ToSite c => [c] | ToUsp _ => [] end) l.

Definition usp_calls (l : list Event) : list UspCall :=
  flat_map (fun e => match e with ToUsp c => [c] | ToSite _ => [] end) l.

(** The final results the site has been handed, oldest first. *)
Definition final_results (a : Adapter) : list (Z * RecoResult) :=
  flat_map (fun c => match c with
                     | FireAdapterResult_FinalResult offset result => [(offset, result)]
                     | _ => []
                     end)
           (site_calls (events a)).

(** A single-shot turn up to the phrase: the adapter is left waiting for the
    intent of [example_phrase]. *)
Definition turn_to_phrase : list Stimulus :=
  [set_mode true; set_format (Some pcm16k); process_audio [1; 2; 3] 3;
   turn_start "svc1"; speech_phrase example_phrase].

Definition waiting_for_intent : Adapter := run turn_to_phrase example_adapter.

Definition luis_response : Stimulus :=
  user_message "response" "application/json" "{luis}" 6.

(** The result that carries [example_phrase] and the intent payload. *)
Definition phrase_result_with_luis : RecoResult :=
  with_luis_json "{luis}" (with_json "{}" (CreateFinalResult "play music" Speech)).

(** The result built from the emptied slot. *)
Definition empty_slot_result : RecoResult :=
  with_json "" (CreateFinalResult "" Speech).

(** [term] called while audio is being sent in a single-shot turn. *)
Definition terminated_while_sending : Adapter :=
  run [set_mode true; set_format (Some pcm16k); process_audio [1; 2; 3] 3;
       turn_start "svc1"; term] example_adapter.

(** A transport error in the middle of a single-shot turn, with no reset
    configured: audio is being sent and the protocol state is Error. *)
Definition failed_while_sending : Adapter :=
  run [set_mode true; set_format (Some pcm16k); process_audio [1; 2; 3] 3;
       turn_start "svc1"; error "connection lost"] example_adapter.

(** The calls by which audio and messages are sent on a session. *)
Definition is_upload (e : Event) : Prop :=
  match e with
  | ToUsp (SendMessage _ _) | ToUsp (WriteAudio _) | ToUsp FlushAudio => True
  | _ => False
  end.

(** [a'] differs from [a] by uploading only: the calls made since are
    uploads, and apart from the frame buffer, the preferred frame size and
    the intent expectation every member is as it was. *)
Record uploaded (a a' : Adapter) : Prop := {
  same_pair : state_pair a' = state_pair a;
  same_handle : m_handle a' = m_handle a;
  same_format : m_format a' = m_format a;
  same_slot : m_finalResultMessageToFireLater a' = m_finalResultMessageToFireLater a;
  same_singleShot : m_singleShot a' = m_singleShot a;
  same_recoMode : m_recoMode a' = m_recoMode a;
  same_site : site a' = site a;
  more_events : exists l, events a' = events a ++ l /\ Forall is_upload l
}.

(** A computation keeps a relation between the adapter it is given and the
    adapter it leaves, whatever its outcome. *)
Definition preserves (R : Adapter -> Adapter -> Prop) {A} (c : Op A) : Prop :=
  forall a, R a (snd (c a)).

(** The sessions opened, oldest first. *)
Definition connections (l : list Event) : list Client :=
  flat_map (fun e => match e with ToUsp (Connect c) => [c] | _ => [] end) l.

(** C5 as the spec words it: a format set in (Idle, Idle) is stored, the
    audio side becomes Ready, and the session stays unopened. *)
Definition set_format_leaves_session_unopened (fmt : WAVEFORMATEX) (a : Adapter) : Prop :=
  state_pair a = (AudioState.Idle, UspState.Idle) ->
  m_handle a = None ->
  m_format (exec (SetFormat (Some fmt)) a) = Some fmt /\
  m_audioState (exec (SetFormat (Some fmt)) a) = AudioState.Ready /\
  m_handle (exec (SetFormat (Some fmt)) a) = None /\
  usp_calls (events (exec (SetFormat (Some fmt)) a)) = usp_calls (events a).

(** No session is opened or dropped between [a] and [a']. *)
Definition session_kept (a a' : Adapter) : Prop :=
  m_handle a' = m_handle a /\ connections (events a') = connections (events a).

(** What the three configuration steps may change. *)
Definition configured (mode : RecognitionMode) (custom : bool) (a : Adapter) : Adapter :=
  set_m_recoMode mode (set_m_customEndpoint custom a).

(** The number of bytes after the structure that the descriptor announces. *)
Definition extra_bytes (f : WAVEFORMATEX) : Z := wrap16 (cbSize f).

(** The prelude as the spec lays it out, byte by byte: RIFF, a zero size,
    WAVE, fmt and the size of the format chunk with its low byte first, the
    format bytes, data, a zero size. *)
Definition prelude_layout (f : WAVEFORMATEX) : list uint8 :=
  [82; 73; 70; 70] ++ [0; 0; 0; 0] ++
  [87; 65; 86; 69] ++
  [102; 109; 116; 32] ++
  [(14 + extra_bytes f) mod 256; (14 + extra_bytes f) / 256 mod 256;
   (14 + extra_bytes f) / 256 / 256 mod 256;
   (14 + extra_bytes f) / 256 / 256 / 256 mod 256] ++
  firstn (Z.to_nat (14 + extra_bytes f)) (format_memory LittleEndian f) ++
  [100; 97; 116; 97] ++ [0; 0; 0; 0].

(** A descriptor with six bytes after the structure. *)
Definition extensible_format : WAVEFORMATEX :=
  {| wFormatTag := 65534; nChannels := 2; nSamplesPerSec := 44100;
     nAvgBytesPerSec := 176400; nBlockAlign := 4; wBitsPerSample := 16;
     cbSize := 6; extra := [16; 0; 3; 0; 0; 0] |}.

(** *** Shapes of the payloads *)

(** [wrap] applied to each element, a comma before each. *)
Fixpoint sep_all (wrap : string -> string) (l : list string) : string :=
  match l with
  | [] => ""
  | x :: l' => "," +++ wrap x +++ sep_all wrap l'
  end.

(** [wrap] applied to each element, a comma between two. *)
Definition join (wrap : string -> string) (l : list string) : string :=
  match l with
  | [] => ""
  | x :: l' => wrap x +++ sep_all wrap l'
  end.

Definition groups_open : string :=
  dq +++ "Groups" +++ dq +++ ": [" +++ "{" +++ dq +++ "Type" +++ dq +++ ":" +++ dq +++
  "Generic" +++ dq +++ "," +++ dq +++ "Items" +++ dq +++ ":[".

Definition grammars_open : string := dq +++ "ReferenceGrammars" +++ dq +++ ": [".

(** The reference grammars and the generic items of a listen-for list. *)
Definition grammars_of (listenForList : list string) : list string :=
  map reference_of (filter is_reference_grammar listenForList).

Definition items_of (listenForList : list string) : list string :=
  filter (fun s => negb (is_reference_grammar s)) listenForList.

(** The dgi object written out by cases. *)
Definition dgi_payload (items grammars : list string) : string :=
  match items, grammars with
  | [], [] => ""
  | _ :: _, [] => "{" +++ groups_open +++ join text_item items +++ "]}]" +++ "}"
  | [], _ :: _ => "{" +++ grammars_open +++ join quoted grammars +++ "]" +++ "}"
  | _ :: _, _ :: _ =>
      "{" +++ groups_open +++ join text_item items +++ "]}]" +++
      "," +++ grammars_open +++ join quoted grammars +++ "]" +++ "}"
  end.

(** The intent object. *)
Definition intent_payload (provider id key : string) : string :=
  "{" +++ dq +++ "provider" +++ dq +++ ":" +++ dq +++ provider +++ dq +++ "," +++
  dq +++ "id" +++ dq +++ ":" +++ dq +++ id +++ dq +++ "," +++
  dq +++ "key" +++ dq +++ ":" +++ dq +++ key +++ dq +++ "}".

Definition dgi_key : string := dq +++ "dgi" +++ dq +++ ":".
Definition intent_key_ : string := dq +++ "intent" +++ dq +++ ":".

(** The context object written out by cases. *)
Definition context_payload (dgiJson intentJson : string) : string :=
  match string_empty dgiJson, string_empty intentJson with
  | true, true => ""
  | false, true => "{" +++ dgi_key +++ dgiJson +++ "}"
  | true, false => "{" +++ intent_key_ +++ intentJson +++ "}"
  | false, false => "{" +++ dgi_key +++ dgiJson +++ "," +++ intent_key_ +++ intentJson +++ "}"
  end.

(** *** Branches of the context message *)

(** The message ends with the intent member built from the triple. *)
Definition has_intent_branch (info : IntentInfo) (contextJson : string) : Prop :=
  exists before,
    contextJson =
    before +++ intent_key_ +++
    intent_payload (intent_provider info) (intent_id info) (intent_key info) +++ "}".

(** The message begins with the dgi member. *)
Definition has_dgi_branch (contextJson : string) : Prop :=
  exists rest, contextJson = "{" +++ dgi_key +++ rest.

Definition intent_complete (info : IntentInfo) (props : NamedProperties) : bool :=
  negb (string_empty (intent_provider info)) && negb (string_empty (intent_id info)) &&
  negb (string_empty (intent_key info)) && negb (USP_NoIntentJson props).

(** The first audio of a turn has just been accepted. *)
Definition turn_opening : Adapter :=
  committed AudioState.Sending UspState.WaitingForTurnStart
            (run [set_format (Some pcm16k)] example_adapter).

(** The payloads of the audio writes made on the session, oldest first. *)
Definition audio_writes (l : list Event) : list (list uint8) :=
  flat_map (fun e => match e with ToUsp (WriteAudio bytes) => [bytes] | _ => [] end) l.

(** 2 kHz, 16 bits, one channel: with one preferred millisecond the frame
    is four bytes long. *)
Definition tiny_format : WAVEFORMATEX :=
  {| wFormatTag := 1; nChannels := 1; nSamplesPerSec := 2000;
     nAvgBytesPerSec := 4000; nBlockAlign := 2; wBitsPerSample := 16;
     cbSize := 0; extra := [] |}.

(** Six bytes written in one call, then a flush. *)
Definition six_bytes_then_flush : list Stimulus :=
  [set_format (Some tiny_format); process_audio [1; 2; 3; 4; 5; 6] 6; process_audio [] 0].

(** *** Reading the context back *)

Definition dq_char : ascii := "034"%char.

(** A string with no double quote in it. *)
Definition plain (s : string) : Prop := contains_char dq_char s = false.

(** The payload of the speech.context message for a listen-for list and an
    intent triple. *)
Definition speech_context (props : NamedProperties) (listenForList : list string)
    (info : IntentInfo) : string :=
  GetSpeechContextJson
    (GetDgiJsonFromListenForList props listenForList)
    (GetLanguageUnderstandingJsonFromIntentInfo props
       (intent_provider info) (intent_id info) (intent_key info)).

(** C9 as the spec words it: some reader of the payload gives back the
    reference grammars, the generic items and the intent triple. *)
Definition reads_back (props : NamedProperties)
    (parse : string -> (list string * list string) * IntentInfo) : Prop :=
  forall listenForList info,
    parse (speech_context props listenForList info) = (sort_listen_for listenForList, info).

(** The inputs that their payload determines: no string holds a double
    quote, and the triple is given in full or not at all. *)
Definition readable (listenForList : list string) (info : IntentInfo) : Prop :=
  Forall plain listenForList /\
  plain (intent_provider info) /\ plain (intent_id info) /\ plain (intent_key info) /\
  ((intent_provider info <> "" /\ intent_id info <> "" /\ intent_key info <> "") \/
   (intent_provider info = "" /\ intent_id info = "" /\ intent_key info = "")).

(** The classification of a listen-for entry, in words of the string. *)
Definition looks_like_reference (s : string) : Prop :=
  (3 < String.length s)%nat /\
  String.get 0 s = Some "{"%char /\
  String.get (String.length s - 1) s = Some "}"%char /\
  exists n, String.get n s = Some ":"%char.

(** One generic item that holds quotes and reads as two. *)
Definition crafted_item : string :=
  "a" +++ dq +++ "},{" +++ dq +++ "Text" +++ dq +++ ":" +++ dq +++ "b".

Definition partial_intent : IntentInfo :=
  {| intent_provider := "p"; intent_id := ""; intent_key := "k" |}.

Definition no_intent : IntentInfo :=
  {| intent_provider := ""; intent_id := ""; intent_key := "" |}.

Definition text_open : string := "{" +++ dq +++ "Text" +++ dq +++ ":" +++ dq.

(** The result that carries [example_phrase] and no intent payload. *)
Definition phrase_result_without_luis : RecoResult :=
  with_json "{}" (CreateFinalResult "play music" Speech).

(** *** A reader of the context message *)

(** The sources build the message and never read it: the service does.  The
    reader below is the statement's own.  It follows the grammar of JSON
    for what the builder writes: spaces between tokens are skipped, a
    string runs to its closing quote with its two-character escapes
    decoded, and the members are taken in the order in which the builder
    writes them. *)

(** A character that a JSON string holds as it is: neither the double
    quote nor the backslash nor a control character.  The strings of the
    model are byte strings; a byte above the ASCII range is part of a
    UTF-8 sequence, which JSON holds as it is. *)
Definition unescaped (c : ascii) : bool :=
  negb (Ascii.eqb c dq_char) && negb (Ascii.eqb c "092"%char) &&
  (32 <=? nat_of_ascii c)%nat.

(** A string that is written between quotes as it is. *)
Fixpoint verbatim (s : string) : bool :=
  match s with
  | EmptyString => true
  | String c s' => unescaped c && verbatim s'
  end.

(** The inputs whose payload is JSON that spells them out: every string is
    written as it is, and the triple is given in full or not at all. *)
Definition spelled_out (listenForList : list string) (info : IntentInfo) : Prop :=
  Forall (fun s => verbatim s = true) listenForList /\
  verbatim (intent_provider info) = true /\
  verbatim (intent_id info) = true /\
  verbatim (intent_key info) = true /\
  ((intent_provider info <> "" /\ intent_id info <> "" /\ intent_key info <> "") \/
   (intent_provider info = "" /\ intent_id info = "" /\ intent_key info = "")).

Notation "'let?' x ':=' c 'in' k" :=
  (match c with Some x => k | None => None end)
  (at level 10, x pattern, c at level 100, k at level 200, only parsing).

Definition is_space (c : ascii) : bool :=
  Ascii.eqb c " "%char || Ascii.eqb c "009"%char || Ascii.eqb c "010"%char ||
  Ascii.eqb c "013"%char.

Fixpoint skip_spaces (s : string) : string :=
  match s with
  | String c s' => if is_space c then skip_spaces s' else s
  | EmptyString => s
  end.

(** The next character that is no space is [c]: what follows it. *)
Definition expect (c : ascii) (s : string) : option string :=
  match skip_spaces s with
  | String x s' => if Ascii.eqb x c then Some s' else None
  | EmptyString => None
  end.

(** The character an escape stands for; the escape by code point is not
    decoded. *)
Definition unescape (c : ascii) : option ascii :=
  if Ascii.eqb c dq_char then Some dq_char
  else if Ascii.eqb c "092"%char then Some "092"%char
  else if Ascii.eqb c "/"%char then Some "/"%char
  else if Ascii.eqb c "b"%char then Some "008"%char
  else if Ascii.eqb c "f"%char then Some "012"%char
  else if Ascii.eqb c "n"%char then Some "010"%char
  else if Ascii.eqb c "r"%char then Some "013"%char
  else if Ascii.eqb c "t"%char then Some "009"%char
  else None.

(** The characters of a JSON string up to its closing quote, escapes
    decoded, and what follows the quote.  A control character ends the
    reading with nothing. *)
Fixpoint read_chars (s : string) : option (string * string) :=
  match s with
  | EmptyString => None
  | String c s' =>
      if Ascii.eqb c dq_char then Some (EmptyString, s')
      else if Ascii.eqb c "092"%char then
        match s' with
        | String d s'' =>
            let? e := unescape d in
            let? (text, rest) := read_chars s'' in
            Some (String e text, rest)
        | EmptyString => None
        end
      else if (32 <=? nat_of_ascii c)%nat
      then let? (text, rest) := read_chars s' in Some (String c text, rest)
      else None
  end.

Definition read_string (s : string) : option (string * string) :=
  let? s := expect dq_char s in read_chars s.

(** The member named [name] comes next: what follows its colon. *)
Definition read_member (name : string) (s : string) : option string :=
  let? (key, s) := read_string s in
  if String.eqb key name then expect ":" s else None.

(** The elements of an array after its first one, up to the closing
    bracket. *)
Fixpoint read_rest (read_one : string -> option (string * string)) (fuel : nat) (s : string)
    : option (list string * string) :=
  match fuel with
  | O => None
  | S fuel' =>
      match expect "]" s with
      | Some s => Some ([], s)
      | None =>
          let? s := expect "," s in
          let? (x, s) := read_one s in
          let? (l, s) := read_rest read_one fuel' s in
          Some (x :: l, s)
      end
  end.

Definition read_array (read_one : string -> option (string * string)) (s : string)
    : option (list string * string) :=
  let? s := expect "[" s in
  match expect "]" s with
  | Some s => Some ([], s)
  | None =>
      let? (x, s) := read_one s in
      let? (l, s) := read_rest read_one (String.length s) s in
      Some (x :: l, s)
  end.

Definition read_text_item (s : string) : option (string * string) :=
  let? s := expect "{" s in
  let? s := read_member "Text" s in
  let? (text, s) := read_string s in
  let? s := expect "}" s in
  Some (text, s).

(** The one group of generic items. *)
Definition read_groups (s : string) : option (list string * string) :=
  let? s := read_member "Groups" s in
  let? s := expect "[" s in
  let? s := expect "{" s in
  let? s := read_member "Type" s in
  let? (type, s) := read_string s in
  if negb (String.eqb type "Generic") then None
  else
    let? s := expect "," s in
    let? s := read_member "Items" s in
    let? (items, s) := read_array read_text_item s in
    let? s := expect "}" s in
    let? s := expect "]" s in
    Some (items, s).

Definition read_grammars (s : string) : option (list string * string) :=
  let? s := read_member "ReferenceGrammars" s in
  read_array read_string s.

(** The dgi object: the reference grammars and the generic items. *)
Definition read_dgi (s : string) : option ((list string * list string) * string) :=
  let? s := expect "{" s in
  match read_groups s with
  | Some (items, s) =>
      match expect "," s with
      | Some s =>
          let? (grammars, s) := read_grammars s in
          let? s := expect "}" s in
          Some ((grammars, items), s)
      | None =>
          let? s := expect "}" s in
          Some (([], items), s)
      end
  | None =>
      let? (grammars, s) := read_grammars s in
      let? s := expect "}" s in
      Some ((grammars, []), s)
  end.

Definition read_intent (s : string) : option (IntentInfo * string) :=
  let? s := expect "{" s in
  let? s := read_member "provider" s in
  let? (provider, s) := read_string s in
  let? s := expect "," s in
  let? s := read_member "id" s in
  let? (id, s) := read_string s in
  let? s := expect "," s in
  let? s := read_member "key" s in
  let? (key, s) := read_string s in
  let? s := expect "}" s in
  Some ({| intent_provider := provider; intent_id := id; intent_key := key |}, s).

(** Nothing but spaces is left. *)
Definition at_end (s : string) : bool := string_empty (skip_spaces s).

(** The context message read as JSON, members in the order in which the
    builder writes them: the reference grammars and the generic items of
    its dgi member and the triple of its intent member.  A member that is
    not there stands for empty lists or an empty triple, and so does the
    empty payload, for which no message is sent. *)
Definition read_speech_context (payload : string)
    : option ((list string * list string) * IntentInfo) :=
  if string_empty payload then Some (([], []), no_intent)
  else
    let? s := expect "{" payload in
    match read_member "dgi" s with
    | Some s =>
        let? (lists, s) := read_dgi s in
        match expect "," s with
        | Some s =>
            let? s := read_member "intent" s in
            let? (info, s) := read_intent s in
            let? s := expect "}" s in
            if at_end s then Some (lists, info) else None
        | None =>
            let? s := expect "}" s in
            if at_end s then Some (lists, no_intent) else None
        end
    | None =>
        let? s := read_member "intent" s in
        let? (info, s) := read_intent s in
        let? s := expect "}" s in
        if at_end s then Some (([], []), info) else None
    end.

Definition backslash : string := String "092"%char EmptyString.

(** A generic item that holds two backslashes in a row. *)
Definition escaped_item : string := "a" +++ backslash +++ backslash +++ "b".

(** *** The frame buffer *)

(** The session takes what is sent on it. *)
Definition session_usable (a : Adapter) : Prop :=
  m_handle a <> None /\
  m_uspState a <> UspState.Terminating /\ m_uspState a <> UspState.Zombie.

(** The frame buffer is allocated, of the frame size, and the write pointer
    is where the bytes left begin. *)
Definition chunk_ready (a : Adapter) : Prop :=
  exists bytes,
    m_buffer a = Some bytes /\
    Z.of_nat (List.length bytes) = m_bytesInBuffer a /\
    0 < m_bytesInBuffer a < 2 ^ 64 /\
    0 <= m_bytesLeftInBuffer a <= m_bytesInBuffer a /\
    m_ptrIntoBuffer a = Some (m_bytesInBuffer a - m_bytesLeftInBuffer a).

(** The frame handed over when the buffer is full, and the buffer rewound. *)
Definition frame_sent (a : Adapter) : Adapter :=
  set_m_ptrIntoBuffer (Some 0)
    (set_m_bytesLeftInBuffer (m_bytesInBuffer a)
       (set_events
          (events a ++
           [ToUsp (WriteAudio
                     (firstn (Z.to_nat (wrap_size_t (m_bytesInBuffer a - m_bytesLeftInBuffer a)))
                             (buffer_get (m_buffer a))))])
          a)).

(** [count] bytes from the start of [buffer] copied at the write pointer. *)
Definition bytes_copied (buffer : list uint8) (count : Z) (a : Adapter) : Adapter :=
  match m_ptrIntoBuffer a, m_buffer a with
  | Some off, Some bytes =>
      set_m_bytesLeftInBuffer (m_bytesLeftInBuffer a - count)
        (set_m_ptrIntoBuffer (Some (off + count))
           (set_m_buffer (Some (memcpy bytes off buffer count)) a))
  | _, _ => a
  end.

(** The first step of a pass of the loop: a full buffer is handed over. *)
Definition after_full_frame (a : Adapter) : Adapter :=
  if (m_bytesInBuffer a >? 0) && (m_bytesLeftInBuffer a =? 0) then frame_sent a else a.

(** Audio writes, one for each frame. *)
Definition audio_events (frames : list (list uint8)) : list Event :=
  map (fun f => ToUsp (WriteAudio f)) frames.

(** Every frame has the length of the buffer. *)
Definition full_frames (a : Adapter) (frames : list (list uint8)) : Prop :=
  Forall (fun f => Z.of_nat (List.length f) = m_bytesInBuffer a) frames.

(** ** Vocabulary of the further properties *)

(** *** The end of the adapter *)

(** What [Term] leaves of the session: nothing, unless the adapter was
    already Zombie and the call was refused. *)
Definition handle_after_term (a : Adapter) : option Client :=
  if UspState.eqb (m_uspState a) UspState.Zombie then m_handle a else None.

Definition dropped_by_term (a : Adapter) : list UspCall :=
  if UspState.eqb (m_uspState a) UspState.Zombie then []
  else if non_null (m_handle a) then [DropSession] else [].

(** The adapter [Term] returns with. *)
Definition terminated (a : Adapter) : Adapter :=
  if UspState.eqb (m_uspState a) UspState.Zombie then a
  else set_m_uspState UspState.Zombie
         (set_m_handle None
            (set_events (events a ++ (if non_null (m_handle a) then [ToUsp DropSession] else []))
                        a)).

(** *** Events of the service, in and out of turn *)

(** A service event that finds the protocol state it is not meant for. *)
Definition out_of_turn (s : Stimulus) (a : Adapter) : Prop :=
  match s with
  | turn_start _ => m_uspState a <> UspState.WaitingForTurnStart
  | speech_start_detected _ | speech_hypothesis _ | translation_hypothesis _
  | speech_phrase _ | translation_phrase _ =>
      m_uspState a <> UspState.WaitingForPhrase
  | speech_fragment _ =>
      m_uspState a <> UspState.WaitingForPhrase /\ m_uspState a <> UspState.WaitingForIntent
  | user_message path _ _ _ =>
      path <> "response" \/ m_uspState a <> UspState.WaitingForIntent
  | _ => False
  end.

(** The final result [FireFinalResultNow] builds from a phrase alone. *)
Definition phrase_result (message : SpeechPhraseMsg) : RecoResult :=
  with_json (phrase_json message) (CreateFinalResult (phrase_displayText message) Speech).

(** The intermediate result [FireIntermediate] builds. *)
Definition fragment_result (message : SpeechTextMsg) : RecoResult :=
  with_json (msg_json message) (CreateIntermediateResult (msg_text message) Speech).

(** The phrase is held back until the intent arrives. *)
Definition held_for_intent (message : SpeechPhraseMsg) (a : Adapter) : bool :=
  m_expectIntentResponse a && RecognitionStatus_is_Success (phrase_recognitionStatus message).

(** The protocol state after a final result: an interactive turn waits for
    its end, the other modes for the next phrase. *)
Definition after_phrase (a : Adapter) : UspState.t :=
  match m_recoMode a with
  | Interactive => UspState.WaitingForTurnEnd
  | _ => UspState.WaitingForPhrase
  end.

(** What [OnSpeechPhrase] leaves when it finds the adapter waiting for a
    phrase. *)
Definition phrase_kept_or_fired (message : SpeechPhraseMsg) (a : Adapter) : Adapter :=
  if held_for_intent message a
  then set_m_finalResultMessageToFireLater message
         (set_m_uspState UspState.WaitingForIntent a)
  else set_events
         (events a ++
          [ToSite (FireAdapterResult_FinalResult (phrase_offset message) (phrase_result message))])
         (set_m_uspState (after_phrase a) a).

(** What the site is told of an event that comes in turn and carries no
    result of its own to decide on. *)
Definition relayed (s : Stimulus) : option SiteCall :=
  match s with
  | turn_start tag => Some (AdapterStartedTurn tag)
  | speech_start_detected offset => Some (AdapterDetectedSpeechStart offset)
  | speech_hypothesis message =>
      Some (FireAdapterResult_Intermediate (msg_offset message) (fragment_result message))
  | _ => None
  end.

(** The protocol state such an event is meant for. *)
Definition meant_for (s : Stimulus) : option UspState.t :=
  match s with
  | turn_start _ => Some UspState.WaitingForTurnStart
  | speech_start_detected _ | speech_hypothesis _ => Some UspState.WaitingForPhrase
  | _ => None
  end.

(** The protocol state such an event leaves. *)
Definition state_after (s : Stimulus) (a : Adapter) : UspState.t :=
  match s with
  | turn_start _ => UspState.WaitingForPhrase
  | _ => m_uspState a
  end.

(** The text of a translation has a status the adapter does not know. *)
Definition unknown_translation_status (message : TranslationMsg) : Prop :=
  match translationStatus (tmsg_translation message) with
  | TranslationOther _ => True
  | _ => False
  end.

(** *** The end of a turn *)

(** The states in which the end of a turn is expected. *)
Definition turn_can_end (a : Adapter) : bool :=
  match m_uspState a, m_recoMode a with
  | UspState.WaitingForTurnEnd, Interactive => true
  | UspState.WaitingForPhrase, (Conversation | Dictation) => true
  | UspState.WaitingForIntent, _ => true
  | _, _ => false
  end.

Definition is_Sending (a : Adapter) : bool := AudioState.eqb (m_audioState a) AudioState.Sending.

Definition is_WaitingForIntent (a : Adapter) : bool :=
  UspState.eqb (m_uspState a) UspState.WaitingForIntent.

(** What the site is told at the end of a turn, in order. *)
Definition turn_end_calls (a : Adapter) : list SiteCall :=
  (if is_WaitingForIntent a
   then [FireAdapterResult_FinalResult
           (phrase_offset (m_finalResultMessageToFireLater a))
           (phrase_result (m_finalResultMessageToFireLater a))]
   else []) ++
  [AdapterStoppedTurn] ++
  (if m_singleShot a && is_Sending a then [AdapterRequestingAudioIdle] else []).

Definition audio_after_turn (a : Adapter) : AudioState.t :=
  if is_Sending a
  then (if m_singleShot a then AudioState.Stopping else AudioState.Ready)
  else m_audioState a.

(** *** Stimuli in a bad state *)

(** The audio state the end of speech leaves: a single-shot turn stops
    sending. *)
Definition audio_after_speech_end (a : Adapter) : AudioState.t :=
  if m_singleShot a && is_Sending a then AudioState.Stopping else m_audioState a.

(** The request for audio idle the end of a turn makes of the site. *)
Definition idle_request_at_turn_end (a : Adapter) : list SiteCall :=
  if m_singleShot a && is_Sending a then [AdapterRequestingAudioIdle] else [].

(** What a stimulus does when it finds the adapter in a bad state.  The
    stimuli that test the predicate first return with the adapter untouched;
    [SetFormat] accepts a null format while terminating; [Term] goes on to
    Zombie; the handlers without a test leave the pair alone; the end of
    speech and the end of a turn try their audio transition before the
    test, so the audio state moves as it does in a good state, and the end
    of a turn asks for audio idle as well. *)
Definition bad_state_behaviour (s : Stimulus) (a : Adapter) : Prop :=
  match s with
  | process_audio _ _ | turn_start _ | speech_start_detected _ | speech_hypothesis _
  | speech_fragment _ | speech_phrase _ | translation_hypothesis _
  | translation_phrase _ | error _ | set_format (Some _) =>
      handle s a = (Done tt, a)
  | set_format None =>
      if UspState.eqb (m_uspState a) UspState.Terminating
      then state_pair (exec (handle s) a) = (AudioState.Idle, UspState.Terminating) /\
           events (exec (handle s) a) = events a ++ [ToSite AdapterCompletedSetFormatStop]
      else handle s a = (Done tt, a)
  | term =>
      if UspState.eqb (m_uspState a) UspState.Zombie
      then handle s a = (Done tt, a)
      else state_pair (exec (handle s) a) = (m_audioState a, UspState.Zombie)
  | init | set_mode _ | user_message _ _ _ _ | translation_synthesis _ _
  | translation_synthesis_end _ _ =>
      state_pair (exec (handle s) a) = state_pair a
  | speech_end_detected _ =>
      result_of (handle s) a = Done tt /\
      state_pair (exec (handle s) a) = (audio_after_speech_end a, m_uspState a) /\
      site_calls (events (exec (handle s) a)) = site_calls (events a)
  | turn_end =>
      result_of (handle s) a = Done tt /\
      state_pair (exec (handle s) a) = (audio_after_turn a, m_uspState a) /\
      site_calls (events (exec (handle s) a))
        = site_calls (events a) ++ idle_request_at_turn_end a
  end.

(** *** Errors of the transport *)

Definition reset_configured (a : Adapter) : bool :=
  USP_ResetAfterError (properties (site a)) && non_null (m_format a).

(** The adapter when [ResetAfterError] is about to open a new session. *)
Definition reset_pending (message : string) (a : Adapter) : Adapter :=
  set_m_servicePreferedBufferSizeSendingNow 0
    (set_m_handle None
       (set_events
          (events a ++ [ToSite (SiteError message)] ++
           (if non_null (m_handle a) then [ToUsp DropSession] else []))
          (committed AudioState.Ready UspState.Idle a))).

Definition dropped_session (a : Adapter) : list UspCall :=
  if non_null (m_handle a) then [DropSession] else [].

(** *** Bytes on their way to the session *)

(** The bytes the frame buffer holds and has not handed over. *)
Definition pending (a : Adapter) : list uint8 :=
  match m_buffer a with
  | Some bytes =>
      firstn (Z.to_nat (wrap_size_t (m_bytesInBuffer a - m_bytesLeftInBuffer a))) bytes
  | None => []
  end.

(** All the audio bytes handed to the session so far. *)
Definition bytes_sent (a : Adapter) : list uint8 := List.concat (audio_writes (events a)).

(** The number of bytes taken from the caller: handed over or pending. *)
Definition accounted (a : Adapter) : Z :=
  Z.of_nat (List.length (bytes_sent a)) + Z.of_nat (List.length (pending a)).

(** The adapter once the frame buffer has been released. *)
Definition buffer_released (a : Adapter) : Adapter :=
  set_m_bytesLeftInBuffer 0
    (set_m_ptrIntoBuffer None
       (set_m_bytesInBuffer 0
          (set_m_buffer None a))).

(** The adapter after a flush on a usable session. *)
Definition flushed (a : Adapter) : Adapter :=
  set_events (events a ++ [ToUsp (WriteAudio (pending a)); ToUsp FlushAudio])
             (buffer_released a).

(** Audio is cut into frames before it is sent. *)
Definition buffered (a : Adapter) : bool :=
  m_fUseBufferedImplementation a && negb (m_servicePreferedBufferSizeSendingNow a =? 0).

(** One audio write with the given bytes has been made. *)
Definition audio_sent (bytes : list uint8) (a : Adapter) : Adapter :=
  set_events (events a ++ [ToUsp (WriteAudio bytes)]) a.

(** The frame size in use: that of the buffer, or the preferred one when
    the buffer is still to be allocated. *)
Definition frame_length (a : Adapter) : Z :=
  match m_buffer a with
  | Some _ => m_bytesInBuffer a
  | None => m_servicePreferedBufferSizeSendingNow a
  end.

(** The buffer is ready to be written through, or will be once allocated. *)
Definition buffer_ready (a : Adapter) : Prop :=
  (m_buffer a = None /\ 0 < m_servicePreferedBufferSizeSendingNow a < 2 ^ 64) \/
  chunk_ready a.

(** The choice between the two ways of writing is as it was. *)
Definition same_settings (a a' : Adapter) : Prop :=
  m_servicePreferedBufferSizeSendingNow a' = m_servicePreferedBufferSizeSendingNow a /\
  m_fUseBufferedImplementation a' = m_fUseBufferedImplementation a.

(** *** The first audio of a turn *)

(** The context message of a turn, if the site gives anything to put in it. *)
Definition context_messages (s : Site) : list Event :=
  let contextJson := speech_context (properties s) (GetListenForList s) (GetIntentInfo s) in
  if string_empty contextJson then []
  else [ToUsp (SendMessage "speech.context" contextJson)].

(** The frame size [SendPreAudioMessages] chooses. *)
Definition frame_bytes (f : WAVEFORMATEX) (ms : Z) : Z :=
  wrap_size_t (wrap_size_t (wrap32 (nSamplesPerSec f) * wrap16 (nBlockAlign f)) *
               wrap_size_t ms) / 1000.

(** The adapter when the context message and the header have gone out. *)
Definition preamble_sent (f : WAVEFORMATEX) (a : Adapter) : Adapter :=
  set_m_servicePreferedBufferSizeSendingNow
    (frame_bytes f (m_servicePreferedMilliseconds a))
    (set_events
       (events a ++ context_messages (site a) ++ [ToUsp (WriteAudio (prelude_layout f))])
       (set_m_expectIntentResponse
          (negb (string_empty
                   (GetLanguageUnderstandingJsonFromIntentInfo (properties (site a))
                      (intent_provider (GetIntentInfo (site a)))
                      (intent_id (GetIntentInfo (site a)))
                      (intent_key (GetIntentInfo (site a))))))
          a)).

(** *** The configuration of a session *)

(** The endpoint property holds a URL of the caller's own. *)
Definition custom_url (props : NamedProperties) : bool :=
  negb (wcsicmp_equal (SPEECH_Endpoint props) "CORTANA") &&
  negb (string_empty (SPEECH_Endpoint props)).

(** The credential the properties hold, the subscription key before the
    authorization token before the RPS token. *)
Definition first_credential (props : NamedProperties) : option (AuthenticationType * string) :=
  if negb (string_empty (SPEECH_SubscriptionKey props))
  then Some (SubscriptionKey, SPEECH_SubscriptionKey props)
  else if negb (string_empty (SPEECH_AuthToken props))
  then Some (AuthorizationToken, SPEECH_AuthToken props)
  else if negb (string_empty (SPEECH_RpsToken props))
  then Some (SearchDelegationRPSToken, SPEECH_RpsToken props)
  else None.

(** A translation is asked for and no target language is given. *)
Definition missing_targets (props : NamedProperties) : bool :=
  string_empty (SPEECH_Endpoint props) &&
  negb (string_empty (TRANSLATION_FromLanguage props)) &&
  string_empty (TRANSLATION_ToLanguages props).

(** The recognition mode property is set, and to none of the three modes. *)
Definition unknown_mode (props : NamedProperties) : bool :=
  negb (string_empty (SPEECH_RecoMode props)) &&
  negb (wcsicmp_equal (SPEECH_RecoMode props) SPEECH_RecoMode_Interactive) &&
  negb (wcsicmp_equal (SPEECH_RecoMode props) SPEECH_RecoMode_Conversation) &&
  negb (wcsicmp_equal (SPEECH_RecoMode props) SPEECH_RecoMode_Dictation).

Definition no_credential (props : NamedProperties) : bool :=
  string_empty (SPEECH_SubscriptionKey props) &&
  string_empty (SPEECH_AuthToken props) &&
  string_empty (SPEECH_RpsToken props).

(** The properties with which no session can be opened. *)
Definition rejected (props : NamedProperties) : bool :=
  missing_targets props || unknown_mode props || no_credential props.

(** *** More example surroundings *)

(** The format has been set and the session opened; no audio yet. *)
Definition format_set : Adapter := run [set_format (Some pcm16k)] example_adapter.

(** A single-shot turn that has started: three bytes are in the frame
    buffer and the service has announced the turn. *)
Definition in_phrase : Adapter :=
  run [set_mode true; set_format (Some pcm16k); process_audio [1; 2; 3] 3; turn_start "svc1"]
      example_adapter.

Definition example_hypothesis : SpeechTextMsg :=
  {| msg_text := "play"; msg_offset := 2; msg_duration := 3; msg_json := "{}" |}.

(** A translation whose status is neither success nor error. *)
Definition odd_translation : TranslationMsg :=
  {| tmsg_recognitionStatus := Success; tmsg_text := "bonjour"; tmsg_offset := 1;
     tmsg_duration := 2; tmsg_json := "{}";
     tmsg_translation := {| translationStatus := TranslationOther 7;
                            translations := []; failureReason := "" |} |}.

(** A site that asks for a reset after an error. *)
Definition resetting_site : Site :=
  {| GetListenForList := [];
     GetIntentInfo := {| intent_provider := ""; intent_id := ""; intent_key := "" |};
     properties :=
       {| SPEECH_Endpoint := ""; SPEECH_ModelId := ""; SPEECH_RecoMode := "";
          SPEECH_RecoLanguage := None; SPEECH_SubscriptionKey := "key";
          SPEECH_AuthToken := ""; SPEECH_RpsToken := "";
          TRANSLATION_FromLanguage := ""; TRANSLATION_ToLanguages := "";
          TRANSLATION_Voice := "";
          USP_NoDGI := false; USP_NoIntentJson := false; USP_ResetAfterError := true |} |}.

Definition resetting_adapter : Adapter :=
  run [set_format (Some pcm16k)] (new_adapter true 1 LittleEndian resetting_site).

(** A site with a URL of its own, a translation and a model that the URL
    overrides, and a token for a credential. *)
Definition custom_site : Site :=
  {| GetListenForList := [];
     GetIntentInfo := {| intent_provider := ""; intent_id := ""; intent_key := "" |};
     properties :=
       {| SPEECH_Endpoint := "wss://example.test/speech/dictation/v1";
          SPEECH_ModelId := "model"; SPEECH_RecoMode := "";
          SPEECH_RecoLanguage := Some "en-us"; SPEECH_SubscriptionKey := "";
          SPEECH_AuthToken := "token"; SPEECH_RpsToken := "rps";
          TRANSLATION_FromLanguage := "en"; TRANSLATION_ToLanguages := "";
          TRANSLATION_Voice := "";
          USP_NoDGI := false; USP_NoIntentJson := false; USP_ResetAfterError := false |} |}.

Definition custom_adapter : Adapter := new_adapter false 0 LittleEndian custom_site.

(** A site that holds no credential at all. *)
Definition anonymous_site : Site :=
  {| GetListenForList := [];
     GetIntentInfo := {| intent_provider := ""; intent_id := ""; intent_key := "" |};
     properties :=
       {| SPEECH_Endpoint := ""; SPEECH_ModelId := ""; SPEECH_RecoMode := "";
          SPEECH_RecoLanguage := None; SPEECH_SubscriptionKey := "";
          SPEECH_AuthToken := ""; SPEECH_RpsToken := "";
          TRANSLATION_FromLanguage := ""; TRANSLATION_ToLanguages := "";
          TRANSLATION_Voice := "";
          USP_NoDGI := false; USP_NoIntentJson := false; USP_ResetAfterError := false |} |}.

Definition anonymous_adapter : Adapter := new_adapter true 1 LittleEndian anonymous_site.

(** *** Translations *)

(** The status a translation with a known status is given in its result. *)
Definition text_status (message : TranslationMsg) : TranslationTextStatus :=
  match translationStatus (tmsg_translation message) with
  | TranslationSuccess => TextSuccess
  | _ => TextError
  end.

(** What a translation result carries besides its kind. *)
Definition carries (message : TranslationMsg) (r : RecoResult) : Prop :=
  result_text r = tmsg_text message /\
  result_type r = TranslationText /\
  result_json r = Some (tmsg_json message) /\
  result_translation r
    = Some (text_status message, translations (tmsg_translation message),
            failureReason (tmsg_translation message)).

Definition example_translation : TranslationMsg :=
  {| tmsg_recognitionStatus := Success; tmsg_text := "good morning"; tmsg_offset := 4;
     tmsg_duration := 6; tmsg_json := "{}";
     tmsg_translation := {| translationStatus := TranslationSuccess;
                            translations := [("fr", "bonjour")]; failureReason := "" |} |}.

(** *** Safety of the uploader *)

(** The call has come back, with a value or with an exception: it has
    neither followed a null pointer nor stayed in a loop. *)
Definition returns {A} (o : outcome A) : Prop :=
  match o with
  | Done _ | Thrown _ => True
  | Spins | Undefined => False
  end.

(** Audio is awaited or being sent. *)
Definition in_use (s : AudioState.t) : Prop :=
  s = AudioState.Ready \/ s = AudioState.Sending.

(** While audio is awaited or being sent a format is stored. *)
Definition format_kept (a : Adapter) : Prop :=
  in_use (m_audioState a) -> m_format a <> None.

(** The frame buffer is absent, or allocated with its counters and its
    write pointer in step. *)
Definition buffer_sound (a : Adapter) : Prop :=
  m_buffer a = None \/ chunk_ready a.

Definition frame_size_sound (a : Adapter) : Prop :=
  0 <= m_servicePreferedBufferSizeSendingNow a < 2 ^ 64.

Definition sound (a : Adapter) : Prop :=
  format_kept a /\ buffer_sound a /\ frame_size_sound a.

(** The computation returns and keeps the adapter sound. *)
Definition keeps {A} (c : Op A) : Prop :=
  forall a, sound a -> returns (fst (c a)) /\ sound (snd (c a)).

(** An audio call whose byte count does not exceed its data. *)
Definition audio_within_data (s : Stimulus) : Prop :=
  match s with
  | process_audio data size => 0 <= size <= Z.of_nat (List.length data)
  | _ => False
  end.

(** Audio that does not open a turn: what [ProcessAudio] comes to. *)
Definition later_audio (data : list uint8) (size : Z) : Op unit :=
  bad <- IsBadState ;;
  if bad then ret tt
  else
    sending <- ret (size >? 0) &&& IsState_audio AudioState.Sending ;;
    if sending then UspWrite data size
    else
      flushing <- ret (size =? 0) &&& IsState_audio AudioState.Sending ;;
      if flushing then UspWrite_Flush
      else ret tt.

(** Every call of the run returns and leaves the adapter sound. *)
Fixpoint safe_run (l : list Stimulus) (a : Adapter) : Prop :=
  match l with
  | [] => True
  | s :: l' =>
      returns (result_of (handle s) a) /\
      sound (exec (handle s) a) /\
      safe_run l' (exec (handle s) a)
  end.

(** A full frame handed over, if the session is there to take it, and the
    buffer rewound. *)
Definition frame_passed (a : Adapter) : Adapter :=
  if (m_bytesInBuffer a >? 0) && (m_bytesLeftInBuffer a =? 0)
  then set_m_ptrIntoBuffer (Some 0)
         (set_m_bytesLeftInBuffer (m_bytesInBuffer a)
            (exec (UspWrite_Actual (buffer_get (m_buffer a))
                                   (wrap_size_t (m_bytesInBuffer a - m_bytesLeftInBuffer a))) a))
  else a.

(** What the frame buffer has of the adapter besides its own members. *)
Definition around_buffer (a a' : Adapter) : Prop :=
  m_audioState a' = m_audioState a /\
  m_format a' = m_format a /\
  m_servicePreferedBufferSizeSendingNow a' = m_servicePreferedBufferSizeSendingNow a.

(** * Properties *)

(** ** Enumerations and the state machine *)

Lemma AudioState_eqb_spec a b : reflect (a = b) (AudioState.eqb a b).
Proof. destruct a, b; simpl; constructor; congruence. Qed.

Lemma UspState_eqb_spec a b : reflect (a = b) (UspState.eqb a b).
Proof. destruct a, b; simpl; constructor; congruence. Qed.

Lemma AudioState_eqb_refl a : AudioState.eqb a a = true.
Proof. now destruct a. Qed.

Lemma UspState_eqb_refl a : UspState.eqb a a = true.
Proof. now destruct a. Qed.

Lemma state_pair_committed ta tu a : state_pair (committed ta tu a) = (ta, tu).
Proof. reflexivity. Qed.

Lemma ChangeState_cases fa fu ta tu a :
  ChangeState fa fu ta tu a = (Done true, committed ta tu a) \/
  ChangeState fa fu ta tu a = (Done false, a).
Proof.
  unfold ChangeState.
  match goal with |- context [if ?c then _ else _] => destruct c end; auto.
Qed.

Lemma ChangeState_true_iff fa fu ta tu a :
  fst (ChangeState fa fu ta tu a) = Done true <-> transition_allowed a fa fu tu.
Proof.
  unfold ChangeState, transition_allowed, state_pair.
  destruct (AudioState_eqb_spec fa (m_audioState a)) as [Ea | Ea];
    destruct (UspState_eqb_spec fu (m_uspState a)) as [Eu | Eu]; simpl.
  - rewrite <- Ea, <- Eu.
    destruct fu, tu; simpl; split; intros H; try reflexivity; try discriminate;
      try (split; [reflexivity | ]);
      try (left; repeat split; discriminate);
      try (right; left; reflexivity);
      try (right; right; left; split; reflexivity);
      try (right; right; right; split; reflexivity);
      exfalso; destruct H as [_ [[H1 [H2 H3]] | [H | [[H1 H2] | [H1 H2]]]]]; congruence.
  - split; [discriminate | intros [H _]; congruence].
  - split; [discriminate | intros [H _]; congruence].
  - split; [discriminate | intros [H _]; congruence].
Qed.

(** C2.  [ChangeState] returns true exactly when the current pair is the
    expected one and the protocol state left is none of Error, Zombie and
    Terminating, or the protocol state stays, or the step is Error to
    Terminating or Terminating to Zombie; it then commits the new pair and
    nothing else.  Otherwise it returns false and the adapter is unchanged. *)
Theorem ChangeState_commits_iff_allowed :
  forall fromAudioState fromUspState toAudioState toUspState (a : Adapter),
    (result_of (ChangeState fromAudioState fromUspState toAudioState toUspState) a = Done true
     <-> transition_allowed a fromAudioState fromUspState toUspState) /\
    ((result_of (ChangeState fromAudioState fromUspState toAudioState toUspState) a = Done true /\
      exec (ChangeState fromAudioState fromUspState toAudioState toUspState) a
        = committed toAudioState toUspState a /\
      state_pair (exec (ChangeState fromAudioState fromUspState toAudioState toUspState) a)
        = (toAudioState, toUspState)) \/
     (result_of (ChangeState fromAudioState fromUspState toAudioState toUspState) a = Done false /\
      exec (ChangeState fromAudioState fromUspState toAudioState toUspState) a = a)).
Proof.
  intros fa fu ta tu a. split.
  - apply ChangeState_true_iff.
  - unfold result_of, exec.
    destruct (ChangeState_cases fa fu ta tu a) as [E | E]; rewrite E; simpl; auto.
Qed.

(** ** Handlers *)

Ltac unfold_ops :=
  unfold handle, Init, Term, SetAdapterMode, SetFormat, ProcessAudio,
    OnSpeechStartDetected, OnSpeechEndDetected, OnSpeechHypothesis, OnSpeechFragment,
    OnSpeechPhrase, OnTranslationHypothesis, OnTranslationPhrase, OnTranslationSynthesis,
    OnTranslationSynthesisEnd, OnTurnStart, OnTurnEnd, OnError, OnUserMessage,
    reset_handle,
    IsBadState, IsInteractiveMode, IsState_usp, IsState_audio, IsStateBetweenIncluding,
    ChangeState_usp, ChangeState_audio, ChangeState_to, ChangeState_to_usp,
    ChangeState_to_audio, ChangeState, not_, or_else, and_then, when, bind, gets, ret,
    modify, throw.

(** The adapter taken apart, its members named. *)
Ltac destruct_adapter a :=
  destruct a as [audio usp singleShot recoMode customEndpoint handle_ format_
                 expectIntent slot useBuffered preferedMs frameSize buffer_
                 bytesIn ptr bytesLeft host site_ events_].

Lemma IsBadState_in_bad_state a : IsBadState a = (Done (in_bad_state a), a).
Proof.
  destruct_adapter a. unfold in_bad_state. unfold_ops. simpl. destruct usp; reflexivity.
Qed.

(** A phrase that finds the adapter waiting for an intent changes nothing,
    whatever its status. *)
Lemma OnSpeechPhrase_while_waiting message a :
  m_uspState a = UspState.WaitingForIntent ->
  OnSpeechPhrase message a = (Done tt, a).
Proof.
  intros H. destruct_adapter a. simpl in H. subst usp.
  unfold_ops; simpl.
  destruct audio, expectIntent, (phrase_recognitionStatus message), recoMode; reflexivity.
Qed.

(** C10.  A phrase with status Success that arrives while the adapter waits
    for the intent of an earlier phrase is discarded: the handler returns
    with the state pair, the calls made so far and the pending slot as they
    were. *)
Theorem speech_phrase_discarded_while_waiting_for_intent :
  forall (message : SpeechPhraseMsg) (a : Adapter),
    m_uspState a = UspState.WaitingForIntent ->
    phrase_recognitionStatus message = Success ->
    result_of (OnSpeechPhrase message) a = Done tt /\
    state_pair (exec (OnSpeechPhrase message) a) = state_pair a /\
    events (exec (OnSpeechPhrase message) a) = events a /\
    m_finalResultMessageToFireLater (exec (OnSpeechPhrase message) a)
      = m_finalResultMessageToFireLater a.
Proof.
  intros message a H _. unfold result_of, exec.
  rewrite (OnSpeechPhrase_while_waiting message a H). repeat split.
Qed.

Lemma speech_phrase_discarded_witness :
  m_uspState waiting_for_intent = UspState.WaitingForIntent /\
  phrase_recognitionStatus example_phrase = Success /\
  (result_of (OnSpeechPhrase example_phrase) waiting_for_intent = Done tt /\
   state_pair (exec (OnSpeechPhrase example_phrase) waiting_for_intent)
     = state_pair waiting_for_intent /\
   events (exec (OnSpeechPhrase example_phrase) waiting_for_intent)
     = events waiting_for_intent /\
   m_finalResultMessageToFireLater (exec (OnSpeechPhrase example_phrase) waiting_for_intent)
     = m_finalResultMessageToFireLater waiting_for_intent).
Proof.
  split; [reflexivity | split; [reflexivity | ]].
  apply speech_phrase_discarded_while_waiting_for_intent; reflexivity.
Defined.

(** C1.  The run in which the intent response arrives before the end of the
    turn: the response fires the final result of the phrase and leaves the
    adapter in WaitingForIntent with the slot emptied; the end of the turn
    then takes the intent-never-came path and fires a second final result,
    built from the emptied slot. *)
Theorem intent_response_then_turn_end_fires_twice :
  state_pair waiting_for_intent = (AudioState.Sending, UspState.WaitingForIntent) /\
  m_finalResultMessageToFireLater waiting_for_intent = example_phrase /\
  final_results waiting_for_intent = [] /\
  final_results (run [luis_response] waiting_for_intent) = [(5, phrase_result_with_luis)] /\
  m_uspState (run [luis_response] waiting_for_intent) = UspState.WaitingForIntent /\
  final_results (run [luis_response; turn_end] waiting_for_intent)
    = [(5, phrase_result_with_luis); (0, empty_slot_result)].
Proof. repeat split. Qed.

(** C4.  After [Term] has left the adapter in Zombie with the audio side
    still Sending, the end of the turn asks the site for audio idle, and a
    synthesis message is handed to the site whatever the state. *)
Theorem callbacks_fire_after_term :
  state_pair terminated_while_sending = (AudioState.Sending, UspState.Zombie) /\
  m_handle terminated_while_sending = None /\
  site_calls (events (exec (handle turn_end) terminated_while_sending))
    = site_calls (events terminated_while_sending) ++ [AdapterRequestingAudioIdle] /\
  site_calls (events (exec (handle (translation_synthesis [] 0)) terminated_while_sending))
    = site_calls (events terminated_while_sending) ++
      [FireAdapterResult_TranslationSynthesis
         (with_synthesis (SynthSuccess, [], 0, "") (CreateFinalResult "" TranslationSynthesis))].
Proof. repeat split. Qed.

(** ** Frame rules *)

Section Frame.
Variable R : Adapter -> Adapter -> Prop.
Hypothesis R_refl : forall a, R a a.
Hypothesis R_trans : forall a b c, R a b -> R b c -> R a c.

Lemma preserves_ret {A} (x : A) : preserves R (ret x).
Proof. intros a. apply R_refl. Qed.

Lemma preserves_gets {A} (f : Adapter -> A) : preserves R (gets f).
Proof. intros a. apply R_refl. Qed.

Lemma preserves_throw {A} hr : preserves R (@throw A hr).
Proof. intros a. apply R_refl. Qed.

Lemma preserves_spin {A} : preserves R (@spin A).
Proof. intros a. apply R_refl. Qed.

Lemma preserves_undefined {A} : preserves R (@undefined A).
Proof. intros a. apply R_refl. Qed.

Lemma preserves_bind {A B} (c : Op A) (k : A -> Op B) :
  preserves R c -> (forall x, preserves R (k x)) -> preserves R (bind c k).
Proof.
  intros Hc Hk a. unfold bind. specialize (Hc a).
  destruct (c a) as [[x | hr | | ] a']; simpl in *; auto.
  eapply R_trans; [exact Hc | apply Hk].
Qed.

Lemma preserves_when (b : bool) (c : Op unit) :
  preserves R c -> preserves R (when b c).
Proof. intros H. destruct b; simpl; [exact H | apply preserves_ret]. Qed.

Lemma preserves_and_then (c1 c2 : Op bool) :
  preserves R c1 -> preserves R c2 -> preserves R (c1 &&& c2).
Proof.
  intros H1 H2. apply preserves_bind; [exact H1 | ].
  intros [ | ]; [exact H2 | apply preserves_ret].
Qed.

Lemma preserves_or_else (c1 c2 : Op bool) :
  preserves R c1 -> preserves R c2 -> preserves R (c1 ||| c2).
Proof.
  intros H1 H2. apply preserves_bind; [exact H1 | ].
  intros [ | ]; [apply preserves_ret | exact H2].
Qed.

Lemma preserves_not (c : Op bool) : preserves R c -> preserves R (not_ c).
Proof. intros H. apply preserves_bind; [exact H | intros b; apply preserves_ret]. Qed.

Lemma preserves_IsState_usp s : preserves R (IsState_usp s).
Proof. apply preserves_gets. Qed.

Lemma preserves_IsState_audio s : preserves R (IsState_audio s).
Proof. apply preserves_gets. Qed.

Lemma preserves_IsBadState : preserves R IsBadState.
Proof.
  unfold IsBadState. repeat apply preserves_or_else; apply preserves_IsState_usp.
Qed.

Lemma preserves_modify (f : Adapter -> Adapter) :
  (forall a, R a (f a)) -> preserves R (modify f).
Proof. intros H a. apply H. Qed.
End Frame.

(** ** The uploader only uploads *)

Lemma uploaded_refl a : uploaded a a.
Proof.
  constructor; try reflexivity. exists []. split; [now rewrite app_nil_r | constructor].
Qed.

Lemma uploaded_trans a b c : uploaded a b -> uploaded b c -> uploaded a c.
Proof.
  intros [p1 h1 f1 s1 m1 r1 t1 [l1 [e1 u1]]] [p2 h2 f2 s2 m2 r2 t2 [l2 [e2 u2]]].
  constructor; try congruence.
  exists (l1 ++ l2). split.
  - rewrite e2, e1, app_assoc. reflexivity.
  - apply Forall_app. split; assumption.
Qed.

Lemma uploaded_emit e : is_upload e -> preserves uploaded (emit e).
Proof.
  intros H a. destruct_adapter a. constructor; try reflexivity.
  exists [e]. split; [reflexivity | repeat constructor; exact H].
Qed.

(** One step through a computation, for a relation with the given proofs of
    reflexivity and transitivity. *)
Ltac frame_step_with refl trans :=
  lazymatch goal with
  | |- preserves _ (bind _ _) => apply preserves_bind; [ exact trans | | intros ? ]
  | |- preserves _ (when _ _) => apply preserves_when; [ exact refl | ]
  | |- preserves _ (gets _) => apply preserves_gets; exact refl
  | |- preserves _ (ret _) => apply preserves_ret; exact refl
  | |- preserves _ (IsState_usp _) => apply preserves_IsState_usp; exact refl
  | |- preserves _ (IsState_audio _) => apply preserves_IsState_audio; exact refl
  | |- preserves _ undefined => apply preserves_undefined; exact refl
  | |- preserves _ spin => apply preserves_spin; exact refl
  | |- preserves _ (throw _) => apply preserves_throw; exact refl
  end.

Ltac frame_step := frame_step_with uploaded_refl uploaded_trans.

Ltac uploaded_field :=
  apply preserves_modify; intros a; destruct_adapter a;
  constructor; try reflexivity; exists []; split; [now rewrite app_nil_r | constructor].

Ltac frame_case :=
  match goal with
  | |- preserves _ (if ?b then _ else _) => destruct b
  | |- preserves _ (match ?x with _ => _ end) => destruct x
  end.

Lemma uploaded_UspWrite_Actual buffer n : preserves uploaded (UspWrite_Actual buffer n).
Proof.
  unfold UspWrite_Actual. repeat frame_step.
  apply uploaded_emit. exact I.
Qed.

Lemma uploaded_UspSendMessage path payload : preserves uploaded (UspSendMessage path payload).
Proof.
  unfold UspSendMessage. repeat frame_step.
  apply uploaded_emit. exact I.
Qed.

Lemma uploaded_reset_ptrIntoBuffer : preserves uploaded reset_ptrIntoBuffer.
Proof. unfold reset_ptrIntoBuffer. uploaded_field. Qed.

Ltac uploaded_basic :=
  first
    [ frame_step
    | lazymatch goal with
      | |- preserves _ (UspWrite_Actual _ _) => apply uploaded_UspWrite_Actual
      | |- preserves _ (UspSendMessage _ _) => apply uploaded_UspSendMessage
      | |- preserves _ reset_ptrIntoBuffer => apply uploaded_reset_ptrIntoBuffer
      | |- preserves _ (call_usp _) => apply uploaded_emit; exact I
      | |- preserves _ (modify _) => uploaded_field
      | |- _ => frame_case
      end ].

Lemma uploaded_UspWrite_Buffered_loop fuel :
  forall flush buffer n, preserves uploaded (UspWrite_Buffered_loop fuel flush buffer n).
Proof.
  induction fuel as [ | fuel IH]; intros flush buffer n; simpl.
  - frame_step.
  - repeat first
      [ lazymatch goal with
        | |- preserves _ (UspWrite_Buffered_loop _ _ _ _) => apply IH
        end
      | uploaded_basic ].
Qed.

Lemma uploaded_UspWrite_Buffered buffer n : preserves uploaded (UspWrite_Buffered buffer n).
Proof.
  unfold UspWrite_Buffered.
  repeat first
    [ lazymatch goal with
      | |- preserves _ (UspWrite_Buffered_loop _ _ _ _) => apply uploaded_UspWrite_Buffered_loop
      end
    | uploaded_basic ].
Qed.

Lemma uploaded_UspWrite buffer n : preserves uploaded (UspWrite buffer n).
Proof.
  unfold UspWrite.
  repeat first
    [ lazymatch goal with
      | |- preserves _ (UspWrite_Buffered _ _) => apply uploaded_UspWrite_Buffered
      end
    | uploaded_basic ].
Qed.

Lemma uploaded_UspWrite_Flush : preserves uploaded UspWrite_Flush.
Proof.
  unfold UspWrite_Flush.
  repeat first
    [ lazymatch goal with
      | |- preserves _ (UspWrite_Buffered _ _) => apply uploaded_UspWrite_Buffered
      end
    | uploaded_basic ].
Qed.

Lemma uploaded_UspWriteFormat pformat : preserves uploaded (UspWriteFormat pformat).
Proof.
  unfold UspWriteFormat.
  repeat first
    [ lazymatch goal with
      | |- preserves _ (UspWrite _ _) => apply uploaded_UspWrite
      end
    | uploaded_basic ].
Qed.

Lemma uploaded_SendPreAudioMessages : preserves uploaded SendPreAudioMessages.
Proof.
  unfold SendPreAudioMessages, UspSendSpeechContext.
  repeat first
    [ lazymatch goal with
      | |- preserves _ (UspWriteFormat _) => apply uploaded_UspWriteFormat
      end
    | uploaded_basic ].
Qed.

(** ** Bad states *)

(** C6.  The end of speech and the end of a turn do not test the bad-state
    predicate first.  After a transport error in the middle of a single-shot
    turn the adapter is in (Sending, Error); the end of speech then moves
    the audio state to Stopping and hands the pending audio to the session,
    and the end of the turn does the same and asks the site for audio idle
    as well, without the test that guards that request at the end of
    speech. *)
Theorem bad_state_does_not_stop_audio_transition :
  in_bad_state failed_while_sending = true /\
  m_singleShot failed_while_sending = true /\
  state_pair failed_while_sending = (AudioState.Sending, UspState.Error) /\
  result_of (handle (speech_end_detected 7)) failed_while_sending = Done tt /\
  state_pair (exec (handle (speech_end_detected 7)) failed_while_sending)
    = (AudioState.Stopping, UspState.Error) /\
  events (exec (handle (speech_end_detected 7)) failed_while_sending)
    = events failed_while_sending ++ [ToUsp (WriteAudio [1; 2; 3]); ToUsp FlushAudio] /\
  result_of (handle turn_end) failed_while_sending = Done tt /\
  state_pair (exec (handle turn_end) failed_while_sending)
    = (AudioState.Stopping, UspState.Error) /\
  events (exec (handle turn_end) failed_while_sending)
    = events failed_while_sending ++
      [ToUsp (WriteAudio [1; 2; 3]); ToUsp FlushAudio; ToSite AdapterRequestingAudioIdle].
Proof. vm_compute. repeat split. Qed.

(** ** Opening the session *)

Lemma SetUspEndpoint_outcome props client a :
  exists custom,
    (exists client', SetUspEndpoint props client a
                     = (Done client', set_m_customEndpoint custom a)) \/
    (exists hr, SetUspEndpoint props client a = (Thrown hr, set_m_customEndpoint custom a)).
Proof.
  unfold SetUspEndpoint. unfold_ops.
  destruct (wcsicmp_equal (SPEECH_Endpoint props) "CORTANA");
    [exists false; left; eexists; reflexivity | ].
  destruct (string_empty (SPEECH_Endpoint props)); simpl;
    [ | exists true; left; eexists; reflexivity].
  destruct (string_empty (TRANSLATION_FromLanguage props)); simpl.
  - destruct (string_empty (SPEECH_ModelId props)); simpl;
      [ | exists false; left; eexists; reflexivity].
    destruct (SPEECH_RecoLanguage props); exists false; left; eexists; reflexivity.
  - destruct (string_empty (TRANSLATION_ToLanguages props)); simpl;
      [exists false; right; eexists; reflexivity | exists false; left; eexists; reflexivity].
Qed.

Lemma SetUspRecoMode_outcome props client a :
  (exists client' mode, SetUspRecoMode props client a = (Done client', set_m_recoMode mode a)) \/
  (exists hr, SetUspRecoMode props client a = (Thrown hr, a)).
Proof.
  unfold SetUspRecoMode.
  destruct (GetRecoModeFromProperties props Interactive) as [checkHr mode].
  destruct (SPX_FAILED checkHr && negb (is_NOT_FOUND checkHr));
    [right; eexists; reflexivity | ].
  unfold_ops.
  destruct (is_NOT_FOUND checkHr && m_customEndpoint a);
    [ | left; do 2 eexists; reflexivity].
  destruct (string_empty (SPEECH_Endpoint props)); [right; eexists; reflexivity | ].
  destruct (GetRecoModeFromEndpoint (SPEECH_Endpoint props) mode) as [checkHr' mode'].
  destruct (SPX_FAILED checkHr' && negb (is_NOT_FOUND checkHr'));
    [right; eexists; reflexivity | left; do 2 eexists; reflexivity].
Qed.

Lemma SetUspAuthentication_outcome props client a :
  (exists client', SetUspAuthentication props client a = (Done client', a)) \/
  (exists hr, SetUspAuthentication props client a = (Thrown hr, a)).
Proof.
  unfold SetUspAuthentication. unfold_ops.
  destruct (string_empty (SPEECH_SubscriptionKey props)); simpl;
    [ | left; eexists; reflexivity].
  destruct (string_empty (SPEECH_AuthToken props)); simpl; [ | left; eexists; reflexivity].
  destruct (string_empty (SPEECH_RpsToken props)); simpl;
    [right; eexists; reflexivity | left; eexists; reflexivity].
Qed.

Lemma configured_same_mode custom a :
  set_m_customEndpoint custom a = configured (m_recoMode a) custom a.
Proof. destruct_adapter a. reflexivity. Qed.

Lemma UspInitialize_outcome a :
  m_handle a = None ->
  (exists client mode custom,
      UspInitialize a =
      (Done tt, set_m_handle (Some client)
                  (set_events (events a ++ [ToUsp (Connect client)])
                     (configured mode custom a)))) \/
  (exists hr mode custom, UspInitialize a = (Thrown hr, configured mode custom a)).
Proof.
  intros H. unfold UspInitialize, call_usp, emit, bind, gets, modify.
  rewrite H. cbn [non_null]. cbv beta iota.
  destruct (SetUspEndpoint_outcome (properties (site a)) (new_client BingSpeech) a)
    as [custom [[c1 E1] | [hr E1]]]; rewrite E1;
    [ | right; exists hr, (m_recoMode a), custom; now rewrite configured_same_mode].
  destruct (SetUspRecoMode_outcome (properties (site a)) c1 (set_m_customEndpoint custom a))
    as [[c2 [mode E2]] | [hr E2]]; rewrite E2;
    [ | right; exists hr, (m_recoMode a), custom; now rewrite configured_same_mode].
  fold (configured mode custom a).
  destruct (SetUspAuthentication_outcome (properties (site a)) c2 (configured mode custom a))
    as [[c3 E3] | [hr E3]]; rewrite E3;
    [ | right; exists hr, mode, custom; reflexivity].
  left. exists c3, mode, custom.
  destruct_adapter a. reflexivity.
Qed.

Lemma session_kept_refl a : session_kept a a.
Proof. split; reflexivity. Qed.

Lemma session_kept_trans a b c : session_kept a b -> session_kept b c -> session_kept a c.
Proof. intros [h1 e1] [h2 e2]. split; congruence. Qed.

Lemma connections_app l1 l2 : connections (l1 ++ l2) = connections l1 ++ connections l2.
Proof. unfold connections. apply flat_map_app. Qed.

Lemma connections_uploads l : Forall is_upload l -> connections l = [].
Proof.
  induction 1 as [ | e l He _ IH]; [reflexivity | ].
  destruct e as [c | [ | | | | ]]; simpl in *; try contradiction; exact IH.
Qed.

Lemma uploaded_session_kept a a' : uploaded a a' -> session_kept a a'.
Proof.
  intros [_ h _ _ _ _ _ [l [e u]]]. split; [exact h | ].
  rewrite e, connections_app, (connections_uploads l u), app_nil_r. reflexivity.
Qed.

Lemma session_kept_of_uploaded {A} (c : Op A) :
  preserves uploaded c -> preserves session_kept c.
Proof. intros H a. apply uploaded_session_kept, H. Qed.

Lemma session_kept_ChangeState fa fu ta tu : preserves session_kept (ChangeState fa fu ta tu).
Proof.
  intros a. destruct (ChangeState_cases fa fu ta tu a) as [E | E]; rewrite E;
    destruct_adapter a; split; reflexivity.
Qed.

Lemma session_kept_call_site c : preserves session_kept (call_site c).
Proof.
  intros a. destruct_adapter a. split; [reflexivity | ].
  simpl. rewrite connections_app. simpl. now rewrite app_nil_r.
Qed.

Ltac session_step :=
  first
    [ frame_step_with session_kept_refl session_kept_trans
    | lazymatch goal with
      | |- preserves _ IsBadState =>
          apply preserves_IsBadState; [exact session_kept_refl | exact session_kept_trans]
      | |- preserves _ (and_then _ _) =>
          apply preserves_and_then; [exact session_kept_refl | exact session_kept_trans | | ]
      | |- preserves _ (ChangeState _ _ _ _) => apply session_kept_ChangeState
      | |- preserves _ (call_site _) => apply session_kept_call_site
      | |- preserves _ SendPreAudioMessages =>
          apply session_kept_of_uploaded, uploaded_SendPreAudioMessages
      | |- preserves _ (UspWrite _ _) => apply session_kept_of_uploaded, uploaded_UspWrite
      | |- preserves _ UspWrite_Flush => apply session_kept_of_uploaded, uploaded_UspWrite_Flush
      | |- _ => frame_case
      end ].

(** Audio never opens a session. *)
Lemma ProcessAudio_keeps_session data size : preserves session_kept (ProcessAudio data size).
Proof. unfold ProcessAudio. repeat session_step. Qed.

Lemma SetFormat_null_keeps_session a :
  m_handle (exec (SetFormat None) a) = m_handle a /\
  usp_calls (events (exec (SetFormat None) a)) = usp_calls (events a).
Proof.
  destruct_adapter a. unfold exec, call_site, emit. unfold_ops. simpl.
  assert (E : usp_calls (events_ ++ [ToSite AdapterCompletedSetFormatStop]) = usp_calls events_)
    by (unfold usp_calls; rewrite flat_map_app; simpl; apply app_nil_r).
  destruct usp, audio; simpl; auto.
Qed.

(** C5, as stated, fails: [SetFormat] with a format reaches [EnsureUspInit]
    through [PrepareAudioReadyState] and connects before any audio. *)
Lemma set_format_connects_at_once :
  ~ set_format_leaves_session_unopened pcm16k example_adapter.
Proof.
  intros H. destruct (H eq_refl eq_refl) as [_ [_ [H1 _]]]. discriminate H1.
Qed.

(** C5, amended.  [SetFormat] with a format in (Idle, Idle) and no session
    stores the format, moves the pair to (Ready, Idle) and opens the session
    at once: either it connects, the one new call being that connection, or
    the configuration is refused, the error propagates and no call is made.
    Audio never opens a session, and a null format set afterwards makes no
    transport call and leaves the session as it is. *)
Theorem set_format_opens_session :
  forall (fmt : WAVEFORMATEX) (a : Adapter),
    state_pair a = (AudioState.Idle, UspState.Idle) ->
    m_handle a = None ->
    let a' := exec (SetFormat (Some fmt)) a in
    m_format a' = Some fmt /\
    state_pair a' = (AudioState.Ready, UspState.Idle) /\
    ((exists client,
         result_of (SetFormat (Some fmt)) a = Done tt /\
         m_handle a' = Some client /\
         events a' = events a ++ [ToUsp (Connect client)]) \/
     (exists hr,
         result_of (SetFormat (Some fmt)) a = Thrown hr /\
         m_handle a' = None /\
         events a' = events a)) /\
    (forall data size,
        m_handle (exec (ProcessAudio data size) a') = m_handle a' /\
        connections (events (exec (ProcessAudio data size) a')) = connections (events a')) /\
    (m_handle (exec (SetFormat None) a') = m_handle a' /\
     usp_calls (events (exec (SetFormat None) a')) = usp_calls (events a')).
Proof.
  intros fmt a Hp Hh a'.
  assert (E : SetFormat (Some fmt) a =
              UspInitialize
                (set_m_servicePreferedBufferSizeSendingNow 0
                   (set_m_format (Some fmt)
                      (committed AudioState.Ready UspState.Idle a)))).
  { destruct_adapter a. unfold state_pair in Hp. simpl in Hp, Hh.
    injection Hp as -> ->. subst handle_.
    unfold PrepareFirstAudioReadyState, PrepareAudioReadyState, EnsureUspInit.
    unfold_ops. reflexivity. }
  assert (O := UspInitialize_outcome
                 (set_m_servicePreferedBufferSizeSendingNow 0
                    (set_m_format (Some fmt)
                       (committed AudioState.Ready UspState.Idle a)))).
  rewrite <- E in O.
  assert (Hnone : m_handle
                    (set_m_servicePreferedBufferSizeSendingNow 0
                       (set_m_format (Some fmt)
                          (committed AudioState.Ready UspState.Idle a))) = None)
    by (destruct_adapter a; exact Hh).
  specialize (O Hnone).
  assert (Main :
    m_format a' = Some fmt /\
    state_pair a' = (AudioState.Ready, UspState.Idle) /\
    ((exists client,
         result_of (SetFormat (Some fmt)) a = Done tt /\
         m_handle a' = Some client /\
         events a' = events a ++ [ToUsp (Connect client)]) \/
     (exists hr,
         result_of (SetFormat (Some fmt)) a = Thrown hr /\
         m_handle a' = None /\
         events a' = events a))).
  { subst a'. unfold exec, result_of.
    destruct O as [[client [mode [custom O]]] | [hr [mode [custom O]]]]; rewrite O;
      destruct_adapter a; simpl in Hh; subst handle_; simpl;
      (split; [reflexivity | split; [reflexivity | ]]).
    - left. exists client. repeat split.
    - right. exists hr. repeat split. }
  destruct Main as [M1 [M2 M3]].
  repeat split; try assumption.
  - apply (ProcessAudio_keeps_session data size a').
  - apply (ProcessAudio_keeps_session data size a').
  - apply SetFormat_null_keeps_session.
  - apply SetFormat_null_keeps_session.
Qed.

Lemma set_format_opens_session_witness :
  state_pair example_adapter = (AudioState.Idle, UspState.Idle) /\
  m_handle example_adapter = None /\
  state_pair (exec (SetFormat (Some pcm16k)) example_adapter)
    = (AudioState.Ready, UspState.Idle).
Proof.
  split; [reflexivity | split; [reflexivity | ]].
  apply (set_format_opens_session pcm16k example_adapter eq_refl eq_refl).
Defined.

(** ** The format header *)

Lemma wrap16_range n : 0 <= wrap16 n < 2 ^ 16.
Proof. unfold wrap16. apply Z.mod_pos_bound. reflexivity. Qed.

Lemma le_bytes_length w n : List.length (le_bytes w n) = w.
Proof. revert n. induction w as [ | w IH]; intros n; simpl; [reflexivity | now rewrite IH]. Qed.

Lemma object_bytes_length host w n : List.length (object_bytes host w n) = w.
Proof.
  destruct host; simpl; [ | rewrite length_rev]; apply le_bytes_length.
Qed.

Lemma extra_memory_length f : List.length (extra_memory f) = Z.to_nat (extra_bytes f).
Proof.
  unfold extra_memory, extra_bytes.
  rewrite length_firstn, length_app, repeat_length. lia.
Qed.

Lemma format_memory_length host f :
  List.length (format_memory host f) = Z.to_nat (sizeof_WAVEFORMATEX + extra_bytes f).
Proof.
  unfold format_memory. rewrite !length_app, !object_bytes_length, extra_memory_length.
  pose proof (wrap16_range (cbSize f)). unfold sizeof_WAVEFORMATEX, extra_bytes. lia.
Qed.

Lemma cbFormatChunk_value f : cbFormatChunk f = 14 + extra_bytes f.
Proof.
  unfold cbFormatChunk, wrap32, sizeof_WAVEFORMAT, extra_bytes.
  pose proof (wrap16_range (cbSize f)) as H.
  apply Z.mod_small. change (2 ^ 16) with 65536 in H. change (2 ^ 32) with 4294967296. lia.
Qed.

Lemma cbHeader_value f : cbHeader f = 12 + 8 + (14 + extra_bytes f) + 8.
Proof.
  unfold cbHeader, wrap32, cbTag, cbChunkType, cbChunkSize. rewrite cbFormatChunk_value.
  pose proof (wrap16_range (cbSize f)) as H. unfold extra_bytes.
  change (2 ^ 16) with 65536 in H. change (2 ^ 32) with 4294967296.
  rewrite Z.mod_small; lia.
Qed.

Lemma format_header_layout f : format_header LittleEndian f = prelude_layout f.
Proof.
  unfold format_header, prelude_layout, FormatBufferWriteChars, FormatBufferWriteNumber,
    FormatBufferWriteBytes.
  rewrite cbFormatChunk_value, <- !app_assoc. reflexivity.
Qed.

Lemma prelude_layout_length f :
  Z.of_nat (List.length (prelude_layout f)) = 12 + 8 + (14 + extra_bytes f) + 8.
Proof.
  unfold prelude_layout. rewrite !length_app, length_firstn, format_memory_length.
  pose proof (wrap16_range (cbSize f)) as H. unfold sizeof_WAVEFORMATEX, extra_bytes in *.
  simpl List.length. lia.
Qed.

Lemma UspWriteFormat_single_write f a :
  host_order a = LittleEndian ->
  UspWriteFormat (Some f) a
  = UspWrite (prelude_layout f) (Z.of_nat (List.length (prelude_layout f))) a.
Proof.
  intros H. unfold UspWriteFormat, bind, gets. rewrite H, format_header_layout.
  rewrite prelude_layout_length, cbHeader_value. reflexivity.
Qed.

(** C8.  On a little-endian host the header writer produces, for every
    descriptor, the bytes RIFF, u32(0), WAVE, fmt, u32(14 + extra), the
    first 14 + extra bytes of the descriptor, data, u32(0), each u32 with
    its low byte first; they are 12 + 8 + (14 + extra) + 8 bytes, and they
    are passed to [UspWrite] in one call with that count. *)
Theorem format_header_is_riff_prelude :
  forall (f : WAVEFORMATEX) (a : Adapter),
    host_order a = LittleEndian ->
    format_header (host_order a) f = prelude_layout f /\
    Z.of_nat (List.length (format_header (host_order a) f))
      = 12 + 8 + (14 + extra_bytes f) + 8 /\
    List.length (firstn (Z.to_nat (14 + extra_bytes f)) (format_memory LittleEndian f))
      = Z.to_nat (14 + extra_bytes f) /\
    UspWriteFormat (Some f) a
      = UspWrite (prelude_layout f) (Z.of_nat (List.length (prelude_layout f))) a.
Proof.
  intros f a H. rewrite H, format_header_layout. repeat split.
  - apply prelude_layout_length.
  - rewrite length_firstn, format_memory_length.
    pose proof (wrap16_range (cbSize f)). unfold sizeof_WAVEFORMATEX, extra_bytes in *. lia.
  - apply UspWriteFormat_single_write. exact H.
Qed.

Lemma format_header_witness :
  host_order example_adapter = LittleEndian /\
  format_header (host_order example_adapter) extensible_format
    = prelude_layout extensible_format /\
  Z.of_nat (List.length (format_header (host_order example_adapter) extensible_format)) = 48.
Proof.
  split; [reflexivity | ].
  destruct (format_header_is_riff_prelude extensible_format example_adapter eq_refl)
    as [H1 [H2 _]].
  split; [exact H1 | exact H2].
Defined.

(** With no frame size chosen yet and a usable session, as when
    [SendPreAudioMessages] runs, the header reaches the session as one
    audio write. *)
Lemma UspWriteFormat_one_audio_write f a client :
  host_order a = LittleEndian ->
  m_servicePreferedBufferSizeSendingNow a = 0 ->
  m_handle a = Some client ->
  m_uspState a = UspState.WaitingForTurnStart ->
  events (exec (UspWriteFormat (Some f)) a) = events a ++ [ToUsp (WriteAudio (prelude_layout f))].
Proof.
  intros Hh Hs Hc Hu.
  unfold exec. rewrite (UspWriteFormat_single_write f a Hh).
  generalize (prelude_layout f). intros header.
  unfold UspWrite, bind, gets. rewrite Hs. change (0 =? 0) with true.
  rewrite Bool.orb_true_r.
  cbv beta iota delta [UspWrite_Actual call_usp emit bind gets IsState_usp when modify].
  rewrite Hc, Hu. cbn [UspState.eqb negb andb non_null snd].
  rewrite Nat2Z.id, firstn_all. destruct a; reflexivity.
Qed.

(** ** Strings *)

Lemma append_assoc (a b c : string) : (a +++ b) +++ c = a +++ (b +++ c).
Proof. induction a as [ | x a IH]; simpl; [reflexivity | now rewrite IH]. Qed.

Lemma append_empty_r (a : string) : a +++ "" = a.
Proof. induction a as [ | x a IH]; simpl; [reflexivity | now rewrite IH]. Qed.

Lemma append_inv_head (a b c : string) : a +++ b = a +++ c -> b = c.
Proof. induction a as [ | x a IH]; simpl; intros H; [exact H | injection H as H; auto]. Qed.

Lemma string_empty_true s : string_empty s = true <-> s = "".
Proof. destruct s; simpl; split; intros H; congruence. Qed.

Lemma string_empty_false s : string_empty s = false <-> s <> "".
Proof. destruct s; simpl; split; intros H; congruence. Qed.

Lemma append_last_inv (a b : string) (c d : ascii) :
  a +++ String c "" = b +++ String d "" -> a = b /\ c = d.
Proof.
  revert b. induction a as [ | x a IH]; intros [ | y b]; simpl; intros H.
  - injection H as H. auto.
  - injection H as _ H. destruct b; discriminate H.
  - injection H as _ H. destruct a; discriminate H.
  - injection H as Hx H. destruct (IH b H) as [Ha Hc]. subst. auto.
Qed.

(** ** The context builder *)

Lemma fold_append_each wrap l : forall json,
  fold_left
    (fun acc item =>
       let '(json, appendComma) := acc in
       (json +++ (if appendComma : bool then "," else "") +++ wrap item, true))
    l (json, true) = (json +++ sep_all wrap l, true).
Proof.
  induction l as [ | x l IH]; intros json; simpl.
  - now rewrite append_empty_r.
  - rewrite IH. rewrite !append_assoc. reflexivity.
Qed.

Lemma append_each_join wrap json l : append_each wrap json l = json +++ join wrap l.
Proof.
  unfold append_each, join. destruct l as [ | x l]; simpl.
  - now rewrite append_empty_r.
  - rewrite fold_append_each. simpl. rewrite !append_assoc. reflexivity.
Qed.

Lemma fold_sort_listen_for l : forall grammars genericItems,
  fold_left
    (fun acc listenFor =>
       let '(grammars, genericItems) := acc in
       if is_reference_grammar listenFor
       then (grammars ++ [reference_of listenFor], genericItems)
       else (grammars, genericItems ++ [listenFor]))
    l (grammars, genericItems)
  = (grammars ++ grammars_of l, genericItems ++ items_of l).
Proof.
  unfold grammars_of, items_of.
  induction l as [ | x l IH]; intros g i; simpl.
  - now rewrite !app_nil_r.
  - destruct (is_reference_grammar x); simpl; rewrite IH, <- app_assoc; reflexivity.
Qed.

Lemma sort_listen_for_eq l : sort_listen_for l = (grammars_of l, items_of l).
Proof. unfold sort_listen_for. now rewrite fold_sort_listen_for. Qed.

Lemma GetDgiJson_eq props l :
  GetDgiJsonFromListenForList props l =
  if USP_NoDGI props then "" else dgi_payload (items_of l) (grammars_of l).
Proof.
  unfold GetDgiJsonFromListenForList. rewrite sort_listen_for_eq.
  destruct (USP_NoDGI props); [reflexivity | ].
  unfold dgi_payload, groups_open, grammars_open.
  destruct (items_of l) as [ | i il], (grammars_of l) as [ | g gl];
    cbn [List.length Nat.ltb Nat.leb orb]; rewrite ?append_each_join;
    rewrite ?append_assoc; reflexivity.
Qed.

Lemma GetLanguageUnderstandingJson_eq props provider id key :
  GetLanguageUnderstandingJsonFromIntentInfo props provider id key =
  if USP_NoIntentJson props then ""
  else if negb (string_empty provider) && negb (string_empty id) && negb (string_empty key)
       then intent_payload provider id key else "".
Proof.
  unfold GetLanguageUnderstandingJsonFromIntentInfo, intent_payload.
  destruct (USP_NoIntentJson props); [reflexivity | ].
  destruct (negb (string_empty provider) && negb (string_empty id) && negb (string_empty key));
    [ | reflexivity].
  rewrite ?append_assoc. reflexivity.
Qed.

Lemma GetSpeechContextJson_eq dgiJson intentJson :
  GetSpeechContextJson dgiJson intentJson = context_payload dgiJson intentJson.
Proof.
  unfold GetSpeechContextJson, context_payload, dgi_key, intent_key_.
  destruct (string_empty dgiJson), (string_empty intentJson); simpl;
    rewrite ?append_assoc; reflexivity.
Qed.

Lemma append_last3_inv (a b : string) (c1 c2 c3 d1 d2 d3 : ascii) :
  a +++ String c1 (String c2 (String c3 "")) = b +++ String d1 (String d2 (String d3 "")) ->
  c1 = d1.
Proof.
  intros H.
  assert (E : forall s x y z,
             s +++ String x (String y (String z ""))
             = ((s +++ String x "") +++ String y "") +++ String z "")
    by (intros; rewrite !append_assoc; reflexivity).
  rewrite !E in H.
  apply append_last_inv in H. destruct H as [H _].
  apply append_last_inv in H. destruct H as [H _].
  apply append_last_inv in H. tauto.
Qed.

Lemma dgi_payload_end items grammars :
  dgi_payload items grammars = "" \/
  exists body, dgi_payload items grammars = body +++ "]}".
Proof.
  unfold dgi_payload. destruct items as [ | i il], grammars as [ | g gl].
  - left. reflexivity.
  - right. exists ("{" +++ grammars_open +++ join quoted (g :: gl)).
    rewrite !append_assoc. reflexivity.
  - right. exists ("{" +++ groups_open +++ join text_item (i :: il) +++ "]}").
    rewrite !append_assoc. reflexivity.
  - right. exists ("{" +++ groups_open +++ join text_item (i :: il) +++ "]}]" +++
                   "," +++ grammars_open +++ join quoted (g :: gl)).
    rewrite !append_assoc. reflexivity.
Qed.

Lemma intent_json_complete props info :
  string_empty (GetLanguageUnderstandingJsonFromIntentInfo props
                  (intent_provider info) (intent_id info) (intent_key info))
  = negb (intent_complete info props).
Proof.
  rewrite GetLanguageUnderstandingJson_eq. unfold intent_complete.
  destruct (USP_NoIntentJson props); simpl.
  - now rewrite Bool.andb_false_r.
  - rewrite Bool.andb_true_r.
    destruct (negb (string_empty (intent_provider info)) &&
              negb (string_empty (intent_id info)) &&
              negb (string_empty (intent_key info))); reflexivity.
Qed.

Lemma intent_json_when_complete props info :
  intent_complete info props = true ->
  GetLanguageUnderstandingJsonFromIntentInfo props
    (intent_provider info) (intent_id info) (intent_key info)
  = intent_payload (intent_provider info) (intent_id info) (intent_key info).
Proof.
  rewrite GetLanguageUnderstandingJson_eq. unfold intent_complete.
  destruct (USP_NoIntentJson props); simpl.
  - rewrite Bool.andb_false_r. discriminate.
  - rewrite Bool.andb_true_r. intros ->. reflexivity.
Qed.

Lemma context_payload_empty dgiJson intentJson :
  string_empty (context_payload dgiJson intentJson)
  = string_empty dgiJson && string_empty intentJson.
Proof.
  unfold context_payload. destruct (string_empty dgiJson), (string_empty intentJson); reflexivity.
Qed.

Lemma intent_branch_iff props l info :
  has_intent_branch info
    (GetSpeechContextJson (GetDgiJsonFromListenForList props l)
       (GetLanguageUnderstandingJsonFromIntentInfo props
          (intent_provider info) (intent_id info) (intent_key info)))
  <-> intent_complete info props = true.
Proof.
  rewrite GetSpeechContextJson_eq. unfold has_intent_branch. split.
  - intros [before H].
    destruct (intent_complete info props) eqn:C; [reflexivity | exfalso].
    pose proof (intent_json_complete props info) as E. rewrite C in E. simpl in E.
    apply string_empty_true in E. rewrite E in H.
    unfold context_payload in H. simpl (string_empty "") in H.
    destruct (string_empty (GetDgiJsonFromListenForList props l)) eqn:D.
    + destruct before; discriminate H.
    + rewrite GetDgiJson_eq in H, D.
      destruct (USP_NoDGI props); [discriminate D | ].
      destruct (dgi_payload_end (items_of l) (grammars_of l)) as [Z | [body Z]];
        rewrite Z in D, H; [discriminate D | ].
      assert (L : "{" +++ dgi_key +++ (body +++ "]}") +++ "}"
                  = ("{" +++ dgi_key +++ body) +++ "]}}")
        by (rewrite !append_assoc; reflexivity).
      assert (R : before +++ intent_key_ +++
                  intent_payload (intent_provider info) (intent_id info) (intent_key info) +++ "}"
                  = (before +++ intent_key_ +++
                     "{" +++ dq +++ "provider" +++ dq +++ ":" +++ dq +++ intent_provider info +++
                     dq +++ "," +++ dq +++ "id" +++ dq +++ ":" +++ dq +++ intent_id info +++
                     dq +++ "," +++ dq +++ "key" +++ dq +++ ":" +++ dq +++ intent_key info)
                    +++ String "034" "}}")
        by (unfold intent_payload; rewrite !append_assoc; reflexivity).
      rewrite L, R in H. apply append_last3_inv in H. discriminate H.
  - intros C. rewrite (intent_json_when_complete props info C).
    unfold context_payload.
    destruct (string_empty (GetDgiJsonFromListenForList props l)); simpl.
    + exists "{". reflexivity.
    + exists ("{" +++ dgi_key +++ GetDgiJsonFromListenForList props l +++ ",").
      rewrite !append_assoc. reflexivity.
Qed.

Lemma dgi_branch_iff dgiJson intentJson :
  has_dgi_branch (GetSpeechContextJson dgiJson intentJson) <-> dgiJson <> "".
Proof.
  rewrite GetSpeechContextJson_eq. unfold has_dgi_branch, context_payload. split.
  - intros [rest H] ->. simpl in H. destruct (string_empty intentJson); discriminate H.
  - intros H. apply string_empty_false in H. rewrite H.
    destruct (string_empty intentJson).
    + exists (dgiJson +++ "}"). reflexivity.
    + exists (dgiJson +++ "," +++ intent_key_ +++ intentJson +++ "}"). reflexivity.
Qed.

Lemma UspSendSpeechContext_run a client :
  m_handle a = Some client ->
  m_uspState a <> UspState.Terminating ->
  m_uspState a <> UspState.Zombie ->
  let s := site a in
  let dgiJson := GetDgiJsonFromListenForList (properties s) (GetListenForList s) in
  let intentJson :=
    GetLanguageUnderstandingJsonFromIntentInfo (properties s)
      (intent_provider (GetIntentInfo s)) (intent_id (GetIntentInfo s))
      (intent_key (GetIntentInfo s)) in
  let expecting := set_m_expectIntentResponse (negb (string_empty intentJson)) a in
  UspSendSpeechContext a =
  (Done tt,
   if string_empty dgiJson && string_empty intentJson then expecting
   else set_events (events a ++
                    [ToUsp (SendMessage "speech.context"
                                        (GetSpeechContextJson dgiJson intentJson))])
                   expecting).
Proof.
  intros Hh Ht Hz s dgiJson intentJson expecting.
  unfold UspSendSpeechContext, UspSendMessage, call_usp, emit. unfold_ops.
  fold s. fold dgiJson. fold intentJson.
  rewrite GetSpeechContextJson_eq, context_payload_empty.
  destruct (string_empty dgiJson && string_empty intentJson); simpl; [reflexivity | ].
  subst expecting. destruct_adapter a. simpl in *. subst handle_.
  destruct usp; try congruence; reflexivity.
Qed.

(** C7.  With a usable session: the context message ends with the intent
    member exactly when provider, id and key are all non-empty and the
    intent suppressor is off; the dgi suppressor blanks the dgi payload and
    the message then has no dgi member; the message is sent, once, exactly
    when one of the two payloads is non-empty, and nothing is sent
    otherwise; and the adapter expects an intent response exactly when the
    intent payload is non-empty. *)
Theorem speech_context_branches :
  forall (a : Adapter) (client : Client),
    m_handle a = Some client ->
    m_uspState a <> UspState.Terminating ->
    m_uspState a <> UspState.Zombie ->
    let s := site a in
    let info := GetIntentInfo s in
    let dgiJson := GetDgiJsonFromListenForList (properties s) (GetListenForList s) in
    let intentJson :=
      GetLanguageUnderstandingJsonFromIntentInfo (properties s)
        (intent_provider info) (intent_id info) (intent_key info) in
    let contextJson := GetSpeechContextJson dgiJson intentJson in
    let a' := exec UspSendSpeechContext a in
    (has_intent_branch info contextJson <-> intent_complete info (properties s) = true) /\
    (intentJson <> "" <-> intent_complete info (properties s) = true) /\
    (USP_NoDGI (properties s) = true -> dgiJson = "" /\ ~ has_dgi_branch contextJson) /\
    (has_dgi_branch contextJson <-> dgiJson <> "") /\
    (events a' = events a ++ [ToUsp (SendMessage "speech.context" contextJson)]
     <-> dgiJson <> "" \/ intentJson <> "") /\
    (events a' = events a <-> dgiJson = "" /\ intentJson = "") /\
    (m_expectIntentResponse a' = true <-> intentJson <> "").
Proof.
  intros a client Hh Ht Hz s info dgiJson intentJson contextJson a'.
  assert (Hi : intentJson <> "" <-> intent_complete info (properties s) = true).
  { rewrite <- string_empty_false. subst intentJson. rewrite intent_json_complete.
    destruct (intent_complete info (properties s)); simpl; split; congruence. }
  assert (Hd : has_dgi_branch contextJson <-> dgiJson <> "") by apply dgi_branch_iff.
  assert (Hrun := UspSendSpeechContext_run a client Hh Ht Hz).
  cbv zeta in Hrun. fold s in Hrun. fold info in Hrun. fold dgiJson in Hrun.
  fold intentJson in Hrun. fold contextJson in Hrun.
  assert (Ea : events a' =
               if string_empty dgiJson && string_empty intentJson then events a
               else events a ++ [ToUsp (SendMessage "speech.context" contextJson)]).
  { subst a'. unfold exec. rewrite Hrun. simpl.
    destruct (string_empty dgiJson && string_empty intentJson); destruct_adapter a; reflexivity. }
  assert (Ex : m_expectIntentResponse a' = negb (string_empty intentJson)).
  { subst a'. unfold exec. rewrite Hrun. simpl.
    destruct (string_empty dgiJson && string_empty intentJson); destruct_adapter a; reflexivity. }
  assert (Hne : forall (l : list Event) e, l <> l ++ [e]).
  { intros l e H. apply (f_equal (@List.length Event)) in H.
    rewrite length_app in H. simpl in H. lia. }
  split; [apply intent_branch_iff | ].
  split; [exact Hi | ].
  split.
  { intros N. assert (Z : dgiJson = "").
    { subst dgiJson. rewrite GetDgiJson_eq, N. reflexivity. }
    split; [exact Z | ]. rewrite Hd. congruence. }
  split; [exact Hd | ].
  rewrite Ea, Ex.
  pose proof (Hne (events a) (ToUsp (SendMessage "speech.context" contextJson))) as N1.
  assert (N2 : events a ++ [ToUsp (SendMessage "speech.context" contextJson)] <> events a)
    by (intros N; symmetry in N; exact (N1 N)).
  pose proof (string_empty_true dgiJson) as D1.
  pose proof (string_empty_false dgiJson) as D2.
  pose proof (string_empty_true intentJson) as I1.
  pose proof (string_empty_false intentJson) as I2.
  destruct (string_empty dgiJson), (string_empty intentJson); simpl;
    intuition congruence.
Qed.

Lemma speech_context_branches_witness :
  m_handle turn_opening <> None /\
  m_uspState turn_opening = UspState.WaitingForTurnStart /\
  m_expectIntentResponse (exec UspSendSpeechContext turn_opening) = true.
Proof.
  split; [discriminate | split; [reflexivity | ]].
  apply (speech_context_branches turn_opening _ eq_refl); discriminate.
Defined.

(** ** The chunking uploader *)

(** C3.  A write that crosses a frame boundary: [UspWrite_Buffered] copies
    from the start of its argument on every pass of its loop, so with a
    frame of four bytes the six bytes 1 to 6 reach the session as the frame
    1 2 3 4 followed, at the flush, by 1 2. *)
Theorem buffered_write_repeats_input_start :
  m_servicePreferedBufferSizeSendingNow (run six_bytes_then_flush example_adapter) = 4 /\
  audio_writes (events (run six_bytes_then_flush example_adapter))
    = [prelude_layout tiny_format; [1; 2; 3; 4]; [1; 2]] /\
  List.concat (tl (audio_writes (events (run six_bytes_then_flush example_adapter))))
    <> [1; 2; 3; 4; 5; 6].
Proof.
  split; [vm_compute; reflexivity | split; [vm_compute; reflexivity | ]].
  vm_compute. discriminate.
Qed.

(** ** Reading the context back *)

Lemma plain_cons c s : plain (String c s) <-> c <> dq_char /\ plain s.
Proof.
  unfold plain. simpl. destruct (Ascii.eqb_spec c dq_char) as [E | E]; simpl.
  - split; [discriminate | intros [H _]; contradiction].
  - tauto.
Qed.

Lemma plain_empty : plain "".
Proof. reflexivity. Qed.

(** Two strings that agree up to and including their first quote. *)
Lemma split_at_quote (a b r r' : string) :
  plain a -> plain b ->
  a +++ dq +++ r = b +++ dq +++ r' -> a = b /\ r = r'.
Proof.
  revert b. induction a as [ | x a IH]; intros [ | y b] Ha Hb H; simpl in H.
  - injection H as H. auto.
  - injection H as Hy _. apply plain_cons in Hb. destruct Hb as [Hb _].
    exfalso. apply Hb. symmetry. exact Hy.
  - injection H as Hx _. apply plain_cons in Ha. destruct Ha as [Ha _].
    exfalso. apply Ha. exact Hx.
  - injection H as Hx H. apply plain_cons in Ha. apply plain_cons in Hb.
    destruct (IH b (proj2 Ha) (proj2 Hb) H) as [E1 E2]. subst. auto.
Qed.

Lemma plain_substring s : forall n m, plain s -> plain (String.substring n m s).
Proof.
  induction s as [ | c s IH]; intros n m H.
  - destruct n, m; exact plain_empty.
  - apply plain_cons in H. destruct H as [Hc Hs].
    destruct n as [ | n]; simpl.
    + destruct m as [ | m]; [exact plain_empty | ].
      apply plain_cons. split; [exact Hc | apply IH; exact Hs].
    + apply IH. exact Hs.
Qed.

Lemma plain_replace_first a b s : b <> dq_char -> plain s -> plain (replace_first a b s).
Proof.
  intros Hb. induction s as [ | c s IH]; intros H; simpl; [exact plain_empty | ].
  apply plain_cons in H. destruct H as [Hc Hs].
  destruct (Ascii.eqb c a); apply plain_cons; auto.
Qed.

Lemma plain_reference_of s : plain s -> plain (reference_of s).
Proof.
  intros H. unfold reference_of. apply plain_replace_first; [discriminate | ].
  apply plain_substring. exact H.
Qed.

Lemma plain_grammars_of l : Forall plain l -> Forall plain (grammars_of l).
Proof.
  unfold grammars_of. induction 1 as [ | s l Hs _ IH]; simpl; [constructor | ].
  destruct (is_reference_grammar s); simpl; [constructor | ]; auto using plain_reference_of.
Qed.

Lemma plain_items_of l : Forall plain l -> Forall plain (items_of l).
Proof.
  unfold items_of. induction 1 as [ | s l Hs _ IH]; simpl; [constructor | ].
  destruct (is_reference_grammar s); simpl; [ | constructor]; auto.
Qed.

(** An element wrapped as [pre], the element, a quote, [post]. *)
Lemma sep_all_unique pre post : forall xs ys r r',
  Forall plain xs -> Forall plain ys ->
  sep_all (fun x => pre +++ x +++ dq +++ post) xs +++ "]" +++ r
  = sep_all (fun x => pre +++ x +++ dq +++ post) ys +++ "]" +++ r' ->
  xs = ys /\ r = r'.
Proof.
  induction xs as [ | x xs IH]; intros [ | y ys] r r' Hx Hy H.
  - simpl in H. injection H as H. auto.
  - simpl in H. discriminate H.
  - simpl in H. discriminate H.
  - cbn [sep_all] in H. rewrite !append_assoc in H.
    apply append_inv_head in H. apply append_inv_head in H.
    inversion Hx as [ | ? ? Px Pxs]. inversion Hy as [ | ? ? Py Pys]. subst.
    apply split_at_quote in H; [ | assumption | assumption].
    destruct H as [E H]. apply append_inv_head in H.
    destruct (IH ys r r' Pxs Pys H) as [E1 E2]. subst. auto.
Qed.

Lemma sep_all_ext f g l : (forall x, f x = g x) -> sep_all f l = sep_all g l.
Proof. intros E. induction l as [ | x l IH]; simpl; [reflexivity | now rewrite E, IH]. Qed.

Lemma text_item_wrapped x : text_item x = text_open +++ x +++ dq +++ "}".
Proof. unfold text_item, text_open. rewrite !append_assoc. reflexivity. Qed.

Lemma quoted_wrapped x : quoted x = dq +++ x +++ dq +++ "".
Proof. unfold quoted. now rewrite append_empty_r. Qed.

Lemma sep_all_join f x l : sep_all f (x :: l) = "," +++ join f (x :: l).
Proof. reflexivity. Qed.

(** A non-empty array of items, up to its closing bracket. *)
Lemma items_unique x xs y ys r r' :
  Forall plain (x :: xs) -> Forall plain (y :: ys) ->
  join text_item (x :: xs) +++ "]" +++ r = join text_item (y :: ys) +++ "]" +++ r' ->
  x :: xs = y :: ys /\ r = r'.
Proof.
  intros Hx Hy H.
  apply (sep_all_unique text_open "}"); [assumption | assumption | ].
  rewrite <- !(sep_all_ext text_item _ _ text_item_wrapped), !sep_all_join.
  rewrite !append_assoc. f_equal. exact H.
Qed.

(** A non-empty array of grammars, up to its closing bracket. *)
Lemma grammars_unique x xs y ys r r' :
  Forall plain (x :: xs) -> Forall plain (y :: ys) ->
  join quoted (x :: xs) +++ "]" +++ r = join quoted (y :: ys) +++ "]" +++ r' ->
  x :: xs = y :: ys /\ r = r'.
Proof.
  intros Hx Hy H.
  apply (sep_all_unique dq ""); [assumption | assumption | ].
  rewrite <- !(sep_all_ext quoted _ _ quoted_wrapped), !sep_all_join.
  rewrite !append_assoc. f_equal. exact H.
Qed.

(** The dgi object is read off the front of whatever follows it. *)
Lemma dgi_payload_unique items grammars items' grammars' r r' :
  Forall plain items -> Forall plain grammars ->
  Forall plain items' -> Forall plain grammars' ->
  dgi_payload items grammars <> "" -> dgi_payload items' grammars' <> "" ->
  dgi_payload items grammars +++ r = dgi_payload items' grammars' +++ r' ->
  items = items' /\ grammars = grammars' /\ r = r'.
Proof.
  intros Pi Pg Pi' Pg' N N' H.
  destruct items as [ | i il], grammars as [ | g gl]; try (exfalso; apply N; reflexivity);
    destruct items' as [ | i' il'], grammars' as [ | g' gl'];
    try (exfalso; apply N'; reflexivity);
    clear N N'; unfold dgi_payload in H; rewrite !append_assoc in H;
    apply append_inv_head in H.
  - (* grammars, grammars *)
    apply append_inv_head in H. apply grammars_unique in H; [ | assumption | assumption].
    destruct H as [E H]. simpl in H. injection H as H. rewrite E. auto.
  - (* grammars, items *)
    unfold grammars_open, groups_open in H. simpl in H. discriminate H.
  - (* grammars, both *)
    unfold grammars_open, groups_open in H. simpl in H. discriminate H.
  - (* items, grammars *)
    unfold grammars_open, groups_open in H. simpl in H. discriminate H.
  - (* items, items *)
    apply append_inv_head in H. apply items_unique in H; [ | assumption | assumption].
    destruct H as [E H]. simpl in H. injection H as H. rewrite E. auto.
  - (* items, both *)
    apply append_inv_head in H. apply items_unique in H; [ | assumption | assumption].
    destruct H as [_ H]. simpl in H. discriminate H.
  - (* both, grammars *)
    unfold grammars_open, groups_open in H. simpl in H. discriminate H.
  - (* both, items *)
    apply append_inv_head in H. apply items_unique in H; [ | assumption | assumption].
    destruct H as [_ H]. simpl in H. discriminate H.
  - (* both, both *)
    apply append_inv_head in H. apply items_unique in H; [ | assumption | assumption].
    destruct H as [E H].
    assert (H2 : join quoted (g :: gl) +++ "]" +++ "}" +++ r
                 = join quoted (g' :: gl') +++ "]" +++ "}" +++ r').
    { apply (append_inv_head ("}]," +++ grammars_open)).
      rewrite !append_assoc. exact H. }
    apply grammars_unique in H2; [ | assumption | assumption].
    destruct H2 as [E2 H2]. simpl in H2. injection H2 as H2. rewrite E, E2. auto.
Qed.

(** The intent object is read off the front of whatever follows it. *)
Lemma intent_payload_unique p i k p' i' k' r r' :
  plain p -> plain i -> plain k -> plain p' -> plain i' -> plain k' ->
  intent_payload p i k +++ r = intent_payload p' i' k' +++ r' ->
  p = p' /\ i = i' /\ k = k' /\ r = r'.
Proof.
  intros Pp Pi Pk Pp' Pi' Pk' H.
  unfold intent_payload in H. rewrite !append_assoc in H.
  do 6 apply append_inv_head in H.
  apply split_at_quote in H; [ | assumption | assumption]. destruct H as [Ep H].
  do 6 apply append_inv_head in H.
  apply split_at_quote in H; [ | assumption | assumption]. destruct H as [Ei H].
  do 6 apply append_inv_head in H.
  apply split_at_quote in H; [ | assumption | assumption]. destruct H as [Ek H].
  apply append_inv_head in H. auto.
Qed.

Lemma dgi_payload_empty items grammars :
  dgi_payload items grammars = "" -> items = [] /\ grammars = [].
Proof.
  destruct items, grammars; simpl; intros H; try discriminate H; auto.
Qed.

(** What the intent builder returns for a triple given in full or not at
    all, the suppressor being off. *)
Lemma intent_json_readable props info :
  USP_NoIntentJson props = false ->
  (intent_provider info <> "" /\ intent_id info <> "" /\ intent_key info <> "") \/
  (intent_provider info = "" /\ intent_id info = "" /\ intent_key info = "") ->
  let json := GetLanguageUnderstandingJsonFromIntentInfo props
                (intent_provider info) (intent_id info) (intent_key info) in
  (json = intent_payload (intent_provider info) (intent_id info) (intent_key info) /\
   intent_provider info <> "") \/
  (json = "" /\ intent_provider info = "" /\ intent_id info = "" /\ intent_key info = "").
Proof.
  intros N H json. subst json. rewrite GetLanguageUnderstandingJson_eq, N.
  destruct H as [[Hp [Hi Hk]] | [Hp [Hi Hk]]].
  - left. apply string_empty_false in Hp, Hi, Hk. rewrite Hp, Hi, Hk. simpl. split; [reflexivity | ].
    apply string_empty_false. exact Hp.
  - right. rewrite Hp, Hi, Hk. simpl. auto.
Qed.

Lemma IntentInfo_eq info info' :
  intent_provider info = intent_provider info' ->
  intent_id info = intent_id info' ->
  intent_key info = intent_key info' ->
  info = info'.
Proof. destruct info, info'; simpl; intros; subst; reflexivity. Qed.

(** The context object determines both payloads' inputs. *)
Lemma context_payload_unique items grammars items' grammars' info info' J J' :
  Forall plain items -> Forall plain grammars ->
  Forall plain items' -> Forall plain grammars' ->
  plain (intent_provider info) -> plain (intent_id info) -> plain (intent_key info) ->
  plain (intent_provider info') -> plain (intent_id info') -> plain (intent_key info') ->
  (J = intent_payload (intent_provider info) (intent_id info) (intent_key info) /\
   intent_provider info <> "") \/
  (J = "" /\ intent_provider info = "" /\ intent_id info = "" /\ intent_key info = "") ->
  (J' = intent_payload (intent_provider info') (intent_id info') (intent_key info') /\
   intent_provider info' <> "") \/
  (J' = "" /\ intent_provider info' = "" /\ intent_id info' = "" /\ intent_key info' = "") ->
  context_payload (dgi_payload items grammars) J
  = context_payload (dgi_payload items' grammars') J' ->
  items = items' /\ grammars = grammars' /\ info = info'.
Proof.
  intros Pi Pg Pi' Pg' Pp Pd Pk Pp' Pd' Pk' HJ HJ' H.
  unfold context_payload in H.
  destruct (string_empty (dgi_payload items grammars)) eqn:D;
    [apply (proj1 (string_empty_true _)) in D | apply (proj1 (string_empty_false _)) in D];
    (destruct (string_empty (dgi_payload items' grammars')) eqn:D';
     [apply (proj1 (string_empty_true _)) in D' | apply (proj1 (string_empty_false _)) in D']);
    destruct HJ as [[EJ NJ] | [EJ [Ep [Ei Ek]]]];
    destruct HJ' as [[EJ' NJ'] | [EJ' [Ep' [Ei' Ek']]]];
    subst J J'; cbn [string_empty intent_payload append] in H;
    try discriminate H;
    try (unfold dgi_key, intent_key_ in H; simpl in H; discriminate H).
  (* no dgi on either side *)
  - apply dgi_payload_empty in D, D'. destruct D, D'. subst.
    apply (append_inv_head "{") in H. apply append_inv_head in H.
    apply (intent_payload_unique _ _ _ _ _ _ "}" "}") in H; try assumption.
    destruct H as [E1 [E2 [E3 _]]]. auto using IntentInfo_eq.
  - apply dgi_payload_empty in D, D'. destruct D, D'. subst.
    repeat split. apply IntentInfo_eq; congruence.
  (* dgi on both sides *)
  - apply (append_inv_head "{") in H. apply append_inv_head in H.
    apply dgi_payload_unique in H; try assumption.
    destruct H as [E1 [E2 H]].
    apply (append_inv_head ",") in H. apply append_inv_head in H.
    apply (intent_payload_unique _ _ _ _ _ _ "}" "}") in H; try assumption.
    destruct H as [E3 [E4 [E5 _]]]. auto using IntentInfo_eq.
  - apply (append_inv_head "{") in H. apply append_inv_head in H.
    apply dgi_payload_unique in H; try assumption.
    destruct H as [_ [_ H]]. simpl in H. discriminate H.
  - apply (append_inv_head "{") in H. apply append_inv_head in H.
    apply dgi_payload_unique in H; try assumption.
    destruct H as [_ [_ H]]. simpl in H. discriminate H.
  - apply (append_inv_head "{") in H. apply append_inv_head in H.
    apply dgi_payload_unique in H; try assumption.
    destruct H as [E1 [E2 _]]. repeat split; try assumption.
    apply IntentInfo_eq; congruence.
Qed.

Lemma char_at_iff n s c : char_at n s c = true <-> String.get n s = Some c.
Proof.
  unfold char_at. destruct (String.get n s) as [x | ].
  - rewrite Ascii.eqb_eq. split; congruence.
  - split; discriminate.
Qed.

Lemma contains_char_iff c s : contains_char c s = true <-> exists n, String.get n s = Some c.
Proof.
  induction s as [ | x s IH]; simpl.
  - split; [discriminate | intros [n H]; discriminate H].
  - rewrite Bool.orb_true_iff, Ascii.eqb_eq, IH. split.
    + intros [E | [n H]]; [exists 0%nat; simpl; congruence | exists (S n); exact H].
    + intros [[ | n] H]; simpl in H; [left; congruence | right; exists n; exact H].
Qed.

Lemma is_reference_grammar_iff s : is_reference_grammar s = true <-> looks_like_reference s.
Proof.
  unfold is_reference_grammar, looks_like_reference.
  rewrite !Bool.andb_true_iff, Nat.ltb_lt, !char_at_iff, contains_char_iff. tauto.
Qed.

(** C9, as stated, fails: the builder writes its strings between quotes
    without escaping them, so an item that holds quotes yields the payload
    of two items, and no reader can give back both lists. *)
Lemma no_reader_of_speech_context :
  ~ exists parse, reads_back example_properties parse.
Proof.
  intros [parse H].
  pose proof (H [crafted_item] example_intent) as H1.
  pose proof (H ["a"; "b"] example_intent) as H2.
  assert (E : speech_context example_properties [crafted_item] example_intent
              = speech_context example_properties ["a"; "b"] example_intent)
    by (vm_compute; reflexivity).
  rewrite E, H2 in H1. vm_compute in H1. discriminate H1.
Qed.

(** A triple with an empty component is left out like no triple at all. *)
Lemma partial_intent_is_not_read_back :
  speech_context example_properties ["hello"] partial_intent
  = speech_context example_properties ["hello"] no_intent /\
  partial_intent <> no_intent.
Proof. split; [vm_compute; reflexivity | discriminate]. Qed.

(** X28.  The builder is one-to-one where it can be.  With both
    suppressors off, for listen-for lists and intent triples whose strings
    hold no double quote (they may hold backslashes and control
    characters) and whose triple is given in full or not at all, equal
    payloads come from equal reference grammars, equal generic items and
    equal triples.  An
    entry is a reference grammar exactly when it is longer than three
    characters, starts with an opening brace, ends with a closing brace and
    holds a colon; the grammars are those entries, braces stripped and the
    first colon replaced by a slash, the items are the others, both in the
    order of the list. *)
Theorem speech_context_determines_inputs :
  forall (props : NamedProperties) (listenForList listenForList' : list string)
         (info info' : IntentInfo),
    USP_NoDGI props = false ->
    USP_NoIntentJson props = false ->
    readable listenForList info ->
    readable listenForList' info' ->
    speech_context props listenForList info = speech_context props listenForList' info' ->
    (sort_listen_for listenForList = sort_listen_for listenForList' /\ info = info') /\
    sort_listen_for listenForList
      = (map reference_of (filter is_reference_grammar listenForList),
         filter (fun s => negb (is_reference_grammar s)) listenForList) /\
    (forall s, is_reference_grammar s = true <-> looks_like_reference s).
Proof.
  intros props l l' info info' Nd Ni [Pl [Pp [Pi [Pk Full]]]] [Pl' [Pp' [Pi' [Pk' Full']]]] H.
  split; [ | split; [apply sort_listen_for_eq | apply is_reference_grammar_iff]].
  unfold speech_context in H.
  rewrite !GetSpeechContextJson_eq, !GetDgiJson_eq, Nd in H.
  apply (context_payload_unique _ _ _ _ info info') in H;
    auto using plain_items_of, plain_grammars_of, intent_json_readable.
  destruct H as [E1 [E2 E3]].
  rewrite !sort_listen_for_eq, E1, E2. auto.
Qed.

Lemma speech_context_determines_inputs_witness :
  readable ["hello"; "{a:b}"] example_intent /\
  sort_listen_for ["hello"; "{a:b}"] = (["a/b"], ["hello"]).
Proof.
  assert (R : readable ["hello"; "{a:b}"] example_intent).
  { unfold readable. repeat split; try reflexivity.
    - repeat constructor.
    - left. repeat split; discriminate. }
  split; [exact R | ].
  destruct (speech_context_determines_inputs
              example_properties ["hello"; "{a:b}"] ["hello"; "{a:b}"]
              example_intent example_intent eq_refl eq_refl R R eq_refl) as [_ [E _]].
  rewrite E. reflexivity.
Defined.

(** ** The reader of the context message *)

Lemma verbatim_cons c s : verbatim (String c s) = true <-> unescaped c = true /\ verbatim s = true.
Proof. simpl. apply Bool.andb_true_iff. Qed.

Lemma unescaped_read c :
  unescaped c = true ->
  Ascii.eqb c dq_char = false /\ Ascii.eqb c "092"%char = false /\
  (32 <=? nat_of_ascii c)%nat = true.
Proof.
  unfold unescaped. destruct (Ascii.eqb c dq_char), (Ascii.eqb c "092"%char); simpl; auto;
    discriminate.
Qed.

Lemma read_chars_verbatim s r :
  verbatim s = true -> read_chars (s +++ String dq_char r) = Some (s, r).
Proof.
  induction s as [ | c s IH]; intros H; [reflexivity | ].
  apply verbatim_cons in H. destruct H as [Hc Hs].
  destruct (unescaped_read c Hc) as [E1 [E2 E3]].
  cbn [String.append read_chars]. rewrite E1, E2, E3, (IH Hs). reflexivity.
Qed.

Lemma read_string_quoted s r :
  verbatim s = true -> read_string (dq +++ s +++ dq +++ r) = Some (s, r).
Proof. intros H. unfold read_string. cbn. apply read_chars_verbatim. exact H. Qed.

Lemma read_member_named name r :
  verbatim name = true ->
  read_member name (dq +++ name +++ dq +++ ":" +++ r) = Some r.
Proof.
  intros H. unfold read_member. rewrite (read_string_quoted name _ H), String.eqb_refl.
  reflexivity.
Qed.

Lemma read_text_item_written x r :
  verbatim x = true -> read_text_item (text_item x +++ r) = Some (x, r).
Proof.
  intros H. unfold read_text_item, text_item. rewrite !append_assoc.
  change (expect "{" ("{" +++ ?s)) with (Some s). cbv beta iota.
  rewrite (read_member_named "Text") by reflexivity.
  rewrite (read_string_quoted x _ H). reflexivity.
Qed.

Lemma read_quoted_written x r :
  verbatim x = true -> read_string (quoted x +++ r) = Some (x, r).
Proof.
  intros H. unfold quoted. rewrite !append_assoc. apply read_string_quoted. exact H.
Qed.

Lemma length_append (a b : string) :
  String.length (a +++ b) = (String.length a + String.length b)%nat.
Proof. induction a as [ | c a IH]; simpl; [reflexivity | now rewrite IH]. Qed.

Lemma sep_all_length wrap l r :
  (List.length l < String.length (sep_all wrap l +++ "]" +++ r))%nat.
Proof.
  induction l as [ | x l IH]; [simpl; lia | ].
  cbn [sep_all List.length]. rewrite !append_assoc.
  change ("," +++ ?s) with (String ","%char s). cbn [String.length].
  rewrite length_append. lia.
Qed.

Section Arrays.
Variable read_one : string -> option (string * string).
Variable wrap : string -> string.
Hypothesis read_one_written :
  forall x r, verbatim x = true -> read_one (wrap x +++ r) = Some (x, r).
Hypothesis wrap_opens : forall x r, expect "]" (wrap x +++ r) = None.

Lemma read_rest_written l : forall fuel r,
  Forall (fun s => verbatim s = true) l ->
  (List.length l < fuel)%nat ->
  read_rest read_one fuel (sep_all wrap l +++ "]" +++ r) = Some (l, r).
Proof.
  induction l as [ | x l IH]; intros fuel r Hl Hf.
  - destruct fuel as [ | fuel]; [inversion Hf | reflexivity].
  - destruct fuel as [ | fuel]; [inversion Hf | ].
    inversion Hl as [ | ? ? Hx Hl']; subst.
    cbn [sep_all read_rest]. rewrite !append_assoc.
    change (expect "]" ("," +++ ?s)) with (@None string).
    change (expect "," ("," +++ ?s)) with (Some s). cbv beta iota.
    rewrite (read_one_written x _ Hx). cbv beta iota.
    rewrite IH; [reflexivity | exact Hl' | simpl in Hf; lia].
Qed.

Lemma read_array_written x l r :
  Forall (fun s => verbatim s = true) (x :: l) ->
  read_array read_one ("[" +++ join wrap (x :: l) +++ "]" +++ r) = Some (x :: l, r).
Proof.
  intros Hl. inversion Hl as [ | ? ? Hx Hl']; subst.
  unfold read_array. cbn [join]. rewrite !append_assoc.
  change (expect "[" ("[" +++ ?s)) with (Some s). cbv beta iota.
  rewrite wrap_opens, (read_one_written x _ Hx). cbv beta iota.
  rewrite read_rest_written; [reflexivity | exact Hl' | apply sep_all_length].
Qed.
End Arrays.

Lemma read_items_written x l r :
  Forall (fun s => verbatim s = true) (x :: l) ->
  read_array read_text_item ("[" +++ join text_item (x :: l) +++ "]" +++ r) = Some (x :: l, r).
Proof.
  apply read_array_written; [exact read_text_item_written | ].
  intros y s. unfold text_item. rewrite !append_assoc. reflexivity.
Qed.

Lemma read_quoted_array_written x l r :
  Forall (fun s => verbatim s = true) (x :: l) ->
  read_array read_string ("[" +++ join quoted (x :: l) +++ "]" +++ r) = Some (x :: l, r).
Proof.
  apply read_array_written; [exact read_quoted_written | ].
  intros y s. unfold quoted. rewrite !append_assoc. reflexivity.
Qed.

Lemma read_groups_written x l r :
  Forall (fun s => verbatim s = true) (x :: l) ->
  read_groups (groups_open +++ join text_item (x :: l) +++ "]}]" +++ r) = Some (x :: l, r).
Proof.
  intros H. unfold read_groups, groups_open. rewrite !append_assoc.
  change (": [" +++ ?s) with (":" +++ " [" +++ s).
  change (":[" +++ ?s) with (":" +++ "[" +++ s).
  change ("]}]" +++ ?s) with ("]" +++ "}]" +++ s).
  rewrite (read_member_named "Groups" (" [" +++ _)) by reflexivity.
  change (expect "[" (" [" +++ ?s)) with (Some s). cbv beta iota.
  change (expect "{" ("{" +++ ?s)) with (Some s). cbv beta iota.
  rewrite (read_member_named "Type") by reflexivity.
  rewrite (read_string_quoted "Generic") by reflexivity. cbv beta iota.
  change (negb ("Generic" =? "Generic")%string) with false. cbv beta iota.
  change (expect "," ("," +++ ?s)) with (Some s). cbv beta iota.
  rewrite (read_member_named "Items" ("[" +++ _)) by reflexivity.
  rewrite (read_items_written x l _ H). reflexivity.
Qed.

Lemma read_grammars_written x l r :
  Forall (fun s => verbatim s = true) (x :: l) ->
  read_grammars (grammars_open +++ join quoted (x :: l) +++ "]" +++ r) = Some (x :: l, r).
Proof.
  intros H. unfold read_grammars, grammars_open. rewrite !append_assoc.
  change (": [" +++ ?s) with (":" +++ " [" +++ s).
  rewrite (read_member_named "ReferenceGrammars" (" [" +++ _)) by reflexivity.
  unfold read_array at 1.
  change (expect "[" (" [" +++ ?s)) with (expect "[" ("[" +++ s)).
  fold (read_array read_string ("[" +++ join quoted (x :: l) +++ "]" +++ r)).
  apply read_quoted_array_written. exact H.
Qed.

Lemma read_dgi_written items grammars r :
  Forall (fun s => verbatim s = true) items ->
  Forall (fun s => verbatim s = true) grammars ->
  string_empty (dgi_payload items grammars) = false ->
  read_dgi (dgi_payload items grammars +++ r) = Some ((grammars, items), r).
Proof.
  intros Hi Hg Hn. unfold read_dgi, dgi_payload in *.
  destruct items as [ | x items], grammars as [ | g grammars]; [discriminate Hn | | | ];
    rewrite !append_assoc;
    change (expect "{" ("{" +++ ?s)) with (Some s); cbv beta iota.
  - change (read_groups (grammars_open +++ ?s)) with (@None (list string * string)).
    cbv beta iota. rewrite (read_grammars_written g grammars _ Hg). reflexivity.
  - rewrite (read_groups_written x items _ Hi). reflexivity.
  - rewrite (read_groups_written x items _ Hi). cbv beta iota.
    change (expect "," ("," +++ ?s)) with (Some s). cbv beta iota.
    rewrite (read_grammars_written g grammars _ Hg). reflexivity.
Qed.

Lemma read_intent_written provider id key r :
  verbatim provider = true -> verbatim id = true -> verbatim key = true ->
  read_intent (intent_payload provider id key +++ r)
  = Some ({| intent_provider := provider; intent_id := id; intent_key := key |}, r).
Proof.
  intros Hp Hi Hk. unfold read_intent, intent_payload. rewrite !append_assoc.
  change (expect "{" ("{" +++ ?s)) with (Some s). cbv beta iota.
  rewrite (read_member_named "provider") by reflexivity.
  rewrite (read_string_quoted provider _ Hp). cbv beta iota.
  change (expect "," ("," +++ ?s)) with (Some s). cbv beta iota.
  rewrite (read_member_named "id") by reflexivity.
  rewrite (read_string_quoted id _ Hi). cbv beta iota.
  change (expect "," ("," +++ ?s)) with (Some s). cbv beta iota.
  rewrite (read_member_named "key") by reflexivity.
  rewrite (read_string_quoted key _ Hk). reflexivity.
Qed.

Lemma intent_payload_not_empty provider id key :
  string_empty (intent_payload provider id key) = false.
Proof. reflexivity. Qed.

(** The context message of two payloads read back. *)
Lemma read_context_written items grammars info :
  Forall (fun s => verbatim s = true) items ->
  Forall (fun s => verbatim s = true) grammars ->
  verbatim (intent_provider info) = true ->
  verbatim (intent_id info) = true ->
  verbatim (intent_key info) = true ->
  read_speech_context
    (context_payload (dgi_payload items grammars)
       (intent_payload (intent_provider info) (intent_id info) (intent_key info)))
  = Some ((grammars, items), info) /\
  (info = no_intent ->
   read_speech_context (context_payload (dgi_payload items grammars) "")
   = Some ((grammars, items), info)).
Proof.
  intros Hi Hg Hp Hd Hk.
  assert (I : {| intent_provider := intent_provider info; intent_id := intent_id info;
                 intent_key := intent_key info |} = info) by (destruct info; reflexivity).
  unfold context_payload. rewrite intent_payload_not_empty.
  change (string_empty "") with true.
  destruct (string_empty (dgi_payload items grammars)) eqn:E.
  - assert (items = [] /\ grammars = []) as [-> ->].
    { destruct items, grammars; try discriminate E; auto. }
    split; [ | intros ->; reflexivity].
    unfold read_speech_context, intent_key_. rewrite !append_assoc.
    change (string_empty ("{" +++ ?s)) with false. cbv beta iota.
    change (expect "{" ("{" +++ ?s)) with (Some s). cbv beta iota.
    change (read_member "dgi" (dq +++ "intent" +++ ?s)) with (@None string). cbv beta iota.
    rewrite (read_member_named "intent") by reflexivity.
    rewrite (read_intent_written _ _ _ _ Hp Hd Hk), I. reflexivity.
  - split.
    + unfold read_speech_context, dgi_key, intent_key_. rewrite !append_assoc.
      change (string_empty ("{" +++ ?s)) with false. cbv beta iota.
      change (expect "{" ("{" +++ ?s)) with (Some s). cbv beta iota.
      rewrite (read_member_named "dgi") by reflexivity.
      rewrite (read_dgi_written items grammars _ Hi Hg E). cbv beta iota.
      change (expect "," ("," +++ ?s)) with (Some s). cbv beta iota.
      rewrite (read_member_named "intent") by reflexivity.
      rewrite (read_intent_written _ _ _ _ Hp Hd Hk), I. reflexivity.
    + intros ->.
      unfold read_speech_context, dgi_key. rewrite !append_assoc.
      change (string_empty ("{" +++ ?s)) with false. cbv beta iota.
      change (expect "{" ("{" +++ ?s)) with (Some s). cbv beta iota.
      rewrite (read_member_named "dgi") by reflexivity.
      rewrite (read_dgi_written items grammars _ Hi Hg E). reflexivity.
Qed.

Lemma verbatim_substring s : forall n m, verbatim s = true -> verbatim (String.substring n m s) = true.
Proof.
  induction s as [ | c s IH]; intros n m H.
  - destruct n, m; reflexivity.
  - apply verbatim_cons in H. destruct H as [Hc Hs].
    destruct n as [ | n]; simpl.
    + destruct m as [ | m]; [reflexivity | ].
      apply verbatim_cons. split; [exact Hc | apply IH; exact Hs].
    + apply IH. exact Hs.
Qed.

Lemma verbatim_replace_first a b s :
  unescaped b = true -> verbatim s = true -> verbatim (replace_first a b s) = true.
Proof.
  intros Hb. induction s as [ | c s IH]; intros H; simpl; [reflexivity | ].
  apply verbatim_cons in H. destruct H as [Hc Hs].
  destruct (Ascii.eqb c a); apply verbatim_cons; auto.
Qed.

Lemma verbatim_grammars_of l :
  Forall (fun s => verbatim s = true) l -> Forall (fun s => verbatim s = true) (grammars_of l).
Proof.
  unfold grammars_of. induction 1 as [ | s l Hs _ IH]; simpl; [constructor | ].
  destruct (is_reference_grammar s); simpl; [constructor | ]; auto.
  unfold reference_of. apply verbatim_replace_first; [reflexivity | ].
  apply verbatim_substring. exact Hs.
Qed.

Lemma verbatim_items_of l :
  Forall (fun s => verbatim s = true) l -> Forall (fun s => verbatim s = true) (items_of l).
Proof.
  unfold items_of. induction 1 as [ | s l Hs _ IH]; simpl; [constructor | ].
  destruct (is_reference_grammar s); simpl; [ | constructor]; auto.
Qed.

(** The builder escapes nothing: two backslashes are written as they are,
    which in JSON spells one. *)
Lemma escapes_are_not_written :
  read_speech_context (speech_context example_properties [escaped_item] no_intent)
  = Some (([], ["a" +++ backslash +++ "b"]), no_intent) /\
  sort_listen_for [escaped_item] = ([], [escaped_item]) /\
  escaped_item <> "a" +++ backslash +++ "b".
Proof. split; [vm_compute; reflexivity | split; [reflexivity | discriminate]]. Qed.

(** C9, amended.  With both suppressors off, for listen-for lists and
    intent triples whose strings hold no double quote, no backslash and no
    control character, and whose triple is given in full or not at all, the
    payload read back as JSON gives the reference grammars, the generic
    items and the triple it was built from; a member that is not there, and
    the empty payload, for which no message is sent, stand for empty lists
    and an empty triple.  An entry is a reference grammar exactly when it
    is longer than three characters, starts with an opening brace, ends
    with a closing brace and holds a colon; the grammars are those entries,
    braces stripped and the first colon replaced by a slash, the items are
    the others, both in the order of the list. *)
Theorem speech_context_reads_back :
  forall (props : NamedProperties) (listenForList : list string) (info : IntentInfo),
    USP_NoDGI props = false ->
    USP_NoIntentJson props = false ->
    spelled_out listenForList info ->
    read_speech_context (speech_context props listenForList info)
      = Some (sort_listen_for listenForList, info) /\
    sort_listen_for listenForList
      = (map reference_of (filter is_reference_grammar listenForList),
         filter (fun s => negb (is_reference_grammar s)) listenForList) /\
    (forall s, is_reference_grammar s = true <-> looks_like_reference s).
Proof.
  intros props l info Nd Ni [Hl [Hp [Hi [Hk Full]]]].
  split; [ | split; [apply sort_listen_for_eq | apply is_reference_grammar_iff]].
  unfold speech_context.
  rewrite GetSpeechContextJson_eq, GetDgiJson_eq, Nd, sort_listen_for_eq.
  destruct (read_context_written (items_of l) (grammars_of l) info
              (verbatim_items_of l Hl) (verbatim_grammars_of l Hl) Hp Hi Hk) as [R1 R2].
  destruct (intent_json_readable props info Ni Full) as [[E _] | [E [Ep [Ei Ek]]]];
    cbv zeta in E; rewrite E.
  - exact R1.
  - apply R2. apply IntentInfo_eq; assumption.
Qed.

Lemma speech_context_reads_back_witness :
  spelled_out ["hello"; "{a:b}"] example_intent /\
  read_speech_context (speech_context example_properties ["hello"; "{a:b}"] example_intent)
    = Some ((["a/b"], ["hello"]), example_intent).
Proof.
  assert (R : spelled_out ["hello"; "{a:b}"] example_intent).
  { unfold spelled_out. repeat split; try reflexivity.
    - repeat constructor.
    - left. repeat split; discriminate. }
  split; [exact R | ].
  destruct (speech_context_reads_back example_properties ["hello"; "{a:b}"] example_intent
              eq_refl eq_refl R) as [E _].
  exact E.
Defined.

(** ** Around the end of a turn and of the adapter *)

(** When no intent response arrives, the end of the turn fires the one
    final result of the pending phrase. *)
Lemma intent_never_came_fires_once :
  final_results (run [turn_end] waiting_for_intent) = [(5, phrase_result_without_luis)] /\
  state_pair (run [turn_end] waiting_for_intent) = (AudioState.Stopping, UspState.Idle) /\
  m_finalResultMessageToFireLater (run [turn_end] waiting_for_intent) = SpeechPhraseMsg_default.
Proof. repeat split. Qed.

Lemma usp_calls_app l1 l2 : usp_calls (l1 ++ l2) = usp_calls l1 ++ usp_calls l2.
Proof. unfold usp_calls. apply flat_map_app. Qed.

Lemma usp_calls_to_site l c : usp_calls (l ++ [ToSite c]) = usp_calls l.
Proof. rewrite usp_calls_app. simpl. apply app_nil_r. Qed.

(** In Zombie no stimulus reaches the transport: every send is guarded by
    the state, and the session has been dropped. *)
Lemma zombie_makes_no_transport_call (s : Stimulus) (a : Adapter) :
  m_uspState a = UspState.Zombie ->
  usp_calls (events (exec (handle s) a)) = usp_calls (events a) /\
  m_uspState (exec (handle s) a) = UspState.Zombie.
Proof.
  intros H. destruct_adapter a. simpl in H. subst usp.
  destruct s as [ | | ? | [f|] | ? ? | ? | ? | ? | ? | ? | ? | ? | ? ? | st ? | ? | | ? | path ? ? ? ];
    unfold exec, UspWrite_Flush, call_site, emit; unfold_ops; simpl;
    try (split; reflexivity);
    try (destruct handle_; split; reflexivity);
    try (destruct audio; split; reflexivity);
    try (rewrite usp_calls_to_site; split; reflexivity);
    try (destruct st; simpl; rewrite ?usp_calls_to_site; split; reflexivity);
    try (destruct (String.eqb path "response"); split; reflexivity);
    destruct singleShot, audio; simpl; rewrite ?usp_calls_to_site; split; reflexivity.
Qed.

(** ** Frames of the chunking uploader *)

#[local] Arguments wrap_size_t : simpl never.
#[local] Arguments memcpy : simpl never.
#[local] Arguments Z.min : simpl never.
#[local] Arguments Z.sub : simpl never.
#[local] Arguments Z.add : simpl never.
#[local] Arguments Z.gtb : simpl never.
#[local] Arguments Z.eqb : simpl never.

(** One pass of the loop of [UspWrite_Buffered] when it is not flushing. *)
Lemma UspWrite_Buffered_loop_step fuel buffer n a :
  session_usable a ->
  m_buffer a <> None -> m_ptrIntoBuffer a <> None ->
  UspWrite_Buffered_loop (S fuel) false buffer n a =
  if n =? 0 then (Done tt, after_full_frame a)
  else UspWrite_Buffered_loop fuel false buffer
         (n - Z.min n (m_bytesLeftInBuffer (after_full_frame a)))
         (bytes_copied buffer (Z.min n (m_bytesLeftInBuffer (after_full_frame a)))
                       (after_full_frame a)).
Proof.
  intros [Hh [Ht Hz]] Hb Hp. destruct_adapter a.
  simpl in *.
  destruct handle_ as [c | ]; [ | congruence].
  destruct buffer_ as [bytes | ]; [ | congruence].
  destruct ptr as [off | ]; [ | congruence].
  unfold after_full_frame, frame_sent, bytes_copied.
  cbn [UspWrite_Buffered_loop].
  unfold UspWrite_Actual, reset_ptrIntoBuffer, call_usp, emit, IsState_usp, when, bind, gets, ret, modify.
  cbn -[UspWrite_Buffered_loop].
  destruct ((bytesIn >? 0) && (bytesLeft =? 0)); cbn -[UspWrite_Buffered_loop];
    destruct usp; try congruence; cbn -[UspWrite_Buffered_loop];
    destruct (n =? 0); reflexivity.
Qed.

Lemma wrap_size_t_small n : 0 <= n < 2 ^ 64 -> wrap_size_t n = n.
Proof. intros H. unfold wrap_size_t. apply Z.mod_small. exact H. Qed.

Lemma after_full_frame_ready a :
  chunk_ready a -> session_usable a ->
  chunk_ready (after_full_frame a) /\ session_usable (after_full_frame a) /\
  m_bytesInBuffer (after_full_frame a) = m_bytesInBuffer a /\
  0 < m_bytesLeftInBuffer (after_full_frame a) /\
  exists frames,
    events (after_full_frame a) = events a ++ audio_events frames /\ full_frames a frames.
Proof.
  intros [bytes [Hb [Hl [Hin [Hleft Hp]]]]] Hu. unfold after_full_frame.
  destruct (Z.gtb_spec (m_bytesInBuffer a) 0) as [G | G]; [ | lia].
  destruct (Z.eqb_spec (m_bytesLeftInBuffer a) 0) as [E | E]; cbn [andb].
  - destruct_adapter a.
    unfold frame_sent, chunk_ready, session_usable in *. simpl in *. subst.
    rewrite Z.sub_0_r, wrap_size_t_small by lia.
    split; [ | split; [exact Hu | split; [reflexivity | split; [lia | ]]]].
    + exists bytes. split; [reflexivity | split; [reflexivity | ]].
      split; [lia | split; [lia | ]]. f_equal. lia.
    + exists [firstn (Z.to_nat (Z.of_nat (List.length bytes))) bytes]. split; [reflexivity | ].
      constructor; [ | constructor]. rewrite Nat2Z.id, firstn_all. reflexivity.
  - split; [ | split; [exact Hu | split; [reflexivity | split; [lia | ]]]].
    + exists bytes. repeat split; try tauto; lia.
    + exists []. split; [unfold audio_events; simpl; now rewrite app_nil_r | constructor].
Qed.

Lemma memcpy_length bytes off buffer count :
  0 <= off -> 0 <= count ->
  off + count <= Z.of_nat (List.length bytes) ->
  count <= Z.of_nat (List.length buffer) ->
  List.length (memcpy bytes off buffer count) = List.length bytes.
Proof.
  intros Ho Hc Hb Hs. unfold memcpy.
  rewrite !length_app, !length_firstn, length_skipn. lia.
Qed.

Lemma bytes_copied_ready buffer count a :
  chunk_ready a -> session_usable a ->
  0 <= count <= m_bytesLeftInBuffer a ->
  count <= Z.of_nat (List.length buffer) ->
  chunk_ready (bytes_copied buffer count a) /\ session_usable (bytes_copied buffer count a) /\
  m_bytesInBuffer (bytes_copied buffer count a) = m_bytesInBuffer a /\
  events (bytes_copied buffer count a) = events a.
Proof.
  intros [bytes [Hb [Hl [Hin [Hleft Hp]]]]] Hu Hc Hs.
  destruct_adapter a.
  unfold bytes_copied, chunk_ready, session_usable in *. simpl in *. subst. simpl.
  split; [ | split; [exact Hu | split; reflexivity]].
  exists (memcpy bytes (Z.of_nat (List.length bytes) - bytesLeft) buffer count).
  split; [reflexivity | split; [ | split; [lia | split; [lia | ]]]].
  - rewrite memcpy_length; lia.
  - f_equal. lia.
Qed.

(** A write through the buffer returns, hands over full frames only, and
    leaves the buffer ready for the next write. *)
Lemma UspWrite_Buffered_loop_frames fuel : forall buffer n a,
  chunk_ready a -> session_usable a ->
  0 <= n <= Z.of_nat (List.length buffer) ->
  (Z.to_nat n < fuel)%nat ->
  exists a' frames,
    UspWrite_Buffered_loop fuel false buffer n a = (Done tt, a') /\
    chunk_ready a' /\ session_usable a' /\
    m_bytesInBuffer a' = m_bytesInBuffer a /\
    events a' = events a ++ audio_events frames /\
    full_frames a frames.
Proof.
  induction fuel as [ | fuel IH]; intros buffer n a Hc Hu Hn Hf; [lia | ].
  assert (Hb : m_buffer a <> None) by (destruct Hc as [b [E _]]; congruence).
  assert (Hp : m_ptrIntoBuffer a <> None) by (destruct Hc as [b [_ [_ [_ [_ E]]]]]; congruence).
  rewrite (UspWrite_Buffered_loop_step fuel buffer n a Hu Hb Hp).
  destruct (after_full_frame_ready a Hc Hu) as [Hc1 [Hu1 [Hi1 [Hl1 [frames1 [He1 Hf1]]]]]].
  destruct (Z.eqb_spec n 0) as [E | E].
  - exists (after_full_frame a), frames1.
    split; [reflexivity | split; [exact Hc1 | split; [exact Hu1 | split; [exact Hi1 | ]]]].
    split; [exact He1 | exact Hf1].
  - set (a1 := after_full_frame a) in *.
    set (k := Z.min n (m_bytesLeftInBuffer a1)).
    assert (Hk : 0 < k <= n /\ k <= m_bytesLeftInBuffer a1) by (subst k; lia).
    destruct (bytes_copied_ready buffer k a1 Hc1 Hu1) as [Hc2 [Hu2 [Hi2 He2]]]; [lia | lia | ].
    destruct (IH buffer (n - k) (bytes_copied buffer k a1) Hc2 Hu2) as
      [a' [frames2 [R [Hc' [Hu' [Hi' [He' Hf']]]]]]]; [lia | lia | ].
    exists a', (frames1 ++ frames2).
    split; [exact R | split; [exact Hc' | split; [exact Hu' | split; [ | split]]]].
    + congruence.
    + rewrite He', He2, He1. unfold audio_events. rewrite map_app, app_assoc. reflexivity.
    + unfold full_frames in *. apply Forall_app. split; [exact Hf1 | ].
      rewrite Hi2, Hi1 in Hf'. exact Hf'.
Qed.

(** A write of at least one byte, the buffer being unallocated or ready. *)
Lemma UspWrite_Buffered_frames buffer n a :
  session_usable a ->
  (m_buffer a = None /\ 0 < m_servicePreferedBufferSizeSendingNow a < 2 ^ 64) \/ chunk_ready a ->
  0 < n <= Z.of_nat (List.length buffer) ->
  exists a' frames,
    UspWrite_Buffered buffer n a = (Done tt, a') /\
    chunk_ready a' /\ session_usable a' /\
    events a' = events a ++ audio_events frames /\
    full_frames a' frames.
Proof.
  intros Hu Hc Hn.
  assert (En : (n =? 0) = false) by (apply Z.eqb_neq; lia).
  unfold UspWrite_Buffered. rewrite En.
  destruct Hc as [[Hb Hs] | Hc].
  - destruct_adapter a.
    simpl in Hb, Hs. subst buffer_.
    unfold reset_ptrIntoBuffer, when, bind, gets, modify.
    cbn -[UspWrite_Buffered_loop SpxAllocSharedUint8Buffer].
    match goal with
    | |- context [UspWrite_Buffered_loop ?f false buffer n ?a0] =>
        destruct (UspWrite_Buffered_loop_frames f buffer n a0) as
          [a' [frames [R [Hc' [Hu' [Hi' [He' Hf']]]]]]]
    end.
    + exists (SpxAllocSharedUint8Buffer frameSize). simpl.
      unfold SpxAllocSharedUint8Buffer. rewrite repeat_length.
      split; [reflexivity | split; [lia | split; [lia | split; [lia | ]]]].
      f_equal. lia.
    + exact Hu.
    + lia.
    + lia.
    + exists a', frames. unfold full_frames in *. rewrite Hi'.
      split; [exact R | split; [exact Hc' | split; [exact Hu' | split; [exact He' | exact Hf']]]].
  - destruct Hc as [bytes Hc]. destruct (Hc) as [Hb _].
    unfold when, bind, gets. rewrite Hb. cbn [non_null negb ret].
    destruct (UspWrite_Buffered_loop_frames (S (Z.to_nat n)) buffer n a) as
      [a' [frames [R [Hc' [Hu' [Hi' [He' Hf']]]]]]];
      [exists bytes; exact Hc | exact Hu | lia | lia | ].
    exists a', frames. unfold full_frames in *. rewrite Hi'.
    split; [exact R | split; [exact Hc' | split; [exact Hu' | split; [exact He' | exact Hf']]]].
Qed.

(** The flush hands over what the buffer holds, asks the session to flush
    and releases the buffer. *)
Lemma UspWrite_Flush_partial_frame a bytes :
  session_usable a ->
  m_buffer a = Some bytes ->
  0 <= m_bytesInBuffer a - m_bytesLeftInBuffer a < 2 ^ 64 ->
  exists a',
    UspWrite_Flush a = (Done tt, a') /\
    m_buffer a' = None /\
    events a' = events a ++
                [ToUsp (WriteAudio (firstn (Z.to_nat (m_bytesInBuffer a - m_bytesLeftInBuffer a))
                                           bytes));
                 ToUsp FlushAudio].
Proof.
  intros [Hh [Ht Hz]] Hb Hr.
  destruct_adapter a.
  simpl in *. subst buffer_.
  destruct handle_ as [c | ]; [ | congruence].
  unfold UspWrite_Flush, UspWrite_Buffered. change (Z.to_nat 0) with 0%nat.
  cbn [UspWrite_Buffered_loop]. change (0 =? 0) with true. cbn [orb].
  unfold UspWrite_Actual, reset_ptrIntoBuffer, call_usp, emit,
    IsState_usp, when, bind, gets, ret, modify.
  destruct usp; try congruence;
    (cbn; rewrite wrap_size_t_small by lia; rewrite <- app_assoc; eexists;
     repeat split; reflexivity).
Qed.

(** * Further properties of the code *)

(** ** The end of the adapter *)

Lemma Term_run a : Term a = (Done tt, terminated a).
Proof.
  destruct_adapter a. unfold terminated, call_usp, emit. unfold_ops.
  cbn [m_audioState m_uspState m_handle events]. rewrite AudioState_eqb_refl.
  destruct usp, handle_; cbn; rewrite ?AudioState_eqb_refl, ?app_nil_r; reflexivity.
Qed.

Lemma terminated_Zombie a : m_uspState (terminated a) = UspState.Zombie.
Proof. destruct_adapter a. unfold terminated. simpl. destruct usp; reflexivity. Qed.

(** X1.  [Term] always returns and leaves the adapter in Zombie, whatever
    state it finds: the audio state is kept, the session is dropped (once,
    and only if there is one), the site is told nothing, and a second
    [Term] changes nothing. *)
Theorem Term_ends_in_Zombie :
  forall a : Adapter,
    result_of Term a = Done tt /\
    m_uspState (exec Term a) = UspState.Zombie /\
    m_audioState (exec Term a) = m_audioState a /\
    m_handle (exec Term a) = handle_after_term a /\
    usp_calls (events (exec Term a)) = usp_calls (events a) ++ dropped_by_term a /\
    site_calls (events (exec Term a)) = site_calls (events a) /\
    Term (exec Term a) = (Done tt, exec Term a).
Proof.
  intros a. unfold result_of, exec. rewrite !Term_run. cbn [fst snd].
  split; [reflexivity | split; [apply terminated_Zombie | ]].
  assert (Z : terminated (terminated a) = terminated a).
  { unfold terminated at 1. rewrite terminated_Zombie. reflexivity. }
  rewrite Z.
  destruct_adapter a. unfold terminated, handle_after_term, dropped_by_term. simpl.
  destruct usp; simpl; try (rewrite app_nil_r; repeat split; reflexivity);
    destruct handle_; simpl; unfold usp_calls, site_calls; rewrite ?flat_map_app; simpl;
    rewrite ?app_nil_r; repeat split; reflexivity.
Qed.

(** X2.  Zombie is terminal: whatever stimuli follow, the adapter stays in
    Zombie and makes no further call on the transport. *)
Theorem Zombie_is_terminal :
  forall (l : list Stimulus) (a : Adapter),
    m_uspState a = UspState.Zombie ->
    m_uspState (run l a) = UspState.Zombie /\
    usp_calls (events (run l a)) = usp_calls (events a).
Proof.
  induction l as [ | s l IH]; intros a H; [split; [exact H | reflexivity] | ].
  destruct (zombie_makes_no_transport_call s a H) as [E Z].
  unfold exec in E, Z. simpl.
  destruct (handle s a) as [[[] | hr | | ] a']; simpl in E, Z.
  - destruct (IH a' Z) as [Z' E']. split; [exact Z' | congruence].
  - destruct (IH a' Z) as [Z' E']. split; [exact Z' | congruence].
  - auto.
  - auto.
Qed.

Lemma Zombie_is_terminal_witness :
  m_uspState (run [process_audio [1; 2] 2; turn_end; set_format None; error "late"]
                  terminated_while_sending) = UspState.Zombie /\
  usp_calls (events (run [process_audio [1; 2] 2; turn_end; set_format None; error "late"]
                         terminated_while_sending))
    = usp_calls (events terminated_while_sending).
Proof. apply Zombie_is_terminal. reflexivity. Defined.

(** ** Audio and events outside a turn *)

(** X3.  Audio that arrives while nothing is being sent is dropped, unless
    it is the first audio of a turn (a positive size in (Ready, Idle)): the
    call returns with the adapter untouched. *)
Theorem ProcessAudio_dropped_outside_turn :
  forall (data : list uint8) (size : Z) (a : Adapter),
    m_audioState a <> AudioState.Sending ->
    (state_pair a = (AudioState.Ready, UspState.Idle) -> size <= 0) ->
    ProcessAudio data size a = (Done tt, a).
Proof.
  intros data size a Hs Hr. destruct_adapter a. unfold state_pair in Hr. simpl in Hs, Hr.
  unfold_ops. simpl.
  destruct usp; simpl; try reflexivity;
    destruct (Z.gtb_spec size 0) as [G | G]; simpl;
    destruct audio; simpl; try reflexivity; try congruence;
    try (destruct (size =? 0); reflexivity);
    exfalso; specialize (Hr eq_refl); lia.
Qed.

Lemma ProcessAudio_dropped_witness :
  ProcessAudio [1; 2; 3] 3 example_adapter = (Done tt, example_adapter).
Proof.
  apply ProcessAudio_dropped_outside_turn; [discriminate | intros H; discriminate H].
Defined.

(** X4.  A service event that does not find the protocol state it is meant
    for is dropped: turn.start outside WaitingForTurnStart; speech start,
    hypotheses and phrases outside WaitingForPhrase; a fragment outside
    WaitingForPhrase and WaitingForIntent; a user message that is no
    response or comes outside WaitingForIntent. *)
Theorem out_of_turn_events_are_dropped :
  forall (s : Stimulus) (a : Adapter), out_of_turn s a -> handle s a = (Done tt, a).
Proof.
  intros s a H. destruct_adapter a.
  destruct s as [ | | ? | ? | ? ? | ? | ? | ? | ? | ? | ? | ? | ? ? | ? ? | ? | | ? | path ? ? ? ];
    simpl in H; try contradiction; unfold_ops; simpl.
  - destruct usp; try congruence; reflexivity.
  - destruct usp; try congruence; reflexivity.
  - destruct H as [H1 H2]. destruct usp, audio; try congruence; reflexivity.
  - destruct usp, audio, expectIntent, (phrase_recognitionStatus message), recoMode;
      try congruence; reflexivity.
  - destruct usp; try congruence; reflexivity.
  - destruct usp, audio, recoMode; try congruence; reflexivity.
  - destruct usp, audio; try congruence; reflexivity.
  - destruct (String.eqb_spec path "response") as [E | E]; [ | reflexivity].
    destruct H as [H | H]; [contradiction | ].
    destruct usp; try congruence; reflexivity.
Qed.

Lemma out_of_turn_events_witness :
  handle (speech_phrase example_phrase) turn_opening = (Done tt, turn_opening).
Proof.
  apply (out_of_turn_events_are_dropped (speech_phrase example_phrase) turn_opening).
  simpl. discriminate.
Defined.

(** ** Events in turn *)

(** X5.  turn.start in WaitingForTurnStart, and speech start and a speech
    hypothesis in WaitingForPhrase, are relayed: the site is told once, the
    audio state is kept, and only turn.start moves the protocol state, to
    WaitingForPhrase. *)
Theorem in_turn_events_reach_the_site :
  forall (s : Stimulus) (c : SiteCall) (a : Adapter),
    relayed s = Some c ->
    meant_for s = Some (m_uspState a) ->
    result_of (handle s) a = Done tt /\
    events (exec (handle s) a) = events a ++ [ToSite c] /\
    state_pair (exec (handle s) a) = (m_audioState a, state_after s a).
Proof.
  intros s c a Hr Hm. destruct_adapter a.
  destruct s; simpl in Hr, Hm; try discriminate Hr;
    injection Hr as <-; injection Hm as <-;
    unfold result_of, exec, state_pair, fragment_result, FireIntermediate, call_site, emit;
    unfold_ops; simpl; rewrite ?AudioState_eqb_refl; repeat split; reflexivity.
Qed.

Lemma in_turn_events_witness :
  events (exec (handle (speech_hypothesis example_hypothesis)) in_phrase)
    = events in_phrase ++
      [ToSite (FireAdapterResult_Intermediate 2 (fragment_result example_hypothesis))] /\
  events (exec (handle (turn_start "svc1")) turn_opening)
    = events turn_opening ++ [ToSite (AdapterStartedTurn "svc1")].
Proof.
  split.
  - apply (in_turn_events_reach_the_site (speech_hypothesis example_hypothesis) _ in_phrase);
      reflexivity.
  - apply (in_turn_events_reach_the_site (turn_start "svc1") _ turn_opening); reflexivity.
Defined.

Lemma OnSpeechPhrase_in_turn message a :
  m_uspState a = UspState.WaitingForPhrase ->
  OnSpeechPhrase message a = (Done tt, phrase_kept_or_fired message a).
Proof.
  intros H. destruct_adapter a. simpl in H. subst usp.
  unfold phrase_kept_or_fired, held_for_intent, after_phrase, phrase_result. unfold_ops.
  unfold FireFinalResultLater, FireFinalResultNow, call_site, emit. unfold_ops. simpl.
  destruct audio, expectIntent, (phrase_recognitionStatus message), recoMode; reflexivity.
Qed.

(** X6.  A phrase that finds the adapter waiting for one is never lost.  If
    an intent is expected and the status is Success it is kept in the slot
    and the adapter waits for the intent, the site being told nothing yet;
    otherwise its final result is fired at once, and the adapter waits for
    the end of the turn (interactive) or for the next phrase. *)
Theorem phrase_is_kept_or_fired :
  forall (message : SpeechPhraseMsg) (a : Adapter),
    m_uspState a = UspState.WaitingForPhrase ->
    result_of (OnSpeechPhrase message) a = Done tt /\
    (held_for_intent message a = true ->
     events (exec (OnSpeechPhrase message) a) = events a /\
     m_uspState (exec (OnSpeechPhrase message) a) = UspState.WaitingForIntent /\
     m_finalResultMessageToFireLater (exec (OnSpeechPhrase message) a) = message) /\
    (held_for_intent message a = false ->
     events (exec (OnSpeechPhrase message) a)
       = events a ++ [ToSite (FireAdapterResult_FinalResult (phrase_offset message)
                                                            (phrase_result message))] /\
     m_uspState (exec (OnSpeechPhrase message) a) = after_phrase a /\
     m_finalResultMessageToFireLater (exec (OnSpeechPhrase message) a)
       = m_finalResultMessageToFireLater a).
Proof.
  intros message a H. unfold result_of, exec.
  rewrite (OnSpeechPhrase_in_turn message a H). cbn [fst snd].
  split; [reflexivity | ].
  unfold phrase_kept_or_fired.
  split; intros K; rewrite K; destruct_adapter a; repeat split; reflexivity.
Qed.

Lemma phrase_is_kept_or_fired_witness :
  result_of (OnSpeechPhrase example_phrase) in_phrase = Done tt /\
  m_uspState (exec (OnSpeechPhrase example_phrase) in_phrase) = UspState.WaitingForIntent /\
  m_finalResultMessageToFireLater (exec (OnSpeechPhrase example_phrase) in_phrase)
    = example_phrase.
Proof.
  destruct (phrase_is_kept_or_fired example_phrase in_phrase eq_refl) as [R [K _]].
  destruct (K eq_refl) as [_ [U S]].
  split; [exact R | split; [exact U | exact S]].
Defined.

Lemma OnSpeechFragment_late message a :
  m_uspState a = UspState.WaitingForIntent ->
  OnSpeechFragment message a =
  (Done tt,
   set_events
     (events a ++
      [ToSite (FireAdapterResult_FinalResult
                 (phrase_offset (m_finalResultMessageToFireLater a))
                 (phrase_result (m_finalResultMessageToFireLater a)));
       ToSite (FireAdapterResult_Intermediate (msg_offset message) (fragment_result message))])
     (set_m_finalResultMessageToFireLater SpeechPhraseMsg_default
        (set_m_uspState UspState.WaitingForPhrase a))).
Proof.
  intros H. destruct_adapter a. simpl in H. subst usp.
  unfold phrase_result, fragment_result. unfold_ops.
  unfold FireFinalResultLater_WaitingForIntentComplete, FireFinalResultNow, FireIntermediate,
    call_site, emit. unfold_ops. simpl.
  destruct audio; simpl; rewrite <- ?app_assoc; reflexivity.
Qed.

(** X7.  A fragment that arrives while the adapter waits for an intent
    ends the wait: the final result of the pending phrase is fired without
    intent, then the fragment as an intermediate result; the slot is
    emptied and the adapter waits for a phrase again. *)
Theorem fragment_resolves_pending_phrase :
  forall (message : SpeechTextMsg) (a : Adapter),
    m_uspState a = UspState.WaitingForIntent ->
    result_of (OnSpeechFragment message) a = Done tt /\
    events (exec (OnSpeechFragment message) a)
      = events a ++
        [ToSite (FireAdapterResult_FinalResult
                   (phrase_offset (m_finalResultMessageToFireLater a))
                   (phrase_result (m_finalResultMessageToFireLater a)));
         ToSite (FireAdapterResult_Intermediate (msg_offset message)
                                                (fragment_result message))] /\
    state_pair (exec (OnSpeechFragment message) a)
      = (m_audioState a, UspState.WaitingForPhrase) /\
    m_finalResultMessageToFireLater (exec (OnSpeechFragment message) a)
      = SpeechPhraseMsg_default.
Proof.
  intros message a H. unfold result_of, exec.
  rewrite (OnSpeechFragment_late message a H). cbn [fst snd].
  destruct_adapter a. repeat split; reflexivity.
Qed.

Lemma fragment_resolves_witness :
  final_results (exec (OnSpeechFragment example_hypothesis) waiting_for_intent)
    = [(5, phrase_result example_phrase)] /\
  state_pair (exec (OnSpeechFragment example_hypothesis) waiting_for_intent)
    = (AudioState.Sending, UspState.WaitingForPhrase).
Proof.
  destruct (fragment_resolves_pending_phrase example_hypothesis waiting_for_intent eq_refl)
    as [_ [E [P _]]].
  split.
  - unfold final_results. rewrite E. reflexivity.
  - exact P.
Defined.

(** X8.  A translation whose status is neither success nor error makes both
    translation handlers raise a runtime error and hand the site nothing.
    The hypothesis handler leaves the adapter untouched; the phrase handler
    has by then committed its transition, so the turn moves on although no
    final result was fired. *)
Theorem unknown_translation_status_is_thrown :
  forall (message : TranslationMsg) (a : Adapter),
    unknown_translation_status message ->
    m_uspState a = UspState.WaitingForPhrase ->
    OnTranslationHypothesis message a = (Thrown SPXERR_RUNTIME_ERROR, a) /\
    OnTranslationPhrase message a
      = (Thrown SPXERR_RUNTIME_ERROR, set_m_uspState (after_phrase a) a).
Proof.
  intros message a Hs H. destruct_adapter a. simpl in H. subst usp.
  unfold unknown_translation_status in Hs.
  unfold after_phrase. unfold_ops.
  unfold translation_result, translation_text_status, call_site, emit.
  unfold_ops. simpl.
  destruct (translationStatus (tmsg_translation message)); try contradiction.
  split; [reflexivity | ].
  destruct recoMode, audio; reflexivity.
Qed.

Lemma unknown_translation_status_witness :
  OnTranslationPhrase odd_translation in_phrase
    = (Thrown SPXERR_RUNTIME_ERROR, set_m_uspState UspState.WaitingForTurnEnd in_phrase).
Proof.
  apply (unknown_translation_status_is_thrown odd_translation in_phrase); [exact I | reflexivity].
Defined.

(** ** Setting and clearing the format *)

(** X9.  A format is accepted in (Idle, Idle) only: in every other state
    [SetFormat] with a format returns with the adapter untouched, so no
    session is opened and the stored format is not replaced. *)
Theorem SetFormat_refused_outside_idle :
  forall (format : WAVEFORMATEX) (a : Adapter),
    state_pair a <> (AudioState.Idle, UspState.Idle) ->
    SetFormat (Some format) a = (Done tt, a).
Proof.
  intros format a H. destruct_adapter a. unfold state_pair in H. simpl in H.
  unfold_ops. simpl.
  destruct usp, audio; simpl; try reflexivity; congruence.
Qed.

Lemma SetFormat_refused_witness :
  SetFormat (Some tiny_format) turn_opening = (Done tt, turn_opening).
Proof. apply SetFormat_refused_outside_idle. discriminate. Defined.

(** X10.  [SetFormat] with a null format stops the audio side from any
    state but Error and Zombie: the audio state becomes Idle, the format is
    cleared, the site is told that the stop has completed, and the protocol
    state and the session are left as they were. *)
Theorem SetFormat_null_stops :
  forall a : Adapter,
    m_uspState a <> UspState.Error ->
    m_uspState a <> UspState.Zombie ->
    result_of (SetFormat None) a = Done tt /\
    m_format (exec (SetFormat None) a) = None /\
    state_pair (exec (SetFormat None) a) = (AudioState.Idle, m_uspState a) /\
    m_handle (exec (SetFormat None) a) = m_handle a /\
    events (exec (SetFormat None) a) = events a ++ [ToSite AdapterCompletedSetFormatStop].
Proof.
  intros a He Hz. destruct_adapter a. simpl in He, Hz.
  unfold result_of, exec, state_pair, call_site, emit. unfold_ops. simpl.
  destruct usp, audio; try congruence; repeat split; reflexivity.
Qed.

Lemma SetFormat_null_stops_witness :
  m_format (exec (SetFormat None) in_phrase) = None /\
  state_pair (exec (SetFormat None) in_phrase) = (AudioState.Idle, UspState.WaitingForPhrase) /\
  m_handle (exec (SetFormat None) in_phrase) = m_handle in_phrase.
Proof.
  destruct (SetFormat_null_stops in_phrase) as [_ [F [P [H _]]]];
    [discriminate | discriminate | ].
  split; [exact F | split; [exact P | exact H]].
Defined.

(** ** The end of a turn *)

Lemma site_calls_app l1 l2 : site_calls (l1 ++ l2) = site_calls l1 ++ site_calls l2.
Proof. unfold site_calls. apply flat_map_app. Qed.

Lemma site_calls_uploads l : Forall is_upload l -> site_calls l = [].
Proof.
  induction 1 as [ | e l He _ IH]; [reflexivity | ].
  destruct e as [c | [ | | | | ]]; simpl in *; try contradiction; exact IH.
Qed.

Lemma uploaded_site_calls a a' : uploaded a a' -> site_calls (events a') = site_calls (events a).
Proof.
  intros [_ _ _ _ _ _ _ [l [e u]]].
  rewrite e, site_calls_app, (site_calls_uploads l u), app_nil_r. reflexivity.
Qed.

Lemma UspWrite_Flush_is_Done a : exists a', UspWrite_Flush a = (Done tt, a').
Proof.
  destruct_adapter a.
  unfold UspWrite_Flush, UspWrite_Buffered. change (Z.to_nat 0) with 0%nat.
  cbn [UspWrite_Buffered_loop]. change (0 =? 0) with true. cbn [orb].
  unfold UspWrite_Actual, reset_ptrIntoBuffer, call_usp, emit,
    IsState_usp, when, bind, gets, ret, modify.
  destruct usp, handle_, buffer_; cbn; eexists; reflexivity.
Qed.

Lemma UspWrite_Flush_returns a :
  exists a', UspWrite_Flush a = (Done tt, a') /\ uploaded a a'.
Proof.
  destruct (UspWrite_Flush_is_Done a) as [a' E].
  exists a'. split; [exact E | ].
  pose proof (uploaded_UspWrite_Flush a) as U. rewrite E in U. exact U.
Qed.

(** The flush in the goal replaced by its outcome, an adapter that differs
    by uploads only. *)
Ltac flush_returns :=
  match goal with
  | |- context [UspWrite_Flush ?x] =>
      let a' := fresh "a'" in
      let E := fresh "E" in
      let U := fresh "U" in
      destruct (UspWrite_Flush_returns x) as [a' [E U]]; rewrite E;
      let S := fresh "S" in
      pose proof (uploaded_site_calls _ _ U) as S;
      cbn [events set_events set_m_uspState set_m_audioState
           set_m_finalResultMessageToFireLater set_m_servicePreferedBufferSizeSendingNow] in S;
      rewrite ?site_calls_app in S; cbn [site_calls flat_map app] in S;
      destruct U as [Up _ _ Us _ _ _ _]; unfold state_pair in Up; simpl in Up, Us |- *;
      injection Up as ? ?
  end.

Lemma OnTurnEnd_expected a :
  m_handle a <> None ->
  turn_can_end a = true ->
  result_of OnTurnEnd a = Done tt /\
  m_uspState (exec OnTurnEnd a) = UspState.Idle /\
  m_audioState (exec OnTurnEnd a) = audio_after_turn a /\
  site_calls (events (exec OnTurnEnd a)) = site_calls (events a) ++ turn_end_calls a /\
  m_finalResultMessageToFireLater (exec OnTurnEnd a)
    = (if is_WaitingForIntent a then SpeechPhraseMsg_default
       else m_finalResultMessageToFireLater a).
Proof.
  intros Hh Hc. destruct_adapter a. unfold turn_can_end in Hc. simpl in Hh, Hc.
  destruct handle_ as [c | ]; [clear Hh | congruence].
  unfold result_of, exec, turn_end_calls, audio_after_turn, is_Sending, is_WaitingForIntent,
    phrase_result.
  unfold_ops.
  unfold FireFinalResultLater_WaitingForIntentComplete, FireFinalResultNow,
    PrepareAudioReadyState, EnsureUspInit, call_site, emit. unfold_ops.
  destruct usp, recoMode; try discriminate Hc; destruct singleShot, audio; simpl;
    try flush_returns; simpl;
    rewrite ?site_calls_app; simpl; rewrite ?app_nil_r;
    repeat split; try reflexivity; try congruence;
    try (rewrite S); rewrite <- ?app_assoc; reflexivity.
Qed.

(** X11.  The end of a turn that comes when it can (WaitingForTurnEnd in
    interactive mode, WaitingForPhrase in the other modes, WaitingForIntent
    in any) always stops the turn, on an adapter that has a session: the
    handler returns, the protocol state is Idle, a phrase still waiting for
    its intent is fired first and the slot emptied, the site is told that
    the turn has stopped, and a single-shot adapter that was sending asks
    for audio idle last; the audio side goes from Sending to Stopping
    (single shot) or Ready. *)
Theorem turn_end_stops_the_turn :
  forall a : Adapter,
    m_handle a <> None ->
    turn_can_end a = true ->
    result_of OnTurnEnd a = Done tt /\
    state_pair (exec OnTurnEnd a) = (audio_after_turn a, UspState.Idle) /\
    site_calls (events (exec OnTurnEnd a)) = site_calls (events a) ++ turn_end_calls a /\
    m_finalResultMessageToFireLater (exec OnTurnEnd a)
      = (if is_WaitingForIntent a then SpeechPhraseMsg_default
         else m_finalResultMessageToFireLater a).
Proof.
  intros a Hh Hc.
  destruct (OnTurnEnd_expected a Hh Hc) as [R [U [A [S F]]]].
  unfold state_pair. rewrite U, A. auto.
Qed.

Lemma turn_end_stops_the_turn_witness :
  state_pair (exec OnTurnEnd waiting_for_intent) = (AudioState.Stopping, UspState.Idle) /\
  site_calls (events (exec OnTurnEnd waiting_for_intent))
    = site_calls (events waiting_for_intent) ++
      [FireAdapterResult_FinalResult 5 (phrase_result example_phrase);
       AdapterStoppedTurn; AdapterRequestingAudioIdle].
Proof.
  destruct (turn_end_stops_the_turn waiting_for_intent) as [_ [P [S _]]];
    [discriminate | reflexivity | ].
  split; [exact P | exact S].
Defined.

Lemma final_results_site_calls a a' l :
  site_calls (events a') = site_calls (events a) ++ l ->
  final_results a' =
  final_results a ++
  flat_map (fun c => match c with
                     | FireAdapterResult_FinalResult offset result => [(offset, result)]
                     | _ => []
                     end) l.
Proof. intros H. unfold final_results. rewrite H, flat_map_app. reflexivity. Qed.

(** X12.  A phrase accepted in a turn is delivered exactly once by the end
    of that turn when no intent response comes in between, in every
    recognition mode and whether or not an intent is expected: after the
    phrase and the end of the turn the site has been handed one more final
    result, that of the phrase, and the protocol state is Idle. *)
Theorem phrase_is_delivered_once :
  forall (message : SpeechPhraseMsg) (a : Adapter),
    m_uspState a = UspState.WaitingForPhrase ->
    m_handle a <> None ->
    final_results (run [speech_phrase message; turn_end] a)
      = final_results a ++ [(phrase_offset message, phrase_result message)] /\
    m_uspState (run [speech_phrase message; turn_end] a) = UspState.Idle.
Proof.
  intros message a Hu Hh.
  cbn [run handle]. rewrite (OnSpeechPhrase_in_turn message a Hu).
  set (a1 := phrase_kept_or_fired message a).
  assert (H1 : m_handle a1 <> None).
  { subst a1. unfold phrase_kept_or_fired.
    destruct (held_for_intent message a); destruct_adapter a; exact Hh. }
  assert (C1 : turn_can_end a1 = true).
  { subst a1. unfold phrase_kept_or_fired, turn_can_end, after_phrase.
    destruct (held_for_intent message a); destruct_adapter a; simpl in *;
      [destruct recoMode | subst usp; destruct recoMode]; reflexivity. }
  destruct (OnTurnEnd_expected a1 H1 C1) as [R [U [_ [S _]]]].
  unfold result_of, exec in R, U, S.
  destruct (OnTurnEnd a1) as [[[] | hr | | ] a2]; cbn [fst snd] in R, U, S;
    try discriminate R.
  split; [ | exact U].
  rewrite (final_results_site_calls _ _ _ S).
  subst a1. unfold phrase_kept_or_fired, turn_end_calls, is_WaitingForIntent, after_phrase.
  destruct (held_for_intent message a) eqn:K.
  - destruct_adapter a. simpl in *.
    destruct (singleShot && is_Sending _); reflexivity.
  - destruct_adapter a. simpl in *. subst usp.
    unfold final_results. simpl. rewrite site_calls_app, flat_map_app. simpl.
    destruct recoMode; simpl; destruct (singleShot && is_Sending _); simpl;
      rewrite ?app_nil_r; reflexivity.
Qed.

Lemma phrase_is_delivered_once_witness :
  final_results (run [speech_phrase example_phrase; turn_end] in_phrase)
    = final_results in_phrase ++ [(5, phrase_result example_phrase)] /\
  m_uspState (run [speech_phrase example_phrase; turn_end] in_phrase) = UspState.Idle.
Proof.
  apply (phrase_is_delivered_once example_phrase in_phrase); [reflexivity | discriminate].
Defined.

(** ** Errors of the transport *)

(** X13.  An error that finds the adapter in no bad state, with no reset
    configured (the switch off, or no format stored), is recorded: the
    protocol state becomes Error from whatever it was, the audio state and
    the session are kept, and the site is told the error once. *)
Theorem error_without_reset :
  forall (message : string) (a : Adapter),
    in_bad_state a = false ->
    reset_configured a = false ->
    result_of (OnError message) a = Done tt /\
    state_pair (exec (OnError message) a) = (m_audioState a, UspState.Error) /\
    m_handle (exec (OnError message) a) = m_handle a /\
    events (exec (OnError message) a) = events a ++ [ToSite (SiteError message)].
Proof.
  intros message a Hb Hr. destruct_adapter a.
  unfold in_bad_state, reset_configured in *. simpl in Hb, Hr.
  unfold result_of, exec, state_pair, ShouldResetAfterError, call_site, emit. unfold_ops. simpl.
  destruct usp; try discriminate Hb; simpl; rewrite Hr; simpl;
    destruct audio; repeat split; reflexivity.
Qed.

Lemma error_without_reset_witness :
  state_pair (exec (OnError "connection lost") in_phrase)
    = (AudioState.Sending, UspState.Error) /\
  events (exec (OnError "connection lost") in_phrase)
    = events in_phrase ++ [ToSite (SiteError "connection lost")].
Proof.
  destruct (error_without_reset "connection lost" in_phrase) as [_ [P [_ E]]];
    [reflexivity | reflexivity | ].
  split; [exact P | exact E].
Defined.

Lemma OnError_with_reset message a :
  in_bad_state a = false ->
  reset_configured a = true ->
  OnError message a = UspInitialize (reset_pending message a).
Proof.
  intros Hb Hr. destruct_adapter a.
  unfold in_bad_state, reset_configured in *. simpl in Hb, Hr.
  unfold reset_pending, committed.
  unfold_ops.
  unfold ShouldResetAfterError, ResetAfterError, PrepareAudioReadyState, EnsureUspInit,
    call_site, call_usp, emit. unfold_ops. simpl.
  destruct usp; try discriminate Hb; simpl; rewrite Hr; simpl;
    destruct audio, handle_; simpl; rewrite <- ?app_assoc; reflexivity.
Qed.

(** X14.  An error with the reset configured starts over instead of
    failing: from any state that is not bad the adapter goes to
    (Ready, Idle) with the frame size cleared, the site is told the error
    once, the session on hand is dropped, and a new one is opened.  If the
    configuration no longer opens a session the handler raises, and the
    adapter is left in (Ready, Idle) without a session. *)
Theorem error_with_reset :
  forall (message : string) (a : Adapter),
    in_bad_state a = false ->
    reset_configured a = true ->
    state_pair (exec (OnError message) a) = (AudioState.Ready, UspState.Idle) /\
    m_servicePreferedBufferSizeSendingNow (exec (OnError message) a) = 0 /\
    site_calls (events (exec (OnError message) a))
      = site_calls (events a) ++ [SiteError message] /\
    ((exists client,
         result_of (OnError message) a = Done tt /\
         m_handle (exec (OnError message) a) = Some client /\
         usp_calls (events (exec (OnError message) a))
           = usp_calls (events a) ++ dropped_session a ++ [Connect client]) \/
     (exists hr,
         result_of (OnError message) a = Thrown hr /\
         m_handle (exec (OnError message) a) = None /\
         usp_calls (events (exec (OnError message) a))
           = usp_calls (events a) ++ dropped_session a)).
Proof.
  intros message a Hb Hr. unfold result_of, exec.
  rewrite (OnError_with_reset message a Hb Hr).
  assert (Hn : m_handle (reset_pending message a) = None) by (destruct_adapter a; reflexivity).
  assert (Ee : events (reset_pending message a)
               = events a ++ [ToSite (SiteError message)] ++
                 (if non_null (m_handle a) then [ToUsp DropSession] else []))
    by (destruct_adapter a; reflexivity).
  assert (Su : usp_calls (events (reset_pending message a))
               = usp_calls (events a) ++ dropped_session a).
  { rewrite Ee, !usp_calls_app. unfold dropped_session. simpl.
    destruct (non_null (m_handle a)); reflexivity. }
  assert (Ss : site_calls (events (reset_pending message a))
               = site_calls (events a) ++ [SiteError message]).
  { rewrite Ee, !site_calls_app. simpl.
    destruct (non_null (m_handle a)); simpl; rewrite ?app_nil_r; reflexivity. }
  destruct (UspInitialize_outcome _ Hn) as [[client [mode [custom E]]] | [hr [mode [custom E]]]];
    rewrite E; cbn [fst snd].
  - split; [destruct_adapter a; reflexivity | ].
    split; [destruct_adapter a; reflexivity | ].
    split.
    + transitivity (site_calls (events (reset_pending message a) ++ [ToUsp (Connect client)])).
      * destruct_adapter a. reflexivity.
      * rewrite site_calls_app, Ss. simpl. now rewrite app_nil_r.
    + left. exists client. split; [reflexivity | split; [destruct_adapter a; reflexivity | ]].
      transitivity (usp_calls (events (reset_pending message a) ++ [ToUsp (Connect client)])).
      * destruct_adapter a. reflexivity.
      * rewrite usp_calls_app, Su, <- app_assoc. reflexivity.
  - split; [destruct_adapter a; reflexivity | ].
    split; [destruct_adapter a; reflexivity | ].
    split.
    + rewrite <- Ss. destruct_adapter a. reflexivity.
    + right. exists hr. split; [reflexivity | split; [destruct_adapter a; reflexivity | ]].
      rewrite <- Su. destruct_adapter a. reflexivity.
Qed.

Lemma error_with_reset_witness :
  state_pair (exec (OnError "connection lost") resetting_adapter)
    = (AudioState.Ready, UspState.Idle) /\
  site_calls (events (exec (OnError "connection lost") resetting_adapter))
    = site_calls (events resetting_adapter) ++ [SiteError "connection lost"].
Proof.
  destruct (error_with_reset "connection lost" resetting_adapter) as [P [_ [S _]]];
    [reflexivity | reflexivity | ].
  split; [exact P | exact S].
Defined.

(** ** Opening a session *)

Lemma SetUspEndpoint_run props a :
  (exists c, SetUspEndpoint props (new_client BingSpeech) a
             = (Done c, set_m_customEndpoint (custom_url props) a) /\
             client_authentication c = None /\
             (custom_url props = true ->
              c = SetEndpointUrl (SPEECH_Endpoint props) (new_client BingSpeech))) \/
  (SetUspEndpoint props (new_client BingSpeech) a
   = (Thrown SPXERR_INVALID_ARG, set_m_customEndpoint false a)).
Proof.
  unfold SetUspEndpoint, custom_url. unfold_ops.
  destruct (wcsicmp_equal (SPEECH_Endpoint props) "CORTANA"); cbn [negb andb].
  { left. eexists. split; [reflexivity | split; [reflexivity | discriminate]]. }
  destruct (string_empty (SPEECH_Endpoint props)); cbn [negb].
  2:{ left. eexists. split; [destruct_adapter a; reflexivity | split; reflexivity]. }
  destruct (string_empty (TRANSLATION_FromLanguage props)); cbn [negb].
  - destruct (string_empty (SPEECH_ModelId props)); cbn [negb].
    + destruct (SPEECH_RecoLanguage props); left; eexists;
        (split; [reflexivity | split; [reflexivity | discriminate]]).
    + left; eexists; split; [reflexivity | split; [reflexivity | discriminate]].
  - destruct (string_empty (TRANSLATION_ToLanguages props)).
    + right. reflexivity.
    + left; eexists; split; [reflexivity | split; [reflexivity | discriminate]].
Qed.

Lemma GetRecoModeFromProperties_code props mode :
  fst (GetRecoModeFromProperties props mode) = SPX_NOERROR \/
  fst (GetRecoModeFromProperties props mode) = SPXERR_NOT_FOUND \/
  fst (GetRecoModeFromProperties props mode) = SPXERR_INVALID_ARG.
Proof.
  unfold GetRecoModeFromProperties.
  repeat match goal with |- context [if ?b then _ else _] => destruct b end; simpl; auto.
Qed.

Lemma GetRecoModeFromEndpoint_code endpoint mode :
  fst (GetRecoModeFromEndpoint endpoint mode) = SPX_NOERROR \/
  fst (GetRecoModeFromEndpoint endpoint mode) = SPXERR_NOT_FOUND.
Proof.
  unfold GetRecoModeFromEndpoint.
  repeat match goal with |- context [if ?b then _ else _] => destruct b end; simpl; auto.
Qed.

Lemma SetUspRecoMode_run props client a :
  (m_customEndpoint a = true -> string_empty (SPEECH_Endpoint props) = false) ->
  (exists mode, SetUspRecoMode props client a
                = (Done (SetRecognitionMode mode client), set_m_recoMode mode a)) \/
  (SetUspRecoMode props client a = (Thrown SPXERR_INVALID_ARG, a)).
Proof.
  intros Hc. unfold SetUspRecoMode.
  pose proof (GetRecoModeFromProperties_code props Interactive) as Hp.
  destruct (GetRecoModeFromProperties props Interactive) as [checkHr mode]. simpl in Hp.
  destruct Hp as [Hp | [Hp | Hp]]; subst checkHr; cbn [SPX_FAILED is_NOT_FOUND negb andb].
  - unfold_ops. left. eexists. reflexivity.
  - unfold_ops. cbn [andb].
    destruct (m_customEndpoint a); [ | left; eexists; reflexivity].
    rewrite (Hc eq_refl).
    pose proof (GetRecoModeFromEndpoint_code (SPEECH_Endpoint props) mode) as He.
    destruct (GetRecoModeFromEndpoint (SPEECH_Endpoint props) mode) as [checkHr' mode'].
    simpl in He. destruct He as [He | He]; subst checkHr';
      cbn [SPX_FAILED is_NOT_FOUND negb andb]; left; eexists; reflexivity.
  - right. reflexivity.
Qed.

Lemma SetUspAuthentication_run props client a :
  match first_credential props with
  | Some (kind, secret) =>
      SetUspAuthentication props client a = (Done (SetAuthentication kind secret client), a)
  | None => SetUspAuthentication props client a = (Thrown SPXERR_INVALID_ARG, a)
  end.
Proof.
  unfold SetUspAuthentication, first_credential. unfold_ops.
  destruct (string_empty (SPEECH_SubscriptionKey props)); cbn [negb]; [ | reflexivity].
  destruct (string_empty (SPEECH_AuthToken props)); cbn [negb]; [ | reflexivity].
  destruct (string_empty (SPEECH_RpsToken props)); cbn [negb]; reflexivity.
Qed.

Lemma custom_url_endpoint props :
  custom_url props = true -> string_empty (SPEECH_Endpoint props) = false.
Proof.
  unfold custom_url. destruct (string_empty (SPEECH_Endpoint props)); [ | reflexivity].
  rewrite Bool.andb_false_r. discriminate.
Qed.

(** What opening a session comes to, on an adapter that has none. *)
Lemma UspInitialize_run a :
  m_handle a = None ->
  (exists client mode,
      UspInitialize a =
      (Done tt, set_m_handle (Some client)
                  (set_events (events a ++ [ToUsp (Connect client)])
                     (configured mode (custom_url (properties (site a))) a))) /\
      client_recoMode client = mode /\
      client_authentication client = first_credential (properties (site a)) /\
      first_credential (properties (site a)) <> None /\
      (custom_url (properties (site a)) = true ->
       client = SetAuthentication
                  (fst (match first_credential (properties (site a)) with
                        | Some p => p | None => (SubscriptionKey, "") end))
                  (snd (match first_credential (properties (site a)) with
                        | Some p => p | None => (SubscriptionKey, "") end))
                  (SetRecognitionMode mode
                     (SetEndpointUrl (SPEECH_Endpoint (properties (site a)))
                        (new_client BingSpeech))))) \/
  (exists mode custom, UspInitialize a = (Thrown SPXERR_INVALID_ARG, configured mode custom a)).
Proof.
  intros H. unfold UspInitialize, call_usp, emit, bind, gets, modify.
  rewrite H. cbn [non_null]. cbv beta iota.
  set (props := properties (site a)).
  destruct (SetUspEndpoint_run props a) as [[c1 [E1 [A1 U1]]] | E1]; rewrite E1;
    [ | right; exists (m_recoMode a), false; now rewrite configured_same_mode].
  destruct (SetUspRecoMode_run props c1 (set_m_customEndpoint (custom_url props) a))
    as [[mode E2] | E2].
  { destruct_adapter a. simpl. apply custom_url_endpoint. }
  2:{ rewrite E2. right. exists (m_recoMode a), (custom_url props).
      now rewrite configured_same_mode. }
  rewrite E2. fold (configured mode (custom_url props) a).
  pose proof (SetUspAuthentication_run props (SetRecognitionMode mode c1)
                (configured mode (custom_url props) a)) as E3.
  destruct (first_credential props) as [[kind secret] | ] eqn:F; rewrite E3;
    [ | right; exists mode, (custom_url props); reflexivity].
  left. exists (SetAuthentication kind secret (SetRecognitionMode mode c1)), mode.
  split; [destruct_adapter a; reflexivity | ].
  split; [reflexivity | split; [reflexivity | split; [discriminate | ]]].
  intros Hu. rewrite (U1 Hu). reflexivity.
Qed.

Lemma wcsicmp_CORTANA_nonempty s : wcsicmp_equal s "CORTANA" = true -> string_empty s = false.
Proof. destruct s; [discriminate | reflexivity]. Qed.

Lemma SetUspEndpoint_throws props a :
  result_of (SetUspEndpoint props (new_client BingSpeech)) a = Thrown SPXERR_INVALID_ARG
  <-> missing_targets props = true.
Proof.
  unfold result_of, SetUspEndpoint, missing_targets. unfold_ops.
  destruct (wcsicmp_equal (SPEECH_Endpoint props) "CORTANA") eqn:C.
  { rewrite (wcsicmp_CORTANA_nonempty _ C). simpl. split; discriminate. }
  destruct (string_empty (SPEECH_Endpoint props)); cbn [negb andb fst];
    [ | split; discriminate].
  destruct (string_empty (TRANSLATION_FromLanguage props)); cbn [negb andb fst].
  - destruct (string_empty (SPEECH_ModelId props)); cbn [negb fst];
      [destruct (SPEECH_RecoLanguage props) | ]; split; discriminate.
  - destruct (string_empty (TRANSLATION_ToLanguages props)); cbn [fst];
      split; try discriminate; reflexivity.
Qed.

Lemma SetUspRecoMode_throws props client a :
  (m_customEndpoint a = true -> string_empty (SPEECH_Endpoint props) = false) ->
  (result_of (SetUspRecoMode props client) a = Thrown SPXERR_INVALID_ARG
   <-> unknown_mode props = true).
Proof.
  intros Hc. unfold result_of, SetUspRecoMode, unknown_mode, GetRecoModeFromProperties.
  destruct (string_empty (SPEECH_RecoMode props)); cbn [negb andb SPX_FAILED is_NOT_FOUND].
  - unfold_ops. destruct (m_customEndpoint a); cbn [andb fst].
    + rewrite (Hc eq_refl).
      pose proof (GetRecoModeFromEndpoint_code (SPEECH_Endpoint props) Interactive) as He.
      destruct (GetRecoModeFromEndpoint (SPEECH_Endpoint props) Interactive) as [hr m].
      simpl in He. destruct He; subst hr; cbn; split; discriminate.
    + split; discriminate.
  - destruct (wcsicmp_equal (SPEECH_RecoMode props) SPEECH_RecoMode_Interactive);
      [cbn; split; discriminate | ].
    destruct (wcsicmp_equal (SPEECH_RecoMode props) SPEECH_RecoMode_Conversation);
      [cbn; split; discriminate | ].
    destruct (wcsicmp_equal (SPEECH_RecoMode props) SPEECH_RecoMode_Dictation);
      cbn; split; try discriminate; reflexivity.
Qed.

Lemma first_credential_none props : first_credential props = None <-> no_credential props = true.
Proof.
  unfold first_credential, no_credential.
  destruct (string_empty (SPEECH_SubscriptionKey props)),
           (string_empty (SPEECH_AuthToken props)),
           (string_empty (SPEECH_RpsToken props)); simpl; split; congruence.
Qed.

(** The configurations that the invalid-argument error answers. *)
Lemma UspInitialize_throws a :
  m_handle a = None ->
  (result_of UspInitialize a = Thrown SPXERR_INVALID_ARG
   <-> rejected (properties (site a)) = true).
Proof.
  intros H.
  unfold rejected, result_of, UspInitialize, call_usp, emit, bind, gets, modify.
  rewrite H. cbn [non_null]. cbv beta iota.
  set (props := properties (site a)).
  pose proof (SetUspEndpoint_throws props a) as T1. unfold result_of in T1.
  destruct (SetUspEndpoint_run props a) as [[c1 [E1 _]] | E1]; rewrite E1 in *;
    cbn [fst] in *.
  2:{ rewrite (proj1 T1 eq_refl). simpl. tauto. }
  assert (M : missing_targets props = false).
  { destruct (missing_targets props); [ | reflexivity].
    destruct T1 as [_ T1]. discriminate (T1 eq_refl). }
  rewrite M. cbn [orb].
  assert (Hc : m_customEndpoint (set_m_customEndpoint (custom_url props) a) = true ->
               string_empty (SPEECH_Endpoint props) = false).
  { destruct_adapter a. simpl. apply custom_url_endpoint. }
  pose proof (SetUspRecoMode_throws props c1 _ Hc) as T2. unfold result_of in T2.
  destruct (SetUspRecoMode_run props c1 _ Hc) as [[mode E2] | E2]; rewrite E2 in *;
    cbn [fst] in *.
  2:{ rewrite (proj1 T2 eq_refl). simpl. tauto. }
  assert (U : unknown_mode props = false).
  { destruct (unknown_mode props); [ | reflexivity].
    destruct T2 as [_ T2]. discriminate (T2 eq_refl). }
  rewrite U. cbn [orb].
  pose proof (SetUspAuthentication_run props (SetRecognitionMode mode c1)
                (set_m_recoMode mode (set_m_customEndpoint (custom_url props) a))) as E3.
  pose proof (first_credential_none props) as F.
  destruct (first_credential props) as [[kind secret] | ]; rewrite E3; cbn [fst].
  - destruct (no_credential props); [ | split; discriminate].
    destruct F as [_ F]. discriminate (F eq_refl).
  - rewrite (proj1 F eq_refl). tauto.
Qed.

(** X15.  A session that has been opened.  When [UspInitialize], on an
    adapter that has no session, returns normally, exactly one call has
    reached the transport: the Connect of the client that is now stored as
    the session.  That client carries the recognition mode the adapter has
    recorded and the first credential of the properties (subscription key,
    then authorization token, then RPS token); the configuration was one
    that is not refused (see X16), and the state pair is as it was. *)
Theorem UspInitialize_connects_when_it_returns :
  forall a : Adapter,
    m_handle a = None ->
    result_of UspInitialize a = Done tt ->
    let a' := exec UspInitialize a in
    rejected (properties (site a)) = false /\
    state_pair a' = state_pair a /\
    exists client,
      m_handle a' = Some client /\
      events a' = events a ++ [ToUsp (Connect client)] /\
      client_recoMode client = m_recoMode a' /\
      client_authentication client = first_credential (properties (site a)) /\
      first_credential (properties (site a)) <> None.
Proof.
  intros a H R a'. subst a'.
  split.
  { destruct (rejected (properties (site a))) eqn:J; [ | reflexivity].
    apply (UspInitialize_throws a H) in J. rewrite R in J. discriminate J. }
  unfold exec, result_of in *.
  destruct (UspInitialize_run a H) as [[client [mode [E [M [A [N _]]]]]] | [mode [custom E]]];
    rewrite E in *; cbn [fst snd] in *; [ | discriminate R].
  split; [destruct_adapter a; reflexivity | ].
  exists client. destruct_adapter a. simpl in *. auto.
Qed.

Lemma UspInitialize_connects_witness :
  exists client,
    m_handle (exec UspInitialize example_adapter) = Some client /\
    events (exec UspInitialize example_adapter) = [ToUsp (Connect client)] /\
    client_authentication client = Some (SubscriptionKey, "key").
Proof.
  destruct (UspInitialize_connects_when_it_returns example_adapter eq_refl eq_refl)
    as [_ [_ [client [H [E [_ [A _]]]]]]].
  exists client. split; [exact H | split; [exact E | exact A]].
Defined.

(** X16.  A configuration that is refused.  When a translation is asked
    for without target languages (and no endpoint overrides it), or the
    recognition mode property is set to something other than the three
    modes, or no credential is given, [UspInitialize], on an adapter that
    has no session, throws the invalid-argument error (SPXERR_INVALID_ARG,
    which also stands for the exception of [ThrowInvalidArgumentException]
    when no credential is given): no call reaches the transport, and the
    state pair and the missing session are as they were. *)
Theorem rejected_configuration_opens_no_session :
  forall a : Adapter,
    m_handle a = None ->
    rejected (properties (site a)) = true ->
    let a' := exec UspInitialize a in
    result_of UspInitialize a = Thrown SPXERR_INVALID_ARG /\
    m_handle a' = None /\ events a' = events a /\ state_pair a' = state_pair a.
Proof.
  intros a H J a'. subst a'.
  apply (UspInitialize_throws a H) in J.
  split; [exact J | ].
  unfold exec, result_of in *.
  destruct (UspInitialize_run a H) as [[client [mode [E _]]] | [mode [custom E]]];
    rewrite E in *; cbn [fst snd] in *; [discriminate J | ].
  destruct_adapter a. simpl in *. auto.
Qed.

Lemma rejected_configuration_witness :
  result_of UspInitialize anonymous_adapter = Thrown SPXERR_INVALID_ARG /\
  events (exec UspInitialize anonymous_adapter) = events anonymous_adapter.
Proof.
  destruct (rejected_configuration_opens_no_session anonymous_adapter eq_refl eq_refl)
    as [R [_ [E _]]].
  split; [exact R | exact E].
Defined.

(** X17.  An endpoint URL of the caller's own overrides the routing
    properties: the session is connected to that URL, and the translation
    languages, the model id and the recognition language of the properties
    are not passed on, even when they are set (and even when they would
    have been rejected). *)
Theorem custom_endpoint_overrides_routing :
  forall a : Adapter,
    m_handle a = None ->
    custom_url (properties (site a)) = true ->
    result_of UspInitialize a = Done tt ->
    exists client,
      m_handle (exec UspInitialize a) = Some client /\
      m_customEndpoint (exec UspInitialize a) = true /\
      client_endpointUrl client = Some (SPEECH_Endpoint (properties (site a))) /\
      client_translation client = None /\
      client_modelId client = None /\
      client_language client = None.
Proof.
  intros a H Hu R. unfold exec, result_of in *.
  destruct (UspInitialize_run a H) as [[client [mode [E [M [A [N U]]]]]] | [mode [custom E]]];
    rewrite E in *; cbn [fst snd] in *; [ | discriminate R].
  exists client. rewrite (U Hu). rewrite Hu.
  destruct_adapter a. repeat split; reflexivity.
Qed.

Lemma custom_endpoint_overrides_witness :
  exists client,
    m_handle (exec UspInitialize custom_adapter) = Some client /\
    m_customEndpoint (exec UspInitialize custom_adapter) = true /\
    client_endpointUrl client = Some "wss://example.test/speech/dictation/v1" /\
    client_translation client = None /\
    client_modelId client = None /\
    client_language client = None.
Proof.
  apply (custom_endpoint_overrides_routing custom_adapter); reflexivity.
Defined.

(** X18.  [EnsureUspInit] opens at most one session: when it returns there
    is a session, and calling it again changes nothing, so the error for an
    adapter that is already initialized is never raised through it. *)
Theorem EnsureUspInit_opens_once :
  forall a : Adapter,
    result_of EnsureUspInit a = Done tt ->
    m_handle (exec EnsureUspInit a) <> None /\
    EnsureUspInit (exec EnsureUspInit a) = (Done tt, exec EnsureUspInit a) /\
    (m_handle a <> None -> exec EnsureUspInit a = a).
Proof.
  intros a R. unfold result_of, exec in *.
  assert (K : forall x, m_handle x <> None -> EnsureUspInit x = (Done tt, x)).
  { intros x Hx. unfold EnsureUspInit, bind, gets, when.
    destruct (m_handle x); [reflexivity | congruence]. }
  destruct (m_handle a) as [c | ] eqn:H.
  - rewrite K in * by congruence. cbn [snd]. rewrite K by congruence.
    split; [congruence | split; [reflexivity | reflexivity]].
  - assert (E0 : EnsureUspInit a = UspInitialize a).
    { unfold EnsureUspInit, bind, gets, when. rewrite H. reflexivity. }
    rewrite E0 in *.
    destruct (UspInitialize_run a H) as [[client [mode [E _]]] | [mode [custom E]]];
      rewrite E in *; cbn [fst snd] in *; [ | discriminate R].
    assert (Hc : m_handle (set_m_handle (Some client)
                   (set_events (events a ++ [ToUsp (Connect client)])
                      (configured mode (custom_url (properties (site a))) a))) <> None)
      by (destruct_adapter a; discriminate).
    split; [exact Hc | split; [apply K; exact Hc | congruence]].
Qed.

Lemma EnsureUspInit_opens_once_witness :
  m_handle (exec EnsureUspInit example_adapter) <> None /\
  EnsureUspInit (exec EnsureUspInit example_adapter)
    = (Done tt, exec EnsureUspInit example_adapter).
Proof.
  destruct (EnsureUspInit_opens_once example_adapter eq_refl) as [H [E _]].
  split; [exact H | exact E].
Defined.

(** ** Bytes on their way to the session *)

#[local] Arguments wrap32 : simpl never.
#[local] Arguments wrap16 : simpl never.
#[local] Arguments prelude_layout : simpl never.
#[local] Arguments Z.mul : simpl never.
#[local] Arguments Z.div : simpl never.
#[local] Arguments GetDgiJsonFromListenForList : simpl never.
#[local] Arguments GetLanguageUnderstandingJsonFromIntentInfo : simpl never.
#[local] Arguments GetSpeechContextJson : simpl never.
#[local] Arguments string_empty : simpl never.

Lemma wrap_size_t_0 : wrap_size_t 0 = 0.
Proof. reflexivity. Qed.

Lemma UspWrite_Flush_run a :
  session_usable a -> UspWrite_Flush a = (Done tt, flushed a).
Proof.
  intros [Hh [Ht Hz]]. destruct_adapter a. simpl in Hh, Ht, Hz.
  destruct handle_ as [c | ]; [ | congruence].
  unfold flushed, buffer_released, pending.
  unfold UspWrite_Flush, UspWrite_Buffered. change (Z.to_nat 0) with 0%nat.
  cbn [UspWrite_Buffered_loop]. change (0 =? 0) with true. cbn [orb].
  unfold UspWrite_Actual, reset_ptrIntoBuffer, call_usp, emit,
    IsState_usp, when, bind, gets, ret, modify.
  destruct usp; try congruence; destruct buffer_ as [bytes | ]; cbn;
    rewrite <- ?app_assoc; try reflexivity;
    rewrite Z.sub_diag, wrap_size_t_0; reflexivity.
Qed.

Lemma audio_writes_app l1 l2 : audio_writes (l1 ++ l2) = audio_writes l1 ++ audio_writes l2.
Proof. unfold audio_writes. apply flat_map_app. Qed.

(** X19.  A flush on a usable session loses no byte and leaves none
    behind: the bytes pending in the frame buffer are handed over in one
    audio write (an empty one when nothing is pending), the session is
    asked to flush, and the buffer is released; the handler returns and the
    state pair is as it was. *)
Theorem flush_hands_over_pending :
  forall a : Adapter,
    session_usable a ->
    result_of UspWrite_Flush a = Done tt /\
    events (exec UspWrite_Flush a)
      = events a ++ [ToUsp (WriteAudio (pending a)); ToUsp FlushAudio] /\
    bytes_sent (exec UspWrite_Flush a) = bytes_sent a ++ pending a /\
    pending (exec UspWrite_Flush a) = [] /\
    m_buffer (exec UspWrite_Flush a) = None /\
    state_pair (exec UspWrite_Flush a) = state_pair a.
Proof.
  intros a H. unfold result_of, exec. rewrite (UspWrite_Flush_run a H). cbn [fst snd].
  split; [reflexivity | ].
  split; [destruct_adapter a; reflexivity | ].
  split.
  { unfold bytes_sent, flushed. destruct_adapter a. cbn [events set_events].
    rewrite audio_writes_app, concat_app. cbn [audio_writes flat_map app List.concat].
    rewrite app_nil_r. reflexivity. }
  destruct_adapter a. repeat split; reflexivity.
Qed.

Lemma flush_hands_over_pending_witness :
  events (exec UspWrite_Flush in_phrase)
    = events in_phrase ++ [ToUsp (WriteAudio [1; 2; 3]); ToUsp FlushAudio] /\
  m_buffer (exec UspWrite_Flush in_phrase) = None.
Proof.
  destruct (flush_hands_over_pending in_phrase) as [_ [E [_ [_ [B _]]]]].
  - repeat split; discriminate.
  - split; [exact E | exact B].
Defined.

Ltac flush_run :=
  match goal with
  | |- context [UspWrite_Flush ?x] =>
      rewrite (UspWrite_Flush_run x) by (repeat split; simpl; congruence)
  end.

(** X20.  The end of speech always flushes, whatever the state the event
    finds and even in Error, as long as the session is usable: the handler
    returns, the pending bytes and the flush request are the only calls
    that reach the transport, the buffer is released, and the protocol
    state is as it was. *)
Theorem speech_end_always_flushes :
  forall (offset : Z) (a : Adapter),
    session_usable a ->
    result_of (OnSpeechEndDetected offset) a = Done tt /\
    usp_calls (events (exec (OnSpeechEndDetected offset) a))
      = usp_calls (events a) ++ [WriteAudio (pending a); FlushAudio] /\
    m_buffer (exec (OnSpeechEndDetected offset) a) = None /\
    m_uspState (exec (OnSpeechEndDetected offset) a) = m_uspState a.
Proof.
  intros offset a [Hh [Ht Hz]]. destruct_adapter a. simpl in Hh, Ht, Hz.
  destruct handle_ as [c | ]; [clear Hh | congruence].
  unfold result_of, exec. unfold_ops. unfold call_site, emit. unfold_ops.
  destruct usp; try congruence; destruct singleShot, audio; simpl;
    flush_run; unfold flushed, buffer_released, pending; simpl;
    rewrite ?usp_calls_app; simpl; rewrite ?app_nil_r;
    repeat split; reflexivity.
Qed.

Lemma speech_end_always_flushes_witness :
  usp_calls (events (exec (OnSpeechEndDetected 9) in_phrase))
    = usp_calls (events in_phrase) ++ [WriteAudio [1; 2; 3]; FlushAudio] /\
  m_buffer (exec (OnSpeechEndDetected 9) in_phrase) = None.
Proof.
  destruct (speech_end_always_flushes 9 in_phrase) as [_ [E [B _]]].
  - repeat split; discriminate.
  - split; [exact E | exact B].
Defined.

Lemma firstn_memcpy bytes off buffer n :
  0 <= off -> 0 <= n ->
  off + n <= Z.of_nat (List.length bytes) ->
  n <= Z.of_nat (List.length buffer) ->
  firstn (Z.to_nat (off + n)) (memcpy bytes off buffer n)
  = firstn (Z.to_nat off) bytes ++ firstn (Z.to_nat n) buffer.
Proof.
  intros Ho Hn Hb Hs. unfold memcpy.
  rewrite app_assoc.
  rewrite firstn_app.
  assert (L : List.length (firstn (Z.to_nat off) bytes ++ firstn (Z.to_nat n) buffer)
              = Z.to_nat (off + n)).
  { rewrite length_app, !length_firstn. lia. }
  rewrite L, Nat.sub_diag. simpl. rewrite app_nil_r.
  rewrite <- L. apply firstn_all.
Qed.

(** X21.  A buffered write that fits in the room left in the frame keeps
    the caller's bytes: the call returns, and the bytes handed over
    followed by the bytes pending are what they were followed by the bytes
    written, in order. *)
Theorem write_within_frame_keeps_bytes :
  forall (buffer : list uint8) (n : Z) (a : Adapter),
    chunk_ready a ->
    session_usable a ->
    0 < n <= m_bytesLeftInBuffer a ->
    n <= Z.of_nat (List.length buffer) ->
    exists a',
      UspWrite_Buffered buffer n a = (Done tt, a') /\
      chunk_ready a' /\
      bytes_sent a' ++ pending a' = bytes_sent a ++ pending a ++ firstn (Z.to_nat n) buffer.
Proof.
  intros buffer n a Hc Hu Hn Hs.
  assert (Hc0 := Hc). destruct Hc0 as [bytes [Hb [Hl [Hin [Hleft Hp]]]]].
  assert (En : (n =? 0) = false) by (apply Z.eqb_neq; lia).
  assert (Hbn : m_buffer a <> None) by congruence.
  assert (Hpn : m_ptrIntoBuffer a <> None) by congruence.
  unfold UspWrite_Buffered. rewrite En.
  unfold when, bind, gets. rewrite Hb. cbn [non_null negb ret].
  destruct (Z.to_nat n) as [ | k] eqn:Ek; [lia | ].
  rewrite (UspWrite_Buffered_loop_step (S k) buffer n a Hu Hbn Hpn), En.
  assert (Ea : after_full_frame a = a).
  { unfold after_full_frame. replace (m_bytesLeftInBuffer a =? 0) with false
      by (symmetry; apply Z.eqb_neq; lia). now rewrite Bool.andb_false_r. }
  rewrite Ea. rewrite Z.min_l by lia. rewrite Z.sub_diag.
  destruct (bytes_copied_ready buffer n a Hc Hu) as [Hc2 [Hu2 [Hi2 He2]]]; [lia | lia | ].
  set (a2 := bytes_copied buffer n a) in *.
  assert (Hb2 : m_buffer a2 <> None) by (destruct Hc2 as [b [E _]]; congruence).
  assert (Hp2 : m_ptrIntoBuffer a2 <> None)
    by (destruct Hc2 as [b [_ [_ [_ [_ E]]]]]; congruence).
  rewrite (UspWrite_Buffered_loop_step k buffer 0 a2 Hu2 Hb2 Hp2).
  change (0 =? 0) with true. cbv iota.
  destruct (after_full_frame_ready a2 Hc2 Hu2) as [Hc3 _].
  exists (after_full_frame a2). split; [reflexivity | split; [exact Hc3 | ]].
  (* the bytes *)
  assert (P2 : pending a2 = pending a ++ firstn (Z.to_nat n) buffer).
  { subst a2. revert Hc2. destruct_adapter a. simpl in *. subst.
    intros Hc2. unfold bytes_copied, pending. simpl.
    rewrite !wrap_size_t_small by lia.
    replace (Z.of_nat (List.length bytes) - (bytesLeft - n))
      with ((Z.of_nat (List.length bytes) - bytesLeft) + n) by lia.
    apply firstn_memcpy; lia. }
  assert (S2 : bytes_sent a2 = bytes_sent a) by (unfold bytes_sent; now rewrite He2).
  unfold after_full_frame.
  destruct (Z.gtb_spec (m_bytesInBuffer a2) 0) as [G | G];
    destruct (Z.eqb_spec (m_bytesLeftInBuffer a2) 0) as [E | E]; cbn [andb];
    try (rewrite S2, P2, <- Ek; reflexivity).
  (* the frame is complete and handed over *)
  assert (F : firstn (Z.to_nat (wrap_size_t (m_bytesInBuffer a2 - m_bytesLeftInBuffer a2)))
                     (buffer_get (m_buffer a2)) = pending a2).
  { unfold pending. destruct (m_buffer a2); [reflexivity | congruence]. }
  assert (P3 : pending (frame_sent a2) = []).
  { destruct Hc2 as [b2 [Hb2' [Hl2 [Hin2 [Hleft2 _]]]]].
    unfold frame_sent, pending. destruct a2; simpl in *. subst.
    rewrite Z.sub_diag, wrap_size_t_0. reflexivity. }
  assert (S3 : bytes_sent (frame_sent a2) = bytes_sent a2 ++ pending a2).
  { unfold bytes_sent, frame_sent. rewrite <- F.
    destruct a2; simpl. rewrite audio_writes_app, concat_app. simpl.
    rewrite app_nil_r. reflexivity. }
  rewrite P3, S3, S2, P2, app_nil_r, <- Ek. reflexivity.
Qed.

Lemma write_within_frame_witness :
  exists a',
    UspWrite_Buffered [4; 5; 6; 7] 4 in_phrase = (Done tt, a') /\
    chunk_ready a' /\
    bytes_sent a' ++ pending a'
      = bytes_sent in_phrase ++ pending in_phrase ++ firstn (Z.to_nat 4) [4; 5; 6; 7].
Proof.
  apply (write_within_frame_keeps_bytes [4; 5; 6; 7] 4 in_phrase).
  - eexists. repeat split; try reflexivity; vm_compute; discriminate.
  - repeat split; discriminate.
  - vm_compute. split; [reflexivity | discriminate].
  - vm_compute. discriminate.
Defined.

Lemma UspWrite_Actual_run buffer n a :
  session_usable a ->
  UspWrite_Actual buffer n a = (Done tt, audio_sent (firstn (Z.to_nat n) buffer) a).
Proof.
  intros [Hh [Ht Hz]]. destruct_adapter a. simpl in *.
  destruct handle_; [ | congruence].
  unfold UspWrite_Actual, call_usp, emit. unfold_ops. simpl.
  destruct usp; try congruence; reflexivity.
Qed.

Lemma UspWrite_Actual_dead buffer n a :
  ~ session_usable a -> UspWrite_Actual buffer n a = (Done tt, a).
Proof.
  intros H. unfold session_usable in H. destruct_adapter a. simpl in *.
  unfold UspWrite_Actual, call_usp, emit. unfold_ops. simpl.
  destruct usp; try reflexivity; destruct handle_; try reflexivity;
    exfalso; apply H; repeat split; discriminate.
Qed.

Lemma UspWrite_unbuffered buffer n a :
  buffered a = false -> UspWrite buffer n a = UspWrite_Actual buffer n a.
Proof.
  intros H. unfold buffered in H. unfold UspWrite, bind, gets.
  destruct (m_fUseBufferedImplementation a); cbn [negb orb andb] in *; [ | reflexivity].
  destruct (m_servicePreferedBufferSizeSendingNow a =? 0); [reflexivity | discriminate].
Qed.

Lemma UspWrite_buffered buffer n a :
  buffered a = true -> UspWrite buffer n a = UspWrite_Buffered buffer n a.
Proof.
  intros H. unfold buffered in H. unfold UspWrite, bind, gets.
  destruct (m_fUseBufferedImplementation a); cbn [negb orb andb] in *; [ | discriminate].
  destruct (m_servicePreferedBufferSizeSendingNow a =? 0); [discriminate | reflexivity].
Qed.

(** X22.  With buffering off, or before a frame size is chosen, a write
    of n bytes that the caller's buffer holds is passed on as it is: on a
    usable session it is one audio write of those n bytes and nothing else
    changes; on a session that is not usable (none, or the adapter
    terminating or Zombie) it is dropped. *)
Theorem unbuffered_write_is_verbatim :
  forall (buffer : list uint8) (n : Z) (a : Adapter),
    buffered a = false ->
    0 <= n <= Z.of_nat (List.length buffer) ->
    (session_usable a ->
     UspWrite buffer n a = (Done tt, audio_sent (firstn (Z.to_nat n) buffer) a) /\
     Z.of_nat (List.length (firstn (Z.to_nat n) buffer)) = n) /\
    (~ session_usable a -> UspWrite buffer n a = (Done tt, a)).
Proof.
  intros buffer n a H Hn. rewrite (UspWrite_unbuffered buffer n a H). split.
  - intros Hu. split; [apply UspWrite_Actual_run; exact Hu | ].
    rewrite length_firstn. lia.
  - apply UspWrite_Actual_dead.
Qed.

Lemma unbuffered_write_witness :
  UspWrite [1; 2] 2 turn_opening
    = (Done tt, audio_sent (firstn (Z.to_nat 2) [1; 2]) turn_opening).
Proof.
  apply (unbuffered_write_is_verbatim [1; 2] 2 turn_opening).
  - reflexivity.
  - vm_compute. split; discriminate.
  - repeat split; discriminate.
Defined.

Lemma UspWriteFormat_run f a :
  host_order a = LittleEndian ->
  m_servicePreferedBufferSizeSendingNow a = 0 ->
  session_usable a ->
  UspWriteFormat (Some f) a = (Done tt, audio_sent (prelude_layout f) a).
Proof.
  intros Hh Hs Hu. rewrite (UspWriteFormat_single_write f a Hh).
  rewrite UspWrite_unbuffered.
  - rewrite (UspWrite_Actual_run _ _ a Hu), Nat2Z.id, firstn_all. reflexivity.
  - unfold buffered. rewrite Hs. change (0 =? 0) with true. apply Bool.andb_false_r.
Qed.

Lemma SendPreAudioMessages_run f a :
  m_format a = Some f ->
  host_order a = LittleEndian ->
  m_servicePreferedBufferSizeSendingNow a = 0 ->
  session_usable a ->
  SendPreAudioMessages a = (Done tt, preamble_sent f a).
Proof.
  intros Hf Hh Hs Hu.
  assert (Hu0 := Hu). destruct Hu0 as [Hn [Ht Hz]].
  destruct (m_handle a) as [client | ] eqn:Hc; [ | congruence].
  unfold SendPreAudioMessages. unfold bind at 1.
  rewrite (UspSendSpeechContext_run a client Hc Ht Hz). cbv zeta.
  unfold preamble_sent, context_messages, speech_context.
  rewrite GetSpeechContextJson_eq, context_payload_empty.
  set (dgiJson := GetDgiJsonFromListenForList _ _).
  set (intentJson := GetLanguageUnderstandingJsonFromIntentInfo _ _ _ _).
  destruct (string_empty dgiJson && string_empty intentJson).
  - unfold bind, gets.
    replace (m_format (set_m_expectIntentResponse (negb (string_empty intentJson)) a))
      with (Some f) by (destruct_adapter a; exact (eq_sym Hf)).
    rewrite UspWriteFormat_run;
      [ | destruct_adapter a; assumption | destruct_adapter a; assumption
        | destruct_adapter a; unfold session_usable in *; simpl in *; subst; repeat split; congruence ].
    destruct_adapter a. reflexivity.
  - unfold bind, gets.
    match goal with |- context [m_format ?x] =>
      replace (m_format x) with (Some f) by (destruct_adapter a; exact (eq_sym Hf)) end.
    rewrite UspWriteFormat_run;
      [ | destruct_adapter a; assumption | destruct_adapter a; assumption
        | destruct_adapter a; unfold session_usable in *; simpl in *; subst; repeat split; congruence ].
    destruct_adapter a. unfold audio_sent. simpl. rewrite <- app_assoc. reflexivity.
Qed.

Lemma pending_length a :
  chunk_ready a ->
  Z.of_nat (List.length (pending a)) = m_bytesInBuffer a - m_bytesLeftInBuffer a.
Proof.
  intros [bytes [Hb [Hl [Hin [Hleft Hp]]]]]. unfold pending.
  rewrite Hb, wrap_size_t_small by lia. rewrite length_firstn. lia.
Qed.

Lemma after_full_frame_accounted a :
  chunk_ready a -> session_usable a -> accounted (after_full_frame a) = accounted a.
Proof.
  intros Hc Hu.
  destruct (after_full_frame_ready a Hc Hu) as [Hc1 _].
  unfold accounted. rewrite (pending_length _ Hc1), (pending_length _ Hc).
  destruct Hc as [bytes [Hb [Hl [Hin [Hleft Hp]]]]].
  unfold after_full_frame.
  destruct (Z.gtb_spec (m_bytesInBuffer a) 0) as [G | G]; [ | lia].
  destruct (Z.eqb_spec (m_bytesLeftInBuffer a) 0) as [E | E]; cbn [andb]; [ | reflexivity].
  unfold bytes_sent, frame_sent. destruct_adapter a. simpl in *. subst.
  rewrite audio_writes_app, concat_app, length_app. simpl.
  rewrite app_nil_r, length_firstn, Z.sub_0_r, wrap_size_t_small by lia. lia.
Qed.

Lemma bytes_copied_accounted buffer count a :
  chunk_ready a -> session_usable a ->
  0 <= count <= m_bytesLeftInBuffer a ->
  count <= Z.of_nat (List.length buffer) ->
  accounted (bytes_copied buffer count a) = accounted a + count.
Proof.
  intros Hc Hu Hk Hs.
  destruct (bytes_copied_ready buffer count a Hc Hu Hk Hs) as [Hc2 [_ [Hi2 He2]]].
  unfold accounted. rewrite (pending_length _ Hc2), (pending_length _ Hc), Hi2.
  unfold bytes_sent. rewrite He2.
  destruct Hc as [bytes [Hb [Hl [Hin [Hleft Hp]]]]].
  unfold bytes_copied. rewrite Hp, Hb. destruct_adapter a. simpl in *. lia.
Qed.

Lemma after_full_frame_settings a : same_settings a (after_full_frame a).
Proof.
  unfold after_full_frame.
  destruct ((m_bytesInBuffer a >? 0) && (m_bytesLeftInBuffer a =? 0));
    destruct_adapter a; split; reflexivity.
Qed.

Lemma bytes_copied_settings buffer count a : same_settings a (bytes_copied buffer count a).
Proof.
  unfold bytes_copied.
  destruct (m_ptrIntoBuffer a), (m_buffer a); destruct_adapter a; split; reflexivity.
Qed.

(** A write through the buffer returns; it hands over full frames only,
    keeps less than a frame, and accounts for every byte it was given. *)
Lemma UspWrite_Buffered_loop_cut fuel : forall buffer n a,
  chunk_ready a -> session_usable a ->
  0 <= n <= Z.of_nat (List.length buffer) ->
  (Z.to_nat n < fuel)%nat ->
  exists a' frames,
    UspWrite_Buffered_loop fuel false buffer n a = (Done tt, a') /\
    chunk_ready a' /\ session_usable a' /\
    m_bytesInBuffer a' = m_bytesInBuffer a /\
    events a' = events a ++ audio_events frames /\
    full_frames a frames /\
    0 < m_bytesLeftInBuffer a' /\
    accounted a' = accounted a + n /\
    same_settings a a'.
Proof.
  induction fuel as [ | fuel IH]; intros buffer n a Hc Hu Hn Hf; [lia | ].
  assert (Hb : m_buffer a <> None) by (destruct Hc as [b [E _]]; congruence).
  assert (Hp : m_ptrIntoBuffer a <> None) by (destruct Hc as [b [_ [_ [_ [_ E]]]]]; congruence).
  rewrite (UspWrite_Buffered_loop_step fuel buffer n a Hu Hb Hp).
  destruct (after_full_frame_ready a Hc Hu) as [Hc1 [Hu1 [Hi1 [Hl1 [frames1 [He1 Hf1]]]]]].
  pose proof (after_full_frame_accounted a Hc Hu) as Ha1.
  destruct (Z.eqb_spec n 0) as [E | E].
  - exists (after_full_frame a), frames1.
    split; [reflexivity | split; [exact Hc1 | split; [exact Hu1 | split; [exact Hi1 | ]]]].
    split; [exact He1 | split; [exact Hf1 | split; [exact Hl1 | split; [lia | ]]]].
    apply after_full_frame_settings.
  - set (a1 := after_full_frame a) in *.
    set (k := Z.min n (m_bytesLeftInBuffer a1)).
    assert (Hk : 0 < k <= n /\ k <= m_bytesLeftInBuffer a1) by (subst k; lia).
    destruct (bytes_copied_ready buffer k a1 Hc1 Hu1) as [Hc2 [Hu2 [Hi2 He2]]]; [lia | lia | ].
    pose proof (bytes_copied_accounted buffer k a1 Hc1 Hu1) as Ha2.
    destruct (IH buffer (n - k) (bytes_copied buffer k a1) Hc2 Hu2) as
      [a' [frames2 [R [Hc' [Hu' [Hi' [He' [Hf' [Hl' [Ha' Hs']]]]]]]]]]; [lia | lia | ].
    exists a', (frames1 ++ frames2).
    split; [exact R | split; [exact Hc' | split; [exact Hu' | split; [ | split; [ | split]]]]].
    + congruence.
    + rewrite He', He2, He1. unfold audio_events. rewrite map_app, app_assoc. reflexivity.
    + unfold full_frames in *. apply Forall_app. split; [exact Hf1 | ].
      rewrite Hi2, Hi1 in Hf'. exact Hf'.
    + split; [exact Hl' | split; [rewrite Ha', Ha2 by lia; lia | ]].
      destruct Hs' as [S1 S2].
      destruct (bytes_copied_settings buffer k a1) as [S3 S4].
      destruct (after_full_frame_settings a) as [S5 S6]. fold a1 in S5, S6.
      split; congruence.
Qed.

Lemma UspWrite_Buffered_cut buffer n a :
  session_usable a ->
  buffer_ready a ->
  0 < n <= Z.of_nat (List.length buffer) ->
  exists a' frames,
    UspWrite_Buffered buffer n a = (Done tt, a') /\
    chunk_ready a' /\ session_usable a' /\
    frame_length a' = frame_length a /\
    events a' = events a ++ audio_events frames /\
    Forall (fun f => Z.of_nat (List.length f) = frame_length a) frames /\
    Z.of_nat (List.length (pending a')) < frame_length a /\
    accounted a' = accounted a + n /\
    same_settings a a'.
Proof.
  intros Hu Hc Hn.
  assert (En : (n =? 0) = false) by (apply Z.eqb_neq; lia).
  unfold UspWrite_Buffered. rewrite En.
  destruct Hc as [[Hb Hs] | Hc].
  - set (a0 := set_m_bytesLeftInBuffer (m_servicePreferedBufferSizeSendingNow a)
                 (set_m_ptrIntoBuffer (Some 0)
                    (set_m_bytesInBuffer (m_servicePreferedBufferSizeSendingNow a)
                       (set_m_buffer
                          (Some (SpxAllocSharedUint8Buffer
                                   (m_servicePreferedBufferSizeSendingNow a))) a)))).
    assert (Hc0 : chunk_ready a0).
    { subst a0. destruct_adapter a. simpl in *.
      exists (SpxAllocSharedUint8Buffer frameSize). simpl.
      unfold SpxAllocSharedUint8Buffer. rewrite repeat_length.
      split; [reflexivity | split; [lia | split; [lia | split; [lia | ]]]].
      f_equal. lia. }
    assert (Hu0 : session_usable a0) by (subst a0; destruct_adapter a; exact Hu).
    destruct (UspWrite_Buffered_loop_cut (S (Z.to_nat n)) buffer n a0 Hc0 Hu0) as
      [a' [frames [R [Hc' [Hu' [Hi' [He' [Hf' [Hl' [Ha' Hs']]]]]]]]]]; [lia | lia | ].
    exists a', frames.
    assert (Hfl : frame_length a = m_bytesInBuffer a0)
      by (subst a0; unfold frame_length; rewrite Hb; destruct_adapter a; reflexivity).
    assert (Hfl' : frame_length a' = m_bytesInBuffer a').
    { unfold frame_length. destruct Hc' as [b [E _]]. now rewrite E. }
    split.
    { unfold when, bind, gets, modify, reset_ptrIntoBuffer. rewrite Hb. cbn [non_null negb].
      rewrite <- R. subst a0. destruct_adapter a. reflexivity. }
    split; [exact Hc' | split; [exact Hu' | split; [congruence | ]]].
    split; [rewrite He'; subst a0; destruct_adapter a; reflexivity | ].
    split; [unfold full_frames in Hf'; rewrite Hfl; exact Hf' | ].
    split; [rewrite (pending_length _ Hc'), Hfl, <- Hi'; lia | ].
    split; [ | destruct Hs' as [S1 S2]; subst a0; destruct_adapter a; split; assumption].
    rewrite Ha'. f_equal. unfold accounted, bytes_sent, pending. rewrite Hb.
    subst a0. destruct_adapter a. simpl.
    rewrite Z.sub_diag, wrap_size_t_0. reflexivity.
  - assert (Hc0 := Hc). destruct Hc0 as [bytes [Hb _]].
    unfold when, bind, gets. rewrite Hb. cbn [non_null negb ret].
    destruct (UspWrite_Buffered_loop_cut (S (Z.to_nat n)) buffer n a Hc Hu) as
      [a' [frames [R [Hc' [Hu' [Hi' [He' [Hf' [Hl' [Ha' Hs']]]]]]]]]]; [lia | lia | ].
    exists a', frames.
    assert (Hfl : frame_length a = m_bytesInBuffer a)
      by (unfold frame_length; now rewrite Hb).
    assert (Hfl' : frame_length a' = m_bytesInBuffer a').
    { unfold frame_length. destruct Hc' as [b [E _]]. now rewrite E. }
    split; [exact R | split; [exact Hc' | split; [exact Hu' | split; [congruence | ]]]].
    split; [exact He' | ].
    split; [unfold full_frames in Hf'; rewrite Hfl; exact Hf' | ].
    split; [rewrite (pending_length _ Hc'), Hfl, <- Hi'; lia | split; [exact Ha' | exact Hs']].
Qed.

Lemma ProcessAudio_in_turn data size a :
  m_audioState a = AudioState.Sending ->
  in_bad_state a = false ->
  0 < size ->
  ProcessAudio data size a = UspWrite data size a.
Proof.
  intros Hs Hb Hn. unfold ProcessAudio. unfold bind at 1.
  rewrite IsBadState_in_bad_state, Hb.
  assert (G : (size >? 0) = true) by (apply Z.gtb_lt; exact Hn).
  unfold and_then, bind, ret, IsState_audio, gets, ChangeState. rewrite G, Hs.
  cbn [AudioState.eqb andb]. rewrite Hs. reflexivity.
Qed.

Lemma ProcessAudio_first data size a :
  state_pair a = (AudioState.Ready, UspState.Idle) ->
  0 < size ->
  ProcessAudio data size a =
  (SendPreAudioMessages ;; UspWrite data size ;; call_site AdapterStartingTurn)
    (committed AudioState.Sending UspState.WaitingForTurnStart a).
Proof.
  intros Hs Hn. unfold state_pair in Hs. injection Hs as Ha Hu.
  unfold ProcessAudio. unfold bind at 1.
  rewrite IsBadState_in_bad_state. unfold in_bad_state. rewrite Hu.
  assert (G : (size >? 0) = true) by (apply Z.gtb_lt; exact Hn).
  unfold and_then, ChangeState. unfold bind at 1. unfold bind at 1. unfold ret at 1.
  rewrite G, Ha, Hu. cbn [AudioState.eqb UspState.eqb andb orb negb].
  reflexivity.
Qed.

(** X23.  Audio that arrives in a turn, with buffering on, is cut into
    frames: the call returns, the state pair is kept, every audio write it
    makes is a full frame, less than a frame stays pending, and the bytes
    handed over and pending have grown by exactly the size of the write. *)
Theorem audio_in_turn_is_cut_into_frames :
  forall (data : list uint8) (size : Z) (a : Adapter),
    m_audioState a = AudioState.Sending ->
    session_usable a ->
    in_bad_state a = false ->
    buffered a = true ->
    buffer_ready a ->
    0 < size <= Z.of_nat (List.length data) ->
    exists a' frames,
      ProcessAudio data size a = (Done tt, a') /\
      state_pair a' = state_pair a /\
      events a' = events a ++ audio_events frames /\
      Forall (fun f => Z.of_nat (List.length f) = frame_length a) frames /\
      Z.of_nat (List.length (pending a')) < frame_length a /\
      accounted a' = accounted a + size.
Proof.
  intros data size a Hs Hu Hb Hf Hr Hn.
  rewrite (ProcessAudio_in_turn data size a Hs Hb) by lia.
  rewrite (UspWrite_buffered data size a Hf).
  destruct (UspWrite_Buffered_cut data size a Hu Hr Hn) as
    [a' [frames [R [_ [_ [_ [He [Hl [Hp [Ha _]]]]]]]]]].
  exists a', frames. split; [exact R | ].
  split; [ | split; [exact He | split; [exact Hl | split; [exact Hp | exact Ha]]]].
  pose proof (uploaded_UspWrite_Buffered data size a) as U. rewrite R in U. apply U.
Qed.

Lemma audio_in_turn_witness :
  exists a' frames,
    ProcessAudio (repeat 7 32) 32 in_phrase = (Done tt, a') /\
    state_pair a' = state_pair in_phrase /\
    events a' = events in_phrase ++ audio_events frames /\
    Forall (fun f => Z.of_nat (List.length f) = frame_length in_phrase) frames /\
    Z.of_nat (List.length (pending a')) < frame_length in_phrase /\
    accounted a' = accounted in_phrase + 32.
Proof.
  apply (audio_in_turn_is_cut_into_frames (repeat 7 32) 32 in_phrase).
  - reflexivity.
  - repeat split; discriminate.
  - reflexivity.
  - reflexivity.
  - right. eexists. repeat split; try reflexivity; vm_compute; discriminate.
  - vm_compute. split; [reflexivity | discriminate].
Defined.

(** X24.  The first audio of a turn, in (Ready, Idle) with a session and a
    stored format, opens the turn in a fixed order: the context message if
    there is one, the format header as one audio write of its own, then the
    audio (as it is when buffering is off, in full frames of the size just
    chosen when it is on), and only then the site is told that the turn is
    starting; the adapter is left in (Sending, WaitingForTurnStart). *)
Theorem first_audio_opens_the_turn :
  forall (data : list uint8) (size : Z) (f : WAVEFORMATEX) (a : Adapter),
    state_pair a = (AudioState.Ready, UspState.Idle) ->
    m_handle a <> None ->
    m_format a = Some f ->
    host_order a = LittleEndian ->
    m_servicePreferedBufferSizeSendingNow a = 0 ->
    m_buffer a = None ->
    0 < size <= Z.of_nat (List.length data) ->
    exists a' frames,
      ProcessAudio data size a = (Done tt, a') /\
      state_pair a' = (AudioState.Sending, UspState.WaitingForTurnStart) /\
      events a' = events a ++ context_messages (site a) ++
                  [ToUsp (WriteAudio (format_header (host_order a) f))] ++
                  audio_events frames ++ [ToSite AdapterStartingTurn] /\
      m_servicePreferedBufferSizeSendingNow a'
        = frame_bytes f (m_servicePreferedMilliseconds a) /\
      (buffered a' = false -> frames = [firstn (Z.to_nat size) data]) /\
      (buffered a' = true ->
       Forall (fun fr => Z.of_nat (List.length fr)
                         = frame_bytes f (m_servicePreferedMilliseconds a)) frames).
Proof.
  intros data size f a Hs Hh Hf Ho Hz Hb Hn.
  rewrite Ho, format_header_layout.
  rewrite (ProcessAudio_first data size a Hs) by lia.
  set (a1 := committed AudioState.Sending UspState.WaitingForTurnStart a).
  assert (Hu1 : session_usable a1).
  { subst a1. destruct_adapter a. unfold session_usable. simpl in *.
    repeat split; [exact Hh | discriminate | discriminate]. }
  unfold bind at 1.
  rewrite (SendPreAudioMessages_run f a1);
    [ | subst a1; destruct_adapter a; assumption ..].
  set (a2 := preamble_sent f a1).
  assert (Hu2 : session_usable a2) by (subst a2 a1; destruct_adapter a; exact Hu1).
  assert (E2 : events a2 = events a ++ context_messages (site a) ++
                           [ToUsp (WriteAudio (prelude_layout f))])
    by (subst a2 a1; destruct_adapter a; reflexivity).
  assert (F2 : m_servicePreferedBufferSizeSendingNow a2
               = frame_bytes f (m_servicePreferedMilliseconds a))
    by (subst a2 a1; destruct_adapter a; reflexivity).
  assert (P2 : state_pair a2 = (AudioState.Sending, UspState.WaitingForTurnStart))
    by (subst a2 a1; destruct_adapter a; reflexivity).
  assert (B2 : m_buffer a2 = None) by (subst a2 a1; destruct_adapter a; exact Hb).
  assert (U2 : m_fUseBufferedImplementation a2 = m_fUseBufferedImplementation a)
    by (subst a2 a1; destruct_adapter a; reflexivity).
  assert (Fr : 0 <= frame_bytes f (m_servicePreferedMilliseconds a) < 2 ^ 64).
  { unfold frame_bytes. generalize (wrap_size_t (wrap32 (nSamplesPerSec f) * wrap16 (nBlockAlign f))
                                    * wrap_size_t (m_servicePreferedMilliseconds a)).
    intros z. unfold wrap_size_t.
    pose proof (Z.mod_pos_bound z (2 ^ 64) ltac:(lia)) as M.
    split; [apply Z.div_pos; lia | ].
    apply Z.div_lt_upper_bound; lia. }
  unfold bind at 1.
  destruct (buffered a2) eqn:Bf.
  - rewrite (UspWrite_buffered data size a2 Bf).
    assert (Hr : buffer_ready a2).
    { left. split; [exact B2 | ]. rewrite F2. unfold buffered in Bf. rewrite F2 in Bf.
      destruct (Z.eqb_spec (frame_bytes f (m_servicePreferedMilliseconds a)) 0) as [E | E];
        [rewrite Bool.andb_false_r in Bf; discriminate | lia]. }
    destruct (UspWrite_Buffered_cut data size a2 Hu2 Hr Hn) as
      [a3 [frames [R [Hc3 [_ [Fl3 [He [Hl [_ [_ Hs3]]]]]]]]]].
    pose proof (uploaded_UspWrite_Buffered data size a2) as U. rewrite R in U.
    rewrite R.
    exists (set_events (events a3 ++ [ToSite AdapterStartingTurn]) a3), frames.
    assert (Fl : frame_length a2 = frame_bytes f (m_servicePreferedMilliseconds a))
      by (unfold frame_length; rewrite B2; exact F2).
    destruct U as [Up _ _ _ _ _ _ _]. simpl in Up.
    split; [reflexivity | ].
    destruct Hs3 as [S1 S2].
    split; [rewrite <- P2, <- Up; destruct a3; reflexivity | ].
    split; [cbn [events set_events]; rewrite He, E2, <- !app_assoc; destruct a3; reflexivity | ].
    split; [rewrite <- F2, <- S1; destruct a3; reflexivity | ].
    split.
    { intros Bt. exfalso. unfold buffered in Bf, Bt. rewrite <- S1, <- S2 in Bf.
      destruct a3; simpl in *. congruence. }
    intros _. rewrite <- Fl. exact Hl.
  - rewrite (UspWrite_unbuffered data size a2 Bf), (UspWrite_Actual_run data size a2 Hu2).
    exists (set_events (events (audio_sent (firstn (Z.to_nat size) data) a2)
                        ++ [ToSite AdapterStartingTurn])
                       (audio_sent (firstn (Z.to_nat size) data) a2)),
           [firstn (Z.to_nat size) data].
    split; [reflexivity | ].
    split; [subst a2 a1; destruct_adapter a; reflexivity | ].
    split.
    { unfold audio_sent. cbn [events set_events]. destruct a2; simpl in *.
      rewrite E2, <- !app_assoc. reflexivity. }
    split; [destruct a2; exact F2 | ].
    split; [reflexivity | ].
    intros Bt. exfalso. unfold buffered in Bf, Bt. destruct a2; simpl in *. congruence.
Qed.

Lemma first_audio_witness :
  exists a' frames,
    ProcessAudio [1; 2; 3] 3 format_set = (Done tt, a') /\
    state_pair a' = (AudioState.Sending, UspState.WaitingForTurnStart) /\
    events a' = events format_set ++ context_messages (site format_set) ++
                [ToUsp (WriteAudio (format_header (host_order format_set) pcm16k))] ++
                audio_events frames ++ [ToSite AdapterStartingTurn] /\
    m_servicePreferedBufferSizeSendingNow a'
      = frame_bytes pcm16k (m_servicePreferedMilliseconds format_set) /\
    (buffered a' = false -> frames = [firstn (Z.to_nat 3) [1; 2; 3]]) /\
    (buffered a' = true ->
     Forall (fun fr => Z.of_nat (List.length fr)
                       = frame_bytes pcm16k (m_servicePreferedMilliseconds format_set)) frames).
Proof.
  apply (first_audio_opens_the_turn [1; 2; 3] 3 pcm16k format_set);
    try reflexivity; try discriminate.
  vm_compute. split; [reflexivity | discriminate].
Defined.

(** ** Translations with a known status *)

(** X25.  A translation with a known status that comes in WaitingForPhrase
    is handed to the site once, with its text, json, translations and
    failure reason: a hypothesis as an intermediate result, the state pair
    being kept; a phrase as a final result, after which the adapter waits
    for the end of the turn (interactive) or for the next phrase.  The
    recognition status of the message plays no part. *)
Theorem known_translation_is_relayed :
  forall (message : TranslationMsg) (a : Adapter),
    ~ unknown_translation_status message ->
    m_uspState a = UspState.WaitingForPhrase ->
    (exists r,
        OnTranslationHypothesis message a
          = (Done tt,
             set_events (events a ++
                         [ToSite (FireAdapterResult_Intermediate (tmsg_offset message) r)]) a) /\
        result_final r = false /\ carries message r) /\
    (exists r,
        OnTranslationPhrase message a
          = (Done tt,
             set_events (events a ++
                         [ToSite (FireAdapterResult_FinalResult (tmsg_offset message) r)])
                        (set_m_uspState (after_phrase a) a)) /\
        result_final r = true /\ carries message r).
Proof.
  intros message a Hs H. destruct_adapter a. simpl in H. subst usp.
  unfold unknown_translation_status in Hs.
  unfold after_phrase, carries, text_status. unfold_ops.
  unfold translation_result, translation_text_status, call_site, emit.
  unfold_ops. simpl.
  destruct (translationStatus (tmsg_translation message)); try (exfalso; exact (Hs I));
    (split; [eexists; split; [reflexivity | repeat split]
            | destruct recoMode, audio; eexists; (split; [reflexivity | repeat split])]).
Qed.

Lemma known_translation_witness :
  exists r,
    OnTranslationPhrase example_translation in_phrase
      = (Done tt,
         set_events (events in_phrase ++ [ToSite (FireAdapterResult_FinalResult 4 r)])
                    (set_m_uspState (after_phrase in_phrase) in_phrase)) /\
    result_final r = true /\ carries example_translation r.
Proof.
  destruct (known_translation_is_relayed example_translation in_phrase) as [_ P].
  - intros H. exact H.
  - reflexivity.
  - exact P.
Defined.

(** ** The uploader follows no null pointer and stays in no loop *)

#[local] Arguments Z.pow : simpl never.

Lemma keeps_ret {A} (x : A) : keeps (ret x).
Proof. intros a H. split; [exact I | exact H]. Qed.

Lemma keeps_gets {A} (f : Adapter -> A) : keeps (gets f).
Proof. intros a H. split; [exact I | exact H]. Qed.

Lemma keeps_bind {A B} (c : Op A) (k : A -> Op B) :
  keeps c -> (forall x, keeps (k x)) -> keeps (bind c k).
Proof.
  intros Hc Hk a H. unfold bind. destruct (Hc a H) as [R S].
  destruct (c a) as [[x | hr | | ] a']; simpl in *; try contradiction.
  - apply Hk. exact S.
  - split; [exact I | exact S].
Qed.

Lemma keeps_when (b : bool) (c : Op unit) : keeps c -> keeps (when b c).
Proof. intros H. destruct b; simpl; [exact H | apply keeps_ret]. Qed.

Lemma keeps_and_then (c1 c2 : Op bool) : keeps c1 -> keeps c2 -> keeps (c1 &&& c2).
Proof.
  intros H1 H2. apply keeps_bind; [exact H1 | ].
  intros [ | ]; [exact H2 | apply keeps_ret].
Qed.

Lemma keeps_or_else (c1 c2 : Op bool) : keeps c1 -> keeps c2 -> keeps (c1 ||| c2).
Proof.
  intros H1 H2. apply keeps_bind; [exact H1 | ].
  intros [ | ]; [apply keeps_ret | exact H2].
Qed.

Lemma keeps_modify (f : Adapter -> Adapter) :
  (forall a, sound a -> sound (f a)) -> keeps (modify f).
Proof. intros H a S. split; [exact I | apply H; exact S]. Qed.

Lemma keeps_emit e : keeps (emit e).
Proof. apply keeps_modify. intros a H. destruct_adapter a. exact H. Qed.

(** What an audio write on the facade can change: the calls made. *)
Lemma UspWrite_Actual_events buffer n a :
  exists l, UspWrite_Actual buffer n a = (Done tt, set_events (events a ++ l) a).
Proof.
  destruct_adapter a. unfold UspWrite_Actual, call_usp, emit. unfold_ops. simpl.
  destruct usp, handle_; simpl;
    first [ exists []; rewrite app_nil_r; reflexivity | eexists; reflexivity ].
Qed.

Lemma sound_set_events l a : sound a -> sound (set_events l a).
Proof. intros H. destruct_adapter a. exact H. Qed.

Lemma keeps_UspWrite_Actual buffer n : keeps (UspWrite_Actual buffer n).
Proof.
  intros a H. destruct (UspWrite_Actual_events buffer n a) as [l E]. rewrite E.
  split; [exact I | apply sound_set_events; exact H].
Qed.

(** One pass of the loop of [UspWrite_Buffered] when it is not flushing,
    whether or not the session takes the frame. *)
Lemma UspWrite_Buffered_loop_pass fuel buffer n a :
  m_buffer a <> None -> m_ptrIntoBuffer a <> None ->
  UspWrite_Buffered_loop (S fuel) false buffer n a =
  if n =? 0 then (Done tt, frame_passed a)
  else UspWrite_Buffered_loop fuel false buffer
         (n - Z.min n (m_bytesLeftInBuffer (frame_passed a)))
         (bytes_copied buffer (Z.min n (m_bytesLeftInBuffer (frame_passed a)))
                       (frame_passed a)).
Proof.
  intros Hb Hp. destruct_adapter a.
  simpl in *.
  destruct buffer_ as [bytes | ]; [ | congruence].
  destruct ptr as [off | ]; [ | congruence].
  unfold frame_passed, bytes_copied, exec.
  cbn [UspWrite_Buffered_loop].
  unfold UspWrite_Actual, reset_ptrIntoBuffer, call_usp, emit, IsState_usp, when, bind, gets, ret, modify.
  cbn -[UspWrite_Buffered_loop].
  destruct ((bytesIn >? 0) && (bytesLeft =? 0)); cbn -[UspWrite_Buffered_loop];
    destruct usp, handle_; cbn -[UspWrite_Buffered_loop];
    destruct (n =? 0); reflexivity.
Qed.

Lemma around_buffer_refl a : around_buffer a a.
Proof. repeat split. Qed.

Lemma around_buffer_trans a b c : around_buffer a b -> around_buffer b c -> around_buffer a c.
Proof. unfold around_buffer. intuition congruence. Qed.

Lemma frame_passed_ready a :
  chunk_ready a ->
  chunk_ready (frame_passed a) /\ 0 < m_bytesLeftInBuffer (frame_passed a) /\
  around_buffer a (frame_passed a).
Proof.
  intros [bytes [Hb [Hl [Hin [Hleft Hp]]]]]. unfold frame_passed.
  destruct (Z.gtb_spec (m_bytesInBuffer a) 0) as [G | G]; [ | lia].
  destruct (Z.eqb_spec (m_bytesLeftInBuffer a) 0) as [E | E]; cbn [andb].
  - unfold exec.
    destruct (UspWrite_Actual_events (buffer_get (m_buffer a))
                (wrap_size_t (m_bytesInBuffer a - m_bytesLeftInBuffer a)) a) as [l El].
    rewrite El. destruct_adapter a. unfold chunk_ready, around_buffer. simpl in *. subst.
    split; [ | split; [lia | repeat split]].
    exists bytes. split; [reflexivity | split; [reflexivity | ]].
    split; [lia | split; [lia | ]]. f_equal. lia.
  - split; [ | split; [lia | apply around_buffer_refl]].
    exists bytes. repeat split; try tauto; lia.
Qed.

Lemma bytes_copied_sound buffer count a :
  chunk_ready a ->
  0 <= count <= m_bytesLeftInBuffer a ->
  count <= Z.of_nat (List.length buffer) ->
  chunk_ready (bytes_copied buffer count a) /\ around_buffer a (bytes_copied buffer count a).
Proof.
  intros [bytes [Hb [Hl [Hin [Hleft Hp]]]]] Hc Hs.
  destruct_adapter a.
  unfold bytes_copied, chunk_ready, around_buffer in *. simpl in *. subst. simpl.
  split; [ | repeat split].
  exists (memcpy bytes (Z.of_nat (List.length bytes) - bytesLeft) buffer count).
  split; [reflexivity | split; [ | split; [lia | split; [lia | ]]]].
  - rewrite memcpy_length; lia.
  - f_equal. lia.
Qed.

(** A write through the buffer returns and leaves the buffer in step, with
    or without a session. *)
Lemma UspWrite_Buffered_loop_sound fuel : forall buffer n a,
  chunk_ready a ->
  0 <= n <= Z.of_nat (List.length buffer) ->
  (Z.to_nat n < fuel)%nat ->
  exists a',
    UspWrite_Buffered_loop fuel false buffer n a = (Done tt, a') /\
    chunk_ready a' /\ around_buffer a a'.
Proof.
  induction fuel as [ | fuel IH]; intros buffer n a Hc Hn Hf; [lia | ].
  assert (Hb : m_buffer a <> None) by (destruct Hc as [b [E _]]; congruence).
  assert (Hp : m_ptrIntoBuffer a <> None) by (destruct Hc as [b [_ [_ [_ [_ E]]]]]; congruence).
  rewrite (UspWrite_Buffered_loop_pass fuel buffer n a Hb Hp).
  destruct (frame_passed_ready a Hc) as [Hc1 [Hl1 Ha1]].
  destruct (Z.eqb_spec n 0) as [E | E].
  - exists (frame_passed a). split; [reflexivity | split; [exact Hc1 | exact Ha1]].
  - set (a1 := frame_passed a) in *.
    set (k := Z.min n (m_bytesLeftInBuffer a1)).
    assert (Hk : 0 < k <= n /\ k <= m_bytesLeftInBuffer a1) by (subst k; lia).
    destruct (bytes_copied_sound buffer k a1 Hc1) as [Hc2 Ha2]; [lia | lia | ].
    destruct (IH buffer (n - k) (bytes_copied buffer k a1) Hc2) as [a' [R [Hc' Ha']]];
      [lia | lia | ].
    exists a'. split; [exact R | split; [exact Hc' | ]].
    eapply around_buffer_trans; [exact Ha1 | ].
    eapply around_buffer_trans; [exact Ha2 | exact Ha'].
Qed.

Lemma sound_around a a' :
  sound a -> around_buffer a a' -> buffer_sound a' -> sound a'.
Proof.
  intros [Hf [_ Hs]] [Ea [Ef Es]] Hb. unfold sound, format_kept, frame_size_sound in *.
  rewrite Ea, Ef, Es. auto.
Qed.

(** A buffered write of bytes the caller's buffer holds, the frame size
    being positive. *)
Lemma UspWrite_Buffered_sound buffer n a :
  sound a ->
  m_servicePreferedBufferSizeSendingNow a <> 0 ->
  0 < n <= Z.of_nat (List.length buffer) ->
  exists a', UspWrite_Buffered buffer n a = (Done tt, a') /\ sound a'.
Proof.
  intros Hs Hz Hn.
  assert (En : (n =? 0) = false) by (apply Z.eqb_neq; lia).
  unfold UspWrite_Buffered. rewrite En.
  destruct Hs as [Hf [[Hb | Hc] Hr]].
  - set (a0 := set_m_bytesLeftInBuffer (m_servicePreferedBufferSizeSendingNow a)
                 (set_m_ptrIntoBuffer (Some 0)
                    (set_m_bytesInBuffer (m_servicePreferedBufferSizeSendingNow a)
                       (set_m_buffer
                          (Some (SpxAllocSharedUint8Buffer
                                   (m_servicePreferedBufferSizeSendingNow a))) a)))).
    assert (Hc0 : chunk_ready a0).
    { subst a0. unfold frame_size_sound in Hr. destruct_adapter a. simpl in *.
      exists (SpxAllocSharedUint8Buffer frameSize). simpl.
      unfold SpxAllocSharedUint8Buffer. rewrite repeat_length.
      split; [reflexivity | split; [lia | split; [lia | split; [lia | ]]]].
      f_equal. lia. }
    destruct (UspWrite_Buffered_loop_sound (S (Z.to_nat n)) buffer n a0 Hc0) as
      [a' [R [Hc' Ha']]]; [lia | lia | ].
    exists a'. split.
    { unfold when, bind, gets, modify, reset_ptrIntoBuffer. rewrite Hb. cbn [non_null negb].
      rewrite <- R. subst a0. destruct_adapter a. reflexivity. }
    apply (sound_around a0); [ | exact Ha' | right; exact Hc'].
    subst a0. split; [destruct_adapter a; exact Hf | ].
    split; [right; exact Hc0 | destruct_adapter a; exact Hr].
  - assert (Hc0 := Hc). destruct Hc0 as [bytes [Hb _]].
    unfold when, bind, gets. rewrite Hb. cbn [non_null negb ret].
    destruct (UspWrite_Buffered_loop_sound (S (Z.to_nat n)) buffer n a Hc) as
      [a' [R [Hc' Ha']]]; [lia | lia | ].
    exists a'. split; [exact R | ].
    apply (sound_around a); [ | exact Ha' | right; exact Hc'].
    split; [exact Hf | split; [right; exact Hc | exact Hr]].
Qed.

(** The flush through the buffer, with or without a session. *)
Lemma keeps_UspWrite_Buffered_flush buffer : keeps (UspWrite_Buffered buffer 0).
Proof.
  intros a Hs.
  unfold UspWrite_Buffered. change (Z.to_nat 0) with 0%nat.
  cbn [UspWrite_Buffered_loop]. change (0 =? 0) with true. cbn [orb].
  unfold reset_ptrIntoBuffer, when, bind, gets, ret, modify. cbn [negb].
  destruct Hs as [Hf [_ Hr]].
  destruct (m_buffer a) as [bytes | ] eqn:Hb; cbn [non_null negb].
  - destruct (UspWrite_Actual_events (buffer_get (m_buffer a))
                (wrap_size_t (m_bytesInBuffer a - m_bytesLeftInBuffer a)) a) as [l El].
    rewrite El. cbv beta iota. cbn [fst snd].
    split; [exact I | ].
    destruct_adapter a. simpl in *.
    split; [exact Hf | split; [left; reflexivity | exact Hr]].
  - match goal with
    | |- context [UspWrite_Actual ?b ?n ?x] =>
        destruct (UspWrite_Actual_events b n x) as [l El]; rewrite El
    end.
    cbv beta iota. cbn [fst snd].
    split; [exact I | ].
    destruct_adapter a. simpl in *.
    split; [exact Hf | split; [left; reflexivity | exact Hr]].
Qed.

Lemma keeps_UspWrite buffer n :
  0 <= n <= Z.of_nat (List.length buffer) -> keeps (UspWrite buffer n).
Proof.
  intros Hn a Hs. unfold UspWrite, bind, gets.
  destruct (negb (m_fUseBufferedImplementation a)); cbn [orb];
    [apply keeps_UspWrite_Actual; exact Hs | ].
  destruct (Z.eqb_spec (m_servicePreferedBufferSizeSendingNow a) 0) as [E | E];
    [apply keeps_UspWrite_Actual; exact Hs | ].
  destruct (Z.eq_dec n 0) as [Z0 | Z0].
  - subst n. apply keeps_UspWrite_Buffered_flush. exact Hs.
  - destruct (UspWrite_Buffered_sound buffer n a Hs E) as [a' [R S]]; [lia | ].
    rewrite R. split; [exact I | exact S].
Qed.

Lemma keeps_UspWrite_Flush : keeps UspWrite_Flush.
Proof.
  unfold UspWrite_Flush, IsState_usp.
  apply keeps_bind; [apply keeps_gets | intros terminating].
  apply keeps_bind; [apply keeps_gets | intros zombie].
  apply keeps_bind; [apply keeps_gets | intros handle].
  apply keeps_when.
  apply keeps_bind; [apply keeps_UspWrite_Buffered_flush | intros _].
  apply keeps_emit.
Qed.

(** The header has as many bytes as are passed to [UspWrite], on either
    kind of host. *)
Lemma format_header_length host f :
  Z.of_nat (List.length (format_header host f)) = cbHeader f.
Proof.
  unfold format_header, FormatBufferWriteChars, FormatBufferWriteNumber,
    FormatBufferWriteBytes.
  rewrite cbHeader_value, cbFormatChunk_value.
  rewrite !length_app, !length_firstn, !object_bytes_length, format_memory_length.
  pose proof (wrap16_range (cbSize f)) as H.
  unfold sizeof_WAVEFORMATEX, extra_bytes, cbTag, cbChunkType in *.
  change (2 ^ 16) with 65536 in H. simpl List.length. lia.
Qed.

Lemma keeps_UspWriteFormat f : keeps (UspWriteFormat (Some f)).
Proof.
  unfold UspWriteFormat. apply keeps_bind; [apply keeps_gets | intros host].
  apply keeps_UspWrite. rewrite format_header_length, cbHeader_value.
  pose proof (wrap16_range (cbSize f)). unfold extra_bytes. lia.
Qed.

(** One step through a computation that keeps the adapter sound. *)
Ltac keeps_step :=
  lazymatch goal with
  | |- keeps (bind _ _) => apply keeps_bind; [ | intros ? ]
  | |- keeps (_ &&& _) => apply keeps_and_then
  | |- keeps (_ ||| _) => apply keeps_or_else
  | |- keeps (ret _) => apply keeps_ret
  | |- keeps (gets _) => apply keeps_gets
  | |- keeps (IsState_usp _) => apply keeps_gets
  | |- keeps (IsState_audio _) => apply keeps_gets
  | |- keeps IsBadState => unfold IsBadState
  | |- keeps UspWrite_Flush => apply keeps_UspWrite_Flush
  | |- keeps (if ?b then _ else _) => destruct b
  end.

Lemma ProcessAudio_later data size a :
  state_pair a <> (AudioState.Ready, UspState.Idle) \/ size <= 0 ->
  ProcessAudio data size a =
  (bad <- IsBadState ;;
   if bad then ret tt
   else
     sending <- ret (size >? 0) &&& IsState_audio AudioState.Sending ;;
     if sending then UspWrite data size
     else
       flushing <- ret (size =? 0) &&& IsState_audio AudioState.Sending ;;
       if flushing then UspWrite_Flush
       else ret tt) a.
Proof.
  intros H.
  assert (B : forall k : bool -> Op unit, bind IsBadState k a = k (in_bad_state a) a).
  { intros k. unfold bind. rewrite IsBadState_in_bad_state. reflexivity. }
  unfold ProcessAudio. rewrite !B. destruct (in_bad_state a); [reflexivity | ].
  assert (E : (ret (size >? 0) &&& ChangeState AudioState.Ready UspState.Idle
                 AudioState.Sending UspState.WaitingForTurnStart) a = (Done false, a)).
  { unfold and_then, bind, ret.
    destruct (Z.gtb_spec size 0) as [G | G]; [ | reflexivity].
    destruct H as [H | H]; [ | lia].
    unfold ChangeState. unfold state_pair in H.
    destruct (AudioState_eqb_spec AudioState.Ready (m_audioState a)) as [Ea | Ea];
      destruct (UspState_eqb_spec UspState.Idle (m_uspState a)) as [Eu | Eu];
      cbn [andb]; try reflexivity.
    exfalso. apply H. congruence. }
  unfold bind at 1. rewrite E. reflexivity.
Qed.

Lemma keeps_later_audio data size :
  0 <= size <= Z.of_nat (List.length data) -> keeps (later_audio data size).
Proof.
  intros Hn. unfold later_audio.
  repeat first
    [ lazymatch goal with
      | |- keeps (UspWrite _ _) => apply keeps_UspWrite; exact Hn
      end
    | keeps_step ].
Qed.

Lemma uploaded_later_audio data size : preserves uploaded (later_audio data size).
Proof.
  unfold later_audio.
  repeat first
    [ lazymatch goal with
      | |- preserves _ (UspWrite _ _) => apply uploaded_UspWrite
      | |- preserves _ UspWrite_Flush => apply uploaded_UspWrite_Flush
      | |- preserves _ IsBadState =>
          apply preserves_IsBadState; [exact uploaded_refl | exact uploaded_trans]
      | |- preserves _ (and_then _ _) =>
          apply preserves_and_then; [exact uploaded_refl | exact uploaded_trans | | ]
      end
    | uploaded_basic ].
Qed.

Lemma ProcessAudio_later_keeps data size a :
  sound a ->
  m_audioState a <> AudioState.Ready ->
  0 <= size <= Z.of_nat (List.length data) ->
  returns (result_of (ProcessAudio data size) a) /\
  sound (exec (ProcessAudio data size) a) /\
  m_audioState (exec (ProcessAudio data size) a) = m_audioState a.
Proof.
  intros Hs Hr Hn.
  assert (D : state_pair a <> (AudioState.Ready, UspState.Idle) \/ size <= 0).
  { left. unfold state_pair. intros E. apply Hr. congruence. }
  unfold result_of, exec. rewrite (ProcessAudio_later data size a D).
  fold (later_audio data size).
  destruct (keeps_later_audio data size Hn a Hs) as [R S].
  split; [exact R | split; [exact S | ]].
  pose proof (same_pair _ _ (uploaded_later_audio data size a)) as P.
  unfold state_pair in P. congruence.
Qed.

(** X26.  The uploader follows no null pointer and stays in no loop.  On a
    sound adapter (the frame buffer absent, or allocated with its size
    positive, its count of bytes left between 0 and that size and its write
    pointer at size minus bytes left; the frame size within [size_t]; a
    format stored while the audio side is Ready or Sending), a write of a
    size that its data holds, a flush and the writing of the header of a
    format all return, the loop of the buffered write having ended and the
    frame buffer never written through a null pointer, and leave the
    adapter sound.  So does every audio call after the one that opens the
    turn: from a sound adapter whose audio state is not Ready, every
    sequence of audio calls whose sizes their data holds is handled, each
    call returning and leaving the adapter sound. *)
Theorem uploader_returns_and_keeps_the_buffer_sound :
  (forall data size, 0 <= size <= Z.of_nat (List.length data) -> keeps (UspWrite data size)) /\
  keeps UspWrite_Flush /\
  (forall f, keeps (UspWriteFormat (Some f))) /\
  (forall (l : list Stimulus) (a : Adapter),
      sound a ->
      m_audioState a <> AudioState.Ready ->
      Forall audio_within_data l ->
      safe_run l a).
Proof.
  split; [exact keeps_UspWrite | split; [exact keeps_UspWrite_Flush | ]].
  split; [exact keeps_UspWriteFormat | ].
  induction l as [ | s l IH]; intros a Hs Hr Hw; [exact I | ].
  inversion Hw as [ | s' l' Hw1 Hw2]; subst.
  destruct s; try contradiction. simpl in Hw1.
  destruct (ProcessAudio_later_keeps data size a Hs Hr Hw1) as [R [S E]].
  simpl. split; [exact R | split; [exact S | ]].
  apply IH; [exact S | | exact Hw2].
  change (m_audioState (exec (ProcessAudio data size) a) <> AudioState.Ready).
  rewrite E. exact Hr.
Qed.


Lemma in_phrase_sound : sound in_phrase.
Proof.
  split; [intros _; vm_compute; discriminate | split].
  - right. exists ([1; 2; 3] ++ repeat 0 29)%list.
    vm_compute. repeat split; discriminate.
  - vm_compute. split; [discriminate | reflexivity].
Qed.

Lemma uploader_witness :
  safe_run [process_audio (repeat 7 40%nat) 40; process_audio [] 0] in_phrase.
Proof.
  apply uploader_returns_and_keeps_the_buffer_sound.
  - exact in_phrase_sound.
  - discriminate.
  - repeat constructor; vm_compute; discriminate.
Defined.

(** ** Stimuli in a bad state *)

Lemma UspWrite_Flush_keeps_site a :
  exists a', UspWrite_Flush a = (Done tt, a') /\ state_pair a' = state_pair a /\
             site_calls (events a') = site_calls (events a).
Proof.
  destruct (UspWrite_Flush_is_Done a) as [a' E]. exists a'. split; [exact E | ].
  pose proof (uploaded_UspWrite_Flush a) as U. rewrite E in U. simpl in U.
  split; [apply U | apply uploaded_site_calls; exact U].
Qed.

(** The flush in the goal replaced by the adapter it leaves. *)
Ltac flush_known :=
  match goal with
  | |- context [UspWrite_Flush ?x] =>
      let a' := fresh "a'" in
      let E := fresh "E" in
      let P := fresh "P" in
      let C := fresh "C" in
      destruct (UspWrite_Flush_keeps_site x) as [a' [E [P C]]]; rewrite E;
      unfold state_pair in P; simpl in P; injection P as ? ?
  end.

(** X27.  What each stimulus does in a bad state (Error, Terminating or
    Zombie).  process_audio, set_format with a format, turn_start,
    speech_start_detected, speech_hypothesis, speech_fragment,
    speech_phrase, translation_hypothesis, translation_phrase and error
    return with the adapter untouched; set_format with a null format does
    so in Error and Zombie and is accepted while Terminating (audio state
    Idle, the site told); term is a no-op in Zombie and otherwise ends in
    Zombie; init, set_mode, user_message and the two synthesis handlers
    leave the pair as it is.  The end of speech and the end of a turn
    return and keep the protocol state, but move the audio state as they do
    in a good state (Sending to Stopping in a single-shot turn; also Sending
    to Ready at the end of a turn otherwise); the end of speech tells the
    site nothing, the end of a single-shot turn that was sending asks it for
    audio idle. *)
Theorem bad_state_stimuli :
  forall (s : Stimulus) (a : Adapter),
    in_bad_state a = true -> bad_state_behaviour s a.
Proof.
  intros s a H. destruct_adapter a. unfold in_bad_state in H; simpl in H.
  destruct s as [ | | ? | [f|] | ? ? | ? | ? | ? | ? | ? | ? | ? | ? ? | st ? | ? | | ? | path ? ? ? ];
    unfold bad_state_behaviour, audio_after_speech_end, audio_after_turn,
      idle_request_at_turn_end, is_Sending, exec, result_of, state_pair;
    unfold_ops; simpl;
    destruct usp; try discriminate H; simpl;
    try (destruct audio; reflexivity);
    try (destruct handle_; reflexivity);
    try (destruct audio, handle_; split; reflexivity);
    try (destruct st; reflexivity);
    try (destruct (String.eqb path "response"); reflexivity).
  all: destruct singleShot, audio; simpl; rewrite ?app_nil_r;
    try (repeat split; reflexivity).
  all: try flush_known; unfold call_site, emit; simpl; simpl in *;
    rewrite ?H0, ?H1, ?site_calls_app, ?C; simpl; rewrite ?app_nil_r;
    try (repeat split; try reflexivity; congruence).
Qed.

Lemma bad_state_stimuli_witness :
  in_bad_state failed_while_sending = true /\
  state_pair (exec (handle turn_end) failed_while_sending)
    = (AudioState.Stopping, UspState.Error) /\
  handle (process_audio [1] 1) failed_while_sending = (Done tt, failed_while_sending).
Proof.
  split; [reflexivity | split].
  - destruct (bad_state_stimuli turn_end failed_while_sending eq_refl) as [_ [P _]].
    exact P.
  - apply (bad_state_stimuli (process_audio [1] 1) failed_while_sending eq_refl).
Defined.
